(** * Trail search: predicate composition and paginated execution

    A shallow embedding of [src/models/TrailSearch.js]: the parameter binder
    [addParam], the search-term sanitizer, the per-key filter dispatch of
    [searchTrails], the two range builders [addElevationFilters] and
    [addDistanceFilters], and the count/fetch/hydrate protocol with its
    [try]/[catch]/[finally] frame.

    Conventions of the embedding.
    - A script string is a [string] of code units below 256.
    - A script number is a [jsnum]: the finite ones are rationals, which is
      exact for the comparisons the program performs on them; the one
      arithmetic expression of the program, [(page - 1) * limit], rounds each
      result to the nearest double. The two zeros are one number.
    - An object is an association list in own-key order, the order
      [Object.keys] enumerates.
    - The lookup table [jsToSqlFilters] lives in [helpers/objectMaps], which
      is not part of the sources at hand; it is a parameter of the
      development, as are the operators of the script engine that the
      program applies to arbitrary values ([>] and [Number], either of which
      throws a type error on an object that has no primitive value) and the
      three collaborators (connection pool, query engine, trail hydration). *)

From Stdlib Require Import QArith DecimalString DecimalNat Ascii.
From stdpp Require Import gmap strings list.

Set Warnings "-register-all".

(** ** Values *)

Inductive jsnum : Type :=
| NaN
| PosInf
| NegInf
| Fin (q : Q).

Inductive value : Type :=
| VUndefined
| VNull
| VBool (b : bool)
| VNum (n : jsnum)
| VStr (s : string)
| VArr (items : list value)
| VObj (fields : list (string * value)).

(** Objects as the program uses them: own string keys in enumeration order. *)
Definition obj : Type := list (string * value).

(** [ToBoolean]: what [if (v)] and [!v] test. *)
Definition truthy (v : value) : bool :=
  match v with
  | VUndefined | VNull => false
  | VBool b => b
  | VNum NaN => false
  | VNum (Fin q) => negb (Qeq_bool q 0)
  | VNum _ => true
  | VStr s => negb (String.eqb s "")
  | VArr _ | VObj _ => true
  end.

(** [Array.isArray(v)]. *)
Definition isArray (v : value) : bool :=
  match v with VArr _ => true | _ => false end.

(** [a != b] on two numbers: [NaN] differs from everything, itself included. *)
Definition num_neq (a b : jsnum) : bool :=
  match a, b with
  | NaN, _ | _, NaN => true
  | Fin x, Fin y => negb (Qeq_bool x y)
  | PosInf, PosInf | NegInf, NegInf => false
  | _, _ => true
  end.

(** *** Double-precision arithmetic

    [binade n d] is the exponent [e] with [2^e <= n/d < 2^(e+1)], for
    positive [n] and [d]. *)
Definition binade (n d : Z) : Z :=
  let e := (Z.log2 n - Z.log2 d)%Z in
  if (if (0 <=? e)%Z then (d * 2 ^ e <=? n)%Z else (d <=? n * 2 ^ (- e))%Z)
  then e else (e - 1)%Z.

(** The integer nearest to [n/d], the even one of two that are equally near. *)
Definition roundDiv (n d : Z) : Z :=
  let q := (n / d)%Z in
  match (2 * (n mod d) ?= d)%Z with
  | Lt => q
  | Gt => (q + 1)%Z
  | Eq => if Z.even q then q else (q + 1)%Z
  end.

(** The double nearest to a rational, ties to even: 53 significant bits,
    gradual underflow below [2^-1022], an infinity from [2^1024] on. *)
Definition toDouble (q : Q) : jsnum :=
  let n := Z.abs (Qnum q) in
  let d := Zpos (Qden q) in
  if (n =? 0)%Z then Fin 0
  else
    let k := (Z.max (binade n d) (-1022) - 52)%Z in
    let m :=
      if (0 <=? k)%Z then roundDiv n (d * 2 ^ k) else roundDiv (n * 2 ^ (- k)) d in
    if (0 <=? k)%Z && (2 ^ 1024 <=? m * 2 ^ k)%Z
    then (if (0 <? Qnum q)%Z then PosInf else NegInf)
    else
      let r :=
        if (0 <=? k)%Z then inject_Z (m * 2 ^ k)
        else Qmake m (Z.to_pos (2 ^ (- k))) in
      Fin (Qred (if (0 <? Qnum q)%Z then r else Qopp r)).

(** [a - b] on two numbers. *)
Definition num_sub (a b : jsnum) : jsnum :=
  match a, b with
  | NaN, _ | _, NaN => NaN
  | PosInf, PosInf | NegInf, NegInf => NaN
  | PosInf, _ | _, NegInf => PosInf
  | NegInf, _ | _, PosInf => NegInf
  | Fin x, Fin y => toDouble (x - y)
  end.

(** The sign of a number that has one: [true] for a positive one. *)
Definition sign_pos (a : jsnum) : option bool :=
  match a with
  | NaN => None
  | PosInf => Some true
  | NegInf => Some false
  | Fin x => if (Qnum x =? 0)%Z then None else Some (0 <? Qnum x)%Z
  end.

(** [a * b] on two numbers: an infinity times zero is [NaN]. *)
Definition num_mul (a b : jsnum) : jsnum :=
  match a, b with
  | Fin x, Fin y => toDouble (x * y)
  | _, _ =>
      match sign_pos a, sign_pos b with
      | Some s, Some t => if Bool.eqb s t then PosInf else NegInf
      | _, _ => NaN
      end
  end.

(** [o[k]] on a plain object whose key is not inherited. *)
Fixpoint obj_get (o : obj) (k : string) : value :=
  match o with
  | [] => VUndefined
  | (k', v) :: rest => if String.eqb k' k then v else obj_get rest k
  end.

(** [o[k] = v]: an existing key keeps its place, a new one goes last. *)
Fixpoint obj_set (k : string) (v : value) (o : obj) : obj :=
  match o with
  | [] => [(k, v)]
  | (k', v') :: rest =>
      if String.eqb k' k then (k, v) :: rest else (k', v') :: obj_set k v rest
  end.

(** [delete o[k]]. *)
Fixpoint obj_delete (k : string) (o : obj) : obj :=
  match o with
  | [] => []
  | (k', v') :: rest =>
      if String.eqb k' k then obj_delete k rest else (k', v') :: obj_delete k rest
  end.

(** [Object.keys(o)]. *)
Definition obj_keys (o : obj) : list string := map fst o.

(** [k in own keys of o]. *)
Definition obj_has (o : obj) (k : string) : bool :=
  existsb (String.eqb k) (obj_keys o).

(** ** Strings *)

Definition nl : string := String (ascii_of_nat 10) "".

(** Decimal rendering of a count, as a template literal does it. *)
Definition decimal (n : nat) : string := NilZero.string_of_uint (Nat.to_uint n).

(** White space of [String.prototype.trim] and of [\s], below code unit 256. *)
Definition is_space (c : ascii) : bool :=
  let n := nat_of_ascii c in
  (Nat.leb 9 n && Nat.leb n 13) || Nat.eqb n 32 || Nat.eqb n 160.

(** [\w]: letters, digits and the underscore (the [i] flag adds nothing). *)
Definition is_word (c : ascii) : bool :=
  let n := nat_of_ascii c in
  (Nat.leb 48 n && Nat.leb n 57) || (Nat.leb 65 n && Nat.leb n 90)
  || (Nat.leb 97 n && Nat.leb n 122) || Nat.eqb n 95.

(** [s.split(sep)] for a one-character separator. *)
Fixpoint split (sep : ascii) (s : string) : list string :=
  match s with
  | EmptyString => [EmptyString]
  | String c rest =>
      if Ascii.eqb c sep then EmptyString :: split sep rest
      else match split sep rest with
           | w :: ws => String c w :: ws
           | [] => [String c EmptyString]
           end
  end.

Fixpoint trimStart (s : string) : string :=
  match s with
  | EmptyString => EmptyString
  | String c rest => if is_space c then trimStart rest else s
  end.

Fixpoint trimEnd (s : string) : string :=
  match s with
  | EmptyString => EmptyString
  | String c rest =>
      match trimEnd rest with
      | EmptyString => if is_space c then EmptyString else String c EmptyString
      | kept => String c kept
      end
  end.

(** [s.trim()]. *)
Definition trim (s : string) : string := trimEnd (trimStart s).

(** [word.replace(/[^\w\s]/gi, '')]. *)
Fixpoint strip_symbols (s : string) : string :=
  match s with
  | EmptyString => EmptyString
  | String c rest =>
      if is_word c || is_space c then String c (strip_symbols rest)
      else strip_symbols rest
  end.

(** [words.join(sep)]. *)
Fixpoint join (sep : string) (words : list string) : string :=
  match words with
  | [] => EmptyString
  | [w] => w
  | w :: ws => w +:+ sep +:+ join sep ws
  end.

(** The sanitizer of [searchTrails], lines 81-85. *)
Definition sanitizedSearchTerm (searchTerm : string) : string :=
  join " & "
    (map strip_symbols
       (List.filter (fun word => negb (String.eqb (trim word) ""))
          (split " "%char searchTerm))).

(** ** The parameter binder *)

Record binder : Type := Binder { params : list value; paramCount : nat }.

Definition no_params : binder := {| params := []; paramCount := 0 |}.

(** [addParam(param)]: push, count, and hand back the index of the token
    [$paramCount]. *)
Definition addParam (param : value) (b : binder) : nat * binder :=
  let b' := {| params := params b ++ [param]; paramCount := S (paramCount b) |} in
  (paramCount b', b').

(** The token text [`$${paramCount}`]. *)
Definition placeholder (p : nat) : string := "$" +:+ decimal p.

(** ** Predicate fragments

    Every [whereClause += ...] of the program appends one of these; [render]
    gives the text the template literal produces, with the token of each
    bound parameter spliced in. *)

Inductive fragment : Type :=
| TextSearch (p : nat)
| FeaturesAll (p : nat) (len : nat)
| DifficultyAny (p : nat)
| TypeAny (p : nat)
| Between (col : string) (lo hi : nat)
| Compare (col : string) (op : string) (p : nat)
| Equals (col : string) (p : nat)
| EqualsLower (col : string) (p : nat).

Definition render (f : fragment) : string :=
  match f with
  | TextSearch p =>
      " AND to_tsvector('english', t.name || ' ' || t.city || ' ' || t.state) @@ to_tsquery('english', "
      +:+ placeholder p +:+ ") "
  | FeaturesAll p len =>
      nl +:+
      "                        AND t.id IN (" +:+ nl +:+
      "                            SELECT tf.trail_id" +:+ nl +:+
      "                            FROM trail_features tf" +:+ nl +:+
      "                            JOIN features f ON tf.feature_id = f.id" +:+ nl +:+
      "                            WHERE f.feature_name = ANY(" +:+ placeholder p +:+ "::text[])" +:+ nl +:+
      "                            GROUP BY tf.trail_id" +:+ nl +:+
      "                            HAVING COUNT(DISTINCT LOWER(f.feature_name)) = " +:+ decimal len +:+ nl +:+
      "                        ) "
  | DifficultyAny p =>
      nl +:+
      "                        AND t.difficulty = ANY(" +:+ placeholder p +:+ "::text[])" +:+ nl +:+
      "                    "
  | TypeAny p =>
      nl +:+
      "                        AND ts.type = ANY(" +:+ placeholder p +:+ "::text[])" +:+ nl +:+
      "                    "
  | Between col lo hi =>
      " AND " +:+ col +:+ " BETWEEN " +:+ placeholder lo +:+ " AND " +:+ placeholder hi +:+ " "
  | Compare col op p =>
      " AND " +:+ col +:+ " " +:+ op +:+ " " +:+ placeholder p +:+ " "
  | Equals col p =>
      "AND " +:+ col +:+ " = " +:+ placeholder p
  | EqualsLower col p =>
      "AND LOWER (" +:+ col +:+ ") = " +:+ placeholder p
  end.

(** The tokens a fragment carries, in the order they occur in its text. *)
Definition tokens (f : fragment) : list nat :=
  match f with
  | TextSearch p | FeaturesAll p _ | DifficultyAny p | TypeAny p => [p]
  | Between _ lo hi => [lo; hi]
  | Compare _ _ p | Equals _ p | EqualsLower _ p => [p]
  end.

(** [whereClause]: the fixed always-true head and the appended fragments. *)
Definition whereText (whereClause : list fragment) : string :=
  " WHERE 1=1 " +:+ String.concat "" (map render whereClause).

(** [baseQuery], lines 69-76. *)
Definition baseQuery : string :=
  nl +:+
  "            SELECT DISTINCT" +:+ nl +:+
  "                t.id" +:+ nl +:+
  "            FROM trails t" +:+ nl +:+
  "            LEFT JOIN trail_features tf ON t.id = tf.trail_id" +:+ nl +:+
  "            LEFT JOIN features f ON tf.feature_id = f.id" +:+ nl +:+
  "            LEFT JOIN trail_stats ts ON t.id = ts.trail_id" +:+ nl +:+
  "        ".

(** The text of [countQuery] before the spliced WHERE clause, lines 137-141. *)
Definition countHead : string :=
  "SELECT COUNT(DISTINCT t.id) AS total_count FROM trails t " +:+ nl +:+
  "            LEFT JOIN trail_features tf ON t.id = tf.trail_id " +:+ nl +:+
  "            LEFT JOIN features f ON tf.feature_id = f.id " +:+ nl +:+
  "            LEFT JOIN trail_stats ts ON t.id = ts.trail_id " +:+ nl +:+
  "            ".

(** A statement handed to the query engine: its head, the WHERE fragments
    and, for the id fetch, the two paging tokens. *)
Record statement : Type := Statement {
  head : string;
  whereClause : list fragment;
  paging : option (nat * nat)
}.

Definition sql (s : statement) : string :=
  head s +:+ whereText (whereClause s) +:+
  match paging s with
  | Some (limitParam, offsetParam) =>
      " LIMIT " +:+ placeholder limitParam +:+ " OFFSET " +:+ placeholder offsetParam
  | None => ""
  end.

Definition statement_tokens (s : statement) : list nat :=
  concat (map tokens (whereClause s)) ++
  match paging s with
  | Some (limitParam, offsetParam) => [limitParam; offsetParam]
  | None => []
  end.

(** ** Errors, completions and observable events *)

Inductive js_error : Type :=
| PlainError (message : string)
| TypeError
| External (name message : string).

Inductive completion (A : Type) : Type :=
| Normal (a : A)
| Throw (e : js_error).
Arguments Normal {A} a.
Arguments Throw {A} e.

Definition bind {A B : Type} (c : completion A) (k : A -> completion B) : completion B :=
  match c with
  | Normal a => k a
  | Throw e => Throw e
  end.

Definition completes {A : Type} (c : completion A) : bool :=
  match c with Normal _ => true | Throw _ => false end.

Inductive event : Type :=
| Query (s : statement) (ps : list value)
| Hydrate (ids : list jsnum) (userId : value)
| ConsoleError (e : js_error)
| Release.

Definition is_query (ev : event) : bool :=
  match ev with Query _ _ => true | _ => false end.


(** The page [searchTrails] resolves to. *)
Record search_page : Type := SearchPage { totalCount : value; trails : value }.

(** The composition state: the binder closed over by [addParam], the WHERE
    fragments so far, and the caller's filter object, which the distance
    builder mutates. *)
Record scope : Type := Scope {
  bound : binder;
  clause : list fragment;
  filters : obj
}.

Definition emit (f : fragment) (b : binder) (o : obj) (sc : scope) : scope :=
  {| bound := b; clause := clause sc ++ [f]; filters := o |}.

Definition searchError : js_error := PlainError "Error executing search query".
Definition featuresError : js_error := PlainError "Features filter must be an array".
Definition filterKeyError (key : string) : js_error :=
  PlainError ("Invalid filter key: " +:+ key).

Definition distanceKeys : list string := ["minDistance"; "maxDistance"].
Definition elevationKeys : list string :=
  ["minElevation"; "maxElevation"; "minElevationLoss"; "maxElevationLoss";
   "minElevationGain"; "maxElevationGain"].

(** The keys [searchTrails] dispatches by name; every other key goes through
    the lookup table. *)
Definition structuredKeys : list string :=
  ["features"; "difficulty"; "type"] ++ distanceKeys ++ elevationKeys.

(** [keys.includes(key)]. *)
Definition includes (keys : list string) (key : string) : bool :=
  existsb (String.eqb key) keys.

(** ** The program *)

(** An integer as a script number. *)
Definition num (z : Z) : value := VNum (Fin (inject_Z z)).

(** A parameter default, [p = d] in the signature: taken when the argument
    is undefined. *)
Definition orDefault (d v : value) : value :=
  match v with VUndefined => d | _ => v end.

Inductive query_outcome : Type :=
| QRows (rows : list obj)
| QFail (e : js_error).

Section Program.

(** The script engine's [v > w] on arbitrary values: the outcome of the
    comparison, or the type error of an operand that has no primitive value. *)
Variable js_gt : value -> value -> completion bool.
(** The script engine's [Number(v)], with the same type error. *)
Variable ToNumber : value -> completion jsnum.
(** [jsToSqlFilters] of [helpers/objectMaps]: filter key to column text. *)
Variable jsToSqlFilters : gmap string string.
(** [pool.connect()]: a connection, or the rejection it raises. *)
Variable pool_connect : completion unit.
(** [db.query(text, params)]. *)
Variable db_query : string -> list value -> query_outcome.
(** [Trail.getFullTrailsByIds(ids, userId)]. *)
Variable getFullTrailsByIds : list jsnum -> value -> completion value.

(** [jsToSqlFilters.get(k)] as the program tests it: a missing entry and an
    empty text are both falsy. *)
Definition sqlKey (k : string) : option string :=
  match jsToSqlFilters !! k with
  | Some col => if String.eqb col "" then None else Some col
  | None => None
  end.

(** [addElevationFilters], lines 180-194. *)
Definition addElevationFilters (key : string) (o : obj) (b : binder) (unit : string)
  : completion (fragment * binder) :=
  let elevType := if String.prefix "min" key then "min" else "max" in
  let filterParam := if String.eqb elevType "min" then ">" else "<" in
  let currentKey := key +:+ unit in
  match sqlKey currentKey with
  | None => Throw (filterKeyError key)
  | Some currentSqlKey =>
      let '(currentParam, b1) := addParam (obj_get o key) b in
      Normal (Compare currentSqlKey (filterParam +:+ "=") currentParam, b1)
  end.

(** [addDistanceFilters], lines 198-233. *)
Definition addDistanceFilters (key : string) (o : obj) (b : binder) (unit : string)
  : completion (fragment * obj * binder) :=
  let distType := if String.prefix "min" key then "min" else "max" in
  let currentKey := distType +:+ "Distance" +:+ unit in
  let nextKey :=
    if String.eqb distType "min" then "maxDistance" +:+ unit
    else "minDistance" +:+ unit in
  let noUnitCurKey := String.substring 0 11 currentKey in
  let noUnitNextKey := String.substring 0 11 nextKey in
  match sqlKey currentKey, sqlKey nextKey with
  | Some currentSqlKey, Some nextSqlKey =>
      if truthy (obj_get o nextKey) then
        bind (js_gt (obj_get o noUnitCurKey) (obj_get o noUnitNextKey))
          (fun greater : bool =>
             let o1 :=
               if greater then
                 obj_set noUnitNextKey (obj_get o noUnitCurKey)
                   (obj_set noUnitCurKey (obj_get o noUnitNextKey) o)
               else o in
             let '(currentParam, b1) := addParam (obj_get o1 noUnitCurKey) b in
             let '(nextParam, b2) := addParam (obj_get o1 noUnitNextKey) b1 in
             let o2 := obj_delete noUnitNextKey (obj_delete noUnitCurKey o1) in
             Normal (Between currentSqlKey currentParam nextParam, o2, b2))
      else
        let '(currentParam, b1) := addParam (obj_get o noUnitCurKey) b in
        let o1 := obj_delete noUnitCurKey o in
        Normal (if String.eqb distType "min"
                then Compare currentSqlKey ">=" currentParam
                else Compare nextSqlKey "<=" currentParam, o1, b1)
  | _, _ => Throw (filterKeyError key)
  end.

(** The text predicate, lines 80-90. A truthy term that is not a string
    has no [split]. *)
Definition searchTermStep (searchTerm : value) (sc : scope) : completion scope :=
  if truthy searchTerm then
    match searchTerm with
    | VStr s =>
        let '(searchParam, b1) :=
          addParam (VStr ("%" +:+ sanitizedSearchTerm s +:+ "%")) (bound sc) in
        Normal (emit (TextSearch searchParam) b1 (filters sc) sc)
    | _ => Throw TypeError
    end
  else Normal sc.

(** One turn of the loop over [Object.keys(filters)], lines 94-133. *)
Definition filterStep (unit key : string) (sc : scope) : completion scope :=
  let o := filters sc in
  let b := bound sc in
  if String.eqb key "features" then
    match obj_get o "features" with
    | VArr items =>
        let '(featuresParam, b1) := addParam (VArr items) b in
        Normal (emit (FeaturesAll featuresParam (length items)) b1 o sc)
    | _ => Throw featuresError
    end
  else if String.eqb key "difficulty" then
    let '(difficultyParam, b1) := addParam (obj_get o "difficulty") b in
    Normal (emit (DifficultyAny difficultyParam) b1 o sc)
  else if String.eqb key "type" then
    let '(typeParam, b1) := addParam (obj_get o "type") b in
    Normal (emit (TypeAny typeParam) b1 o sc)
  else if includes distanceKeys key then
    if negb (truthy (obj_get o key)) then Normal sc
    else
      bind (addDistanceFilters key o b unit)
        (fun '(f, o1, b1) => Normal (emit f b1 o1 sc))
  else if includes elevationKeys key then
    if negb (truthy (obj_get o key)) then Normal sc
    else
      bind (addElevationFilters key o b unit)
        (fun '(f, b1) => Normal (emit f b1 o sc))
  else
    match sqlKey key with
    | Some col =>
        let '(paramNum, b1) := addParam (obj_get o key) b in
        bind (ToNumber (obj_get o key))
          (fun n =>
             if num_neq n NaN
             then Normal (emit (Equals col paramNum) b1 o sc)
             else Normal (emit (EqualsLower col paramNum) b1 o sc))
    | None => Normal sc
    end.

(** The loop itself: the keys are listed once, before the first turn. *)
Fixpoint filterLoop (unit : string) (keys : list string) (sc : scope)
  : completion scope :=
  match keys with
  | [] => Normal sc
  | key :: rest => bind (filterStep unit key sc) (filterLoop unit rest)
  end.

(** Predicate composition, lines 60-135. [None] is a null or absent
    [filters] argument. *)
Definition compose (searchTerm : value) (fs : option obj) (unit : string)
  : completion scope :=
  let sc0 := {| bound := no_params; clause := []; filters := default [] fs |} in
  bind (searchTermStep searchTerm sc0)
    (fun sc1 =>
       match fs with
       | Some o => filterLoop unit (obj_keys o) sc1
       | None => Normal sc1
       end).

(** [countQuery] and [finalQuery], lines 137-150, as statements. *)
Definition countQuery (sc : scope) : statement :=
  {| head := countHead; whereClause := clause sc; paging := None |}.

Definition finalQuery (sc : scope) (limitParam offsetParam : nat) : statement :=
  {| head := baseQuery; whereClause := clause sc;
     paging := Some (limitParam, offsetParam) |}.

(** [(page - 1) * limit], line 59: both operands go through the engine's
    conversion to a number, the arithmetic is that of doubles. *)
Definition offsetOf (page limit : value) : completion jsnum :=
  bind (ToNumber page)
    (fun p =>
       bind (ToNumber limit)
         (fun l => Normal (num_mul (num_sub p (Fin 1)) l))).

(** [result.rows.map(row => Number(row.id))], line 156. *)
Fixpoint rowIds (rows : list obj) : completion (list jsnum) :=
  match rows with
  | [] => Normal []
  | row :: rest =>
      bind (ToNumber (obj_get row "id"))
        (fun id => bind (rowIds rest) (fun ids => Normal (id :: ids)))
  end.

(** The body of the [try] block, lines 59-166, with the events it causes. *)
Definition searchBody (searchTerm page limit : value) (fs : option obj)
    (userId : value) (unit : string) : completion search_page * list event :=
  match offsetOf page limit with
  | Throw e => (Throw e, [])
  | Normal offset =>
      match compose searchTerm fs unit with
      | Throw e => (Throw e, [])
      | Normal sc =>
          let ev1 := Query (countQuery sc) (params (bound sc)) in
          match db_query (sql (countQuery sc)) (params (bound sc)) with
          | QFail e => (Throw e, [ev1])
          | QRows [] => (Throw TypeError, [ev1])
          | QRows (first :: _) =>
              let total := obj_get first "total_count" in
              let '(limitParam, b1) := addParam limit (bound sc) in
              let '(offsetParam, b2) := addParam (VNum offset) b1 in
              let ev2 := Query (finalQuery sc limitParam offsetParam) (params b2) in
              match db_query (sql (finalQuery sc limitParam offsetParam)) (params b2) with
              | QFail e => (Throw e, [ev1; ev2])
              | QRows rows =>
                  if Nat.ltb 0 (length rows) then
                    match rowIds rows with
                    | Throw e => (Throw e, [ev1; ev2])
                    | Normal ids =>
                        let ev3 := Hydrate ids userId in
                        match getFullTrailsByIds ids userId with
                        | Throw e => (Throw e, [ev1; ev2; ev3])
                        | Normal found =>
                            (Normal {| totalCount := total; trails := found |},
                             [ev1; ev2; ev3])
                        end
                    end
                  else
                    (Normal {| totalCount := total; trails := VArr [] |}, [ev1; ev2])
              end
          end
      end
  end.

(** [searchTrails], lines 55-174. An undefined [page] or [limit] and an
    absent [unit] take their defaults; the connection is acquired before the
    [try], so a rejected [connect] escapes as it is. *)
Definition searchTrails (searchTerm page limit : value)
    (fs : option obj) (userId : value) (unit : option string)
  : completion search_page * list event :=
  match pool_connect with
  | Throw e => (Throw e, [])
  | Normal _ =>
      match searchBody searchTerm (orDefault (num 1) page) (orDefault (num 10) limit)
              fs userId (default "Imperial" unit) with
      | (Normal found, evs) => (Normal found, evs ++ [Release])
      | (Throw e, evs) => (Throw searchError, evs ++ [ConsoleError e; Release])
      end
  end.

End Program.

(** ** What the features subquery selects

    The emitted fragment keeps the trails [t] of
    [SELECT tf.trail_id FROM trail_features tf JOIN features f ...
     WHERE f.feature_name = ANY(wanted) GROUP BY tf.trail_id
     HAVING COUNT(DISTINCT LOWER(f.feature_name)) = len].
    [joined] is the join of the two tables as pairs of a trail id and a
    feature name; [lower] is the engine's [LOWER]. *)

Definition matchingNames (joined : list (Z * string)) (wanted : list string) (t : Z)
  : list string :=
  map snd
    (List.filter (fun r => Z.eqb (fst r) t && existsb (String.eqb (snd r)) wanted)
       joined).

Definition featuresSubquery (lower : string -> string) (joined : list (Z * string))
    (wanted : list string) (len : nat) (t : Z) : bool :=
  match matchingNames joined wanted t with
  | [] => false
  | names => Nat.eqb (length (nodup String.string_dec (map lower names))) len
  end.

(** ASCII lower-casing, the reading of [LOWER] used on concrete inputs. *)
Definition lower_char (c : ascii) : ascii :=
  let n := nat_of_ascii c in
  if Nat.leb 65 n && Nat.leb n 90 then ascii_of_nat (n + 32) else c.

Fixpoint lowerText (s : string) : string :=
  match s with
  | EmptyString => EmptyString
  | String c rest => String (lower_char c) (lowerText rest)
  end.

(** ** Concrete collaborators for running the program

    The theorems below hold for every engine, table and collaborator; the
    ones here serve to evaluate the program on concrete inputs. *)

(** Decimal digits read as an integer. *)
Fixpoint digitsValue (s : string) (acc : Z) : option Z :=
  match s with
  | EmptyString => Some acc
  | String c rest =>
      let n := nat_of_ascii c in
      if Nat.leb 48 n && Nat.leb n 57
      then digitsValue rest (10 * acc + Z.of_nat (n - 48))%Z
      else None
  end.

(** [Number] on the primitives the runs below pass: a number, null, a
    boolean, undefined, and a text that is blank, made of decimal digits (as
    the routes pass [page] and [limit]) or not numeric at all. The other
    numeric literals (sign, fraction, exponent, radix prefix) are not read,
    and no run passes one. *)
Definition sampleToNumber (v : value) : jsnum :=
  match v with
  | VNum n => n
  | VNull => Fin 0
  | VBool b => Fin (if b then 1 else 0)
  | VStr s =>
      match digitsValue (trim s) 0 with
      | Some z => toDouble (inject_Z z)
      | None => NaN
      end
  | _ => NaN
  end.

(** An object with an own [toString] field has no primitive value: no field
    of this embedding is a function, so neither [valueOf] (own, or the
    inherited one, which answers the object itself) nor [toString] yields a
    primitive. *)
Definition hasNoPrimitive (v : value) : bool :=
  match v with
  | VObj o => obj_has o "toString"
  | _ => false
  end.

(** [Number] and [>] with their type error. On the other objects [Number]
    is [NaN], as it is for a plain object; the runs below pass no array and
    compare no two texts. *)
Definition sampleNumber (v : value) : completion jsnum :=
  if hasNoPrimitive v then Throw TypeError else Normal (sampleToNumber v).

Definition sampleGt (v w : value) : completion bool :=
  if hasNoPrimitive v || hasNoPrimitive w then Throw TypeError
  else
    Normal
      match sampleToNumber v, sampleToNumber w with
      | Fin x, Fin y => negb (Qle_bool x y)
      | PosInf, (Fin _ | NegInf) => true
      | Fin _, NegInf => true
      | _, _ => false
      end.

(** Modelled from the spec: [helpers/objectMaps] is missing from the sources;
    the spec describes its table as a static mapping from client-facing
    filter key to storage column expression, unit-qualified for the distance
    and elevation fields. The column texts are placeholders of that shape. *)
Definition sampleFilters : gmap string string :=
  list_to_map
    [("city", "t.city"); ("state", "t.state"); ("dogsAllowed", "t.dogs_allowed");
     ("minDistanceImperial", "ts.distance_imperial");
     ("maxDistanceImperial", "ts.distance_imperial");
     ("minDistanceMetric", "ts.distance_metric");
     ("maxDistanceMetric", "ts.distance_metric");
     ("minElevationImperial", "ts.elevation_low_imperial");
     ("maxElevationImperial", "ts.elevation_high_imperial");
     ("minElevationGainImperial", "ts.elevation_gain_imperial");
     ("maxElevationGainImperial", "ts.elevation_gain_imperial");
     ("minElevationLossImperial", "ts.elevation_loss_imperial");
     ("maxElevationLossImperial", "ts.elevation_loss_imperial")].

(** A query engine that counts seven matches and finds no row on the page,
    one that finds two, and one whose every query fails. *)
Definition emptyPageDb (text : string) (ps : list value) : query_outcome :=
  if String.prefix "SELECT COUNT" text
  then QRows [[("total_count", VStr "7")]]
  else QRows [].

Definition twoRowDb (text : string) (ps : list value) : query_outcome :=
  if String.prefix "SELECT COUNT" text
  then QRows [[("total_count", VStr "7")]]
  else QRows [[("id", num 4)]; [("id", num 9)]].

Definition failingDb (text : string) (ps : list value) : query_outcome :=
  QFail (External "error" "syntax error in tsquery").

Definition sampleHydrate (ids : list jsnum) (userId : value) : completion value :=
  Normal (VArr (map (fun n => VObj [("id", VNum n)]) ids)).

Definition connected : completion unit := Normal tt.

Definition clauseOf (c : completion scope) : list fragment :=
  match c with Normal sc => clause sc | Throw _ => [] end.

Definition paramsOf (c : completion scope) : list value :=
  match c with Normal sc => params (bound sc) | Throw _ => [] end.

Definition filtersOf (c : completion scope) : obj :=
  match c with Normal sc => filters sc | Throw _ => [] end.

(** [addParam] over a sequence of values, returning the tokens in call order. *)
Fixpoint addParams (vs : list value) (b : binder) : list nat * binder :=
  match vs with
  | [] => ([], b)
  | v :: rest =>
      let '(p, b1) := addParam v b in
      let '(ps, b2) := addParams rest b1 in
      (p :: ps, b2)
  end.

(** ** Notions used in the statements *)

(** The starting scope of a composition over the filter object [o]. *)
Definition start (o : obj) : scope :=
  {| bound := no_params; clause := []; filters := o |}.

Definition is_text (f : fragment) : bool :=
  match f with TextSearch _ => true | _ => false end.

Definition inclusive (key : string) : string :=
  if String.prefix "min" key then ">=" else "<=".

(** [nextKey] of [addDistanceFilters]: the opposite bound, unit-qualified. *)
Definition pairedKey (key unit : string) : string :=
  (if String.prefix "min" key then "maxDistance" else "minDistance") +:+ unit.

(** [noUnitNextKey] of [addDistanceFilters]: the opposite bound, bare. *)
Definition oppositeKey (key : string) : string :=
  if String.prefix "min" key then "maxDistance" else "minDistance".

(** The destructuring swap of line 214. *)
Definition swapped (key : string) (o : obj) : obj :=
  obj_set (oppositeKey key) (obj_get o key)
    (obj_set key (obj_get o (oppositeKey key)) o).

(** The binder and the fragments agree: the count is the length of the
    parameter list, and the tokens spliced so far are [$1 .. $paramCount] in
    order. *)
Definition aligned (sc : scope) : Prop :=
  paramCount (bound sc) = length (params (bound sc)) /\
  concat (map tokens (clause sc)) = seq 1 (paramCount (bound sc)).

(** ** Notions used in the further properties *)

(** A predicate on every code unit of a string. *)
Fixpoint all_chars (p : ascii -> bool) (s : string) : bool :=
  match s with
  | EmptyString => true
  | String c rest => p c && all_chars p rest
  end.

(** The code units the sanitizer can leave in its expression. *)
Definition sanitized_char (c : ascii) : bool :=
  is_word c || is_space c || Ascii.eqb c "&".

(** A key whose turn of the loop changes nothing: one outside the structured
    keys with no truthy lookup entry, or a range key whose value is falsy. *)
Definition ignoredKey (table : gmap string string) (o : obj) (key : string) : Prop :=
  (includes structuredKeys key = false /\ sqlKey table key = None) \/
  ((In key distanceKeys \/ In key elevationKeys) /\ truthy (obj_get o key) = false).

(** The lookup table resolves every range key of a unit. *)
Definition rangeColumns (table : gmap string string) (unit : string) : Prop :=
  sqlKey table ("minDistance" +:+ unit) <> None /\
  sqlKey table ("maxDistance" +:+ unit) <> None /\
  forall key, In key elevationKeys -> sqlKey table (key +:+ unit) <> None.

Definition is_release (ev : event) : bool :=
  match ev with Release => true | _ => false end.

Definition is_lower (f : fragment) : bool :=
  match f with EqualsLower _ _ => true | _ => false end.

(** ** Reading the tokens back from a statement text *)

(** A text without the [$] that opens a parameter token. *)
Definition no_dollar (s : string) : bool :=
  all_chars (fun c => negb (Ascii.eqb c "$")) s.

Definition digit_of (c : ascii) : option nat :=
  let n := nat_of_ascii c in
  if Nat.leb 48 n && Nat.leb n 57 then Some (n - 48) else None.

(** The parameter tokens of a text, in the order they occur: every [$] with
    the decimal number that follows it, [0] when no digit does. [cur] is the
    token being read. *)
Fixpoint scanTokens (text : string) (cur : option nat) : list nat :=
  match text with
  | EmptyString =>
      match cur with Some n => [n] | None => [] end
  | String c rest =>
      if Ascii.eqb c "$" then
        match cur with
        | Some n => n :: scanTokens rest (Some 0)
        | None => scanTokens rest (Some 0)
        end
      else
        match cur with
        | Some n =>
            match digit_of c with
            | Some d => scanTokens rest (Some (10 * n + d))
            | None => n :: scanTokens rest None
            end
        | None => scanTokens rest None
        end
  end.

Definition placeholdersOf (text : string) : list nat := scanTokens text None.

(** A text that does not go on with a digit. *)
Definition starts_plain (t : string) : bool :=
  match t with
  | EmptyString => true
  | String c _ => match digit_of c with Some _ => false | None => true end
  end.

(** A fragment whose column and operator texts hold no [$]. *)
Definition plain_fragment (f : fragment) : bool :=
  match f with
  | Between col _ _ | Equals col _ | EqualsLower col _ => no_dollar col
  | Compare col op _ => no_dollar col && no_dollar op
  | _ => true
  end.

(** A lookup table whose column texts hold no [$]. *)
Definition plain_table (table : gmap string string) : Prop :=
  forall k col, table !! k = Some col -> no_dollar col = true.

(** ** Notions for the whole loop *)

(** A value that is its own primitive value: [Number] and [>] convert it
    without calling into it. *)
Definition isPrimitive (v : value) : bool :=
  match v with VArr _ | VObj _ => false | _ => true end.

(** A bare distance key followed by a non-empty unit suffix. *)
Definition qualifiedDistanceKey (key : string) : Prop :=
  exists bare suffix, In bare distanceKeys /\ suffix <> "" /\ key = bare +:+ suffix.

(** The columns the lookup table has for the keys, in key order, with the
    value the filter object holds under each. *)
Fixpoint columnsOf (table : gmap string string) (o : obj) (keys : list string)
  : list (string * value) :=
  match keys with
  | [] => []
  | key :: rest =>
      match sqlKey table key with
      | Some col => (col, obj_get o key) :: columnsOf table o rest
      | None => columnsOf table o rest
      end
  end.

(** Plain equalities on the columns, with the tokens that follow [$n]. *)
Fixpoint equalities (n : nat) (cols : list string) : list fragment :=
  match cols with
  | [] => []
  | col :: rest => Equals col (S n) :: equalities (S n) rest
  end.

(** The filter object [f] is [o] with some fields deleted. *)
Definition thinned (o f : obj) : Prop :=
  forall k, obj_get f k = obj_get o k \/ obj_get f k = VUndefined.

(** The filter object holds a bare distance key and the unit-qualified
    opposite key, both with truthy values. *)
Definition bothBounds (o : obj) (unit : string) : Prop :=
  exists key,
    In key distanceKeys /\
    truthy (obj_get o key) = true /\
    truthy (obj_get o (pairedKey key unit)) = true /\
    obj_has o key = true /\
    obj_has o (pairedKey key unit) = true.

(** The scope a run of equalities leaves: the columns' values bound after
    the parameters of [sc], their equalities appended to its clause. *)
Definition withEqualities (sc : scope) (cols : list (string * value)) : scope :=
  {| bound := {| params := params (bound sc) ++ map snd cols;
                 paramCount := paramCount (bound sc) + length cols |};
     clause := clause sc ++ equalities (paramCount (bound sc)) (map fst cols);
     filters := filters sc |}.

(** ** The trail model: [models/Trail.js] and the list readers of
    [models/User.js]

    The error classes are those of [expressError]: subclasses of one class
    that stores the message it is given. An instance is an [External] error
    carrying the class name, and [instanceof] compares that name. Every
    function acquires its own
    connection; a query is observed with its text and parameters. *)

Definition dq : string := String (ascii_of_nat 34) EmptyString.

Definition NotFoundError (message : string) : js_error :=
  External "NotFoundError" message.
Definition BadRequestError (message : string) : js_error :=
  External "BadRequestError" message.
Definition DatabaseError (message : string) : js_error :=
  External "DatabaseError" message.

(** [e instanceof cls]. *)
Definition instanceOf (cls : string) (e : js_error) : bool :=
  match e with
  | External name _ => String.eqb name cls
  | _ => false
  end.

(** [isNaN(n)] on a number. *)
Definition isNaN (n : jsnum) : bool :=
  match n with NaN => true | _ => false end.

(** SameValueZero, the key equality of [Map] and of [Array.prototype.includes].
    Objects and arrays are compared by identity; the ones met here come from
    different rows, so they are never the same. *)
Definition sameValueZero (v w : value) : bool :=
  match v, w with
  | VUndefined, VUndefined | VNull, VNull => true
  | VBool a, VBool b => Bool.eqb a b
  | VNum NaN, VNum NaN | VNum PosInf, VNum PosInf | VNum NegInf, VNum NegInf => true
  | VNum (Fin x), VNum (Fin y) => Qeq_bool x y
  | VStr s, VStr t => String.eqb s t
  | _, _ => false
  end.

(** A [Map]: entries in insertion order, one per key. *)
Definition jsmap : Type := list (value * value).

Fixpoint map_set (k v : value) (m : jsmap) : jsmap :=
  match m with
  | [] => [(k, v)]
  | (k', v') :: rest =>
      if sameValueZero k' k then (k', v) :: rest else (k', v') :: map_set k v rest
  end.

(** [new Map(entries)]. *)
Definition newMap (entries : list (value * value)) : jsmap :=
  fold_left (fun m kv => map_set (fst kv) (snd kv) m) entries [].

(** [m.get(k)]. *)
Fixpoint map_get (m : jsmap) (k : value) : value :=
  match m with
  | [] => VUndefined
  | (k', v) :: rest => if sameValueZero k' k then v else map_get rest k
  end.

(** [list.includes(v)]. *)
Definition arr_includes (l : list value) (v : value) : bool :=
  existsb (fun w => sameValueZero w v) l.

(** [v || d]. *)
Definition js_or (v d : value) : value := if truthy v then v else d.

(** [delete v[k]] on a value that is neither null nor undefined. *)
Definition delete_prop (k : string) (v : value) : value :=
  match v with
  | VObj o => VObj (obj_delete k o)
  | _ => v
  end.

(** [v[k]] for a key that no built-in object carries: a type error on null
    and undefined, the own field of an object, undefined elsewhere. *)
Definition get_prop (v : value) (k : string) : completion value :=
  match v with
  | VUndefined | VNull => Throw TypeError
  | VObj o => Normal (obj_get o k)
  | _ => Normal VUndefined
  end.

(** What a function of the trail model lets the outside see. *)
Inductive io : Type :=
| IoQuery (text : string) (ps : list value)
| IoCall (fn : string)
| IoLog (label : option string) (e : js_error)
| IoRelease.

Definition is_io_query (ev : io) : bool :=
  match ev with IoQuery _ _ => true | _ => false end.

Definition is_io_call (ev : io) : bool :=
  match ev with IoCall _ => true | _ => false end.

(** The rejections among the settled promises of a [Promise.all], in array
    order. *)
Definition rejection {A : Type} (c : completion A) : list js_error :=
  match c with Normal _ => [] | Throw e => [e] end.

(** The ids as the one array parameter of a query. *)
Definition idArray (ids : list jsnum) : value := VArr (map VNum ids).

Module Trail.

Definition trailsText : string :=
  nl +:+
  "            SELECT id," +:+ nl +:+
  "                    name," +:+ nl +:+
  "                    city," +:+ nl +:+
  "                    state," +:+ nl +:+
  "                    difficulty," +:+ nl +:+
  "                    dogs_allowed AS " +:+ dq +:+ "dogsAllowed" +:+ dq +:+ "," +:+ nl +:+
  "                    description," +:+ nl +:+
  "                    land_manager AS " +:+ dq +:+ "landManager" +:+ dq +:+ nl +:+
  "            FROM trails WHERE id = ANY($1::int[])" +:+ nl +:+
  "        ".

Definition existsText : string :=
  nl +:+
  "                    SELECT id FROM trails WHERE id = $1" +:+ nl +:+
  "                ".

Definition coordsText : string :=
  nl +:+
  "                    SELECT trail_id, polyline FROM trail_polylines" +:+ nl +:+
  "                    WHERE trail_id = ANY($1::int[])" +:+ nl +:+
  "                ".

Definition statsText (som : string) : string :=
  nl +:+
  "            SELECT trail_id," +:+ nl +:+
  "                   type," +:+ nl +:+
  "                   distance_" +:+ som +:+ " AS " +:+ dq +:+ "distance" +:+ dq +:+ "," +:+ nl +:+
  "                   elevation_high_" +:+ som +:+ " AS " +:+ dq +:+ "elevationHigh" +:+ dq +:+ "," +:+ nl +:+
  "                   elevation_low_" +:+ som +:+ " AS " +:+ dq +:+ "elevationLow" +:+ dq +:+ "," +:+ nl +:+
  "                   elevation_gain_" +:+ som +:+ " AS " +:+ dq +:+ "elevationGain" +:+ dq +:+ "," +:+ nl +:+
  "                   elevation_loss_" +:+ som +:+ " AS " +:+ dq +:+ "elevationLoss" +:+ dq +:+ "," +:+ nl +:+
  "                   avg_grade_percent AS " +:+ dq +:+ "avgGradePercent" +:+ dq +:+ "," +:+ nl +:+
  "                   avg_grade_degree AS " +:+ dq +:+ "avgGradeDegree" +:+ dq +:+ "," +:+ nl +:+
  "                   max_grade_percent AS " +:+ dq +:+ "maxGradePercent" +:+ dq +:+ "," +:+ nl +:+
  "                   max_grade_degree AS " +:+ dq +:+ "maxGradeDegree" +:+ dq +:+ nl +:+
  "            FROM trail_stats" +:+ nl +:+
  "            WHERE trail_id = ANY($1::int[])".

Definition featureIdText : string :=
  nl +:+
  "                    SELECT id FROM features" +:+ nl +:+
  "                    WHERE feature_name = $1" +:+ nl +:+
  "                ".

Section Readers.

(** The script engine's conversion of a value spliced into a template. *)
Variable ToString : value -> string.
(** The engine's message text of a type error. *)
Variable typeErrorText : string.
(** [pool.connect()] and [db.query(text, params)]. *)
Variable pool_connect : completion unit.
Variable db_query : string -> list value -> query_outcome.
(** [Buffer.from(hex, 'hex')], [wkx.Geometry.parse] and [toGeoJSON] in one. *)
Variable wkbToGeoJSON : value -> completion value.

(** [e.message]. *)
Definition errorMessage (e : js_error) : string :=
  match e with
  | PlainError message => message
  | External _ message => message
  | TypeError => typeErrorText
  end.

(** [verifyTrailExists], lines 118-135: the [catch] has no [throw]. *)
Definition verifyTrailExists (trailId : value) : completion value * list io :=
  match pool_connect with
  | Throw e => (Throw e, [])
  | Normal _ =>
      let q := IoQuery existsText [trailId] in
      match db_query existsText [trailId] with
      | QRows rows =>
          if Nat.ltb 0 (length rows) then (Normal (VBool true), [q; IoRelease])
          else
            (Normal VUndefined,
             [q;
              IoLog None
                (NotFoundError ("Trail id " +:+ ToString trailId +:+ " not found"));
              IoRelease])
      | QFail e => (Normal VUndefined, [q; IoLog None e; IoRelease])
      end
  end.

(** [linestringToGeoJSON], lines 160-176. *)
Fixpoint linestringToGeoJSON (dataArr : list obj) : completion (list obj) :=
  match dataArr with
  | [] => Normal []
  | dataObj :: rest =>
      bind (wkbToGeoJSON (obj_get dataObj "polyline"))
        (fun geojson =>
           bind (linestringToGeoJSON rest)
             (fun coordArray =>
                Normal ([("trail_id", obj_get dataObj "trail_id");
                         ("geojson", geojson)] :: coordArray)))
  end.

(** [getTrailCoordsByIds], lines 138-158. The promise of
    [linestringToGeoJSON] is returned without [await]: its rejection is
    settled after the [try] has been left, so the [catch] does not see it.
    [None] is the undefined result. *)
Definition getTrailCoordsByIds (trailIds : list jsnum)
  : completion (option (list obj)) * list io :=
  match pool_connect with
  | Throw e => (Throw e, [])
  | Normal _ =>
      let q := IoQuery coordsText [idArray trailIds] in
      match db_query coordsText [idArray trailIds] with
      | QRows rows =>
          if Nat.ltb 0 (length rows) then
            (bind (linestringToGeoJSON rows) (fun geojson => Normal (Some geojson)),
             [q; IoRelease])
          else (Normal None, [q; IoRelease])
      | QFail e => (Normal None, [q; IoLog None e; IoRelease])
      end
  end.

(** [getStatsByIds], lines 191-220. *)
Definition getStatsByIds (trail_ids : list jsnum) (systemOfMeasure : option string)
  : completion (list obj) * list io :=
  match pool_connect with
  | Throw e => (Throw e, [])
  | Normal _ =>
      let som := default "imperial" systemOfMeasure in
      let q := IoQuery (statsText som) [idArray trail_ids] in
      match db_query (statsText som) [idArray trail_ids] with
      | QRows rows => (Normal rows, [q; IoRelease])
      | QFail e =>
          (Throw (DatabaseError ("Error retrieving stats by ids: " +:+ errorMessage e)),
           [q; IoLog None e; IoRelease])
      end
  end.

(** [getFeatureByName], lines 264-286. *)
Definition getFeatureByName (feature : value) : completion value * list io :=
  match pool_connect with
  | Throw e => (Throw e, [])
  | Normal _ =>
      let q := IoQuery featureIdText [feature] in
      let thrown :=
        match db_query featureIdText [feature] with
        | QRows [] =>
            Throw (NotFoundError ("Feature " +:+ ToString feature +:+ " not found."))
        | QRows (first :: _) => Normal (obj_get first "id")
        | QFail e => Throw e
        end in
      match thrown with
      | Normal id => (Normal id, [q; IoRelease])
      | Throw e =>
          (Throw (if instanceOf "NotFoundError" e then e
                  else DatabaseError
                         ("Error fetching feature by name: " +:+ errorMessage e)),
           [q; IoLog None e; IoRelease])
      end
  end.

End Readers.

Section Hydration.

(** The script engine's [Number(v)] and the message text of a type error. *)
Variable ToNumber : value -> jsnum.
Variable typeErrorText : string.
(** [pool.connect()] and [db.query(text, params)]. *)
Variable pool_connect : completion unit.
Variable db_query : string -> list value -> query_outcome.
(** What the six calls under [Promise.all] settle to: [this.getStatsByIds],
    [this.getTrailFeaturesByIds], [this.getTrailImagesByIds],
    [this.getTrailCoordsByIds], [User.isOnWishList], [User.isOnCompletedList]. *)
Variable readStats : list jsnum -> completion (list obj).
Variable readFeatures : list jsnum -> completion (list obj).
Variable readImages : list jsnum -> completion (list obj).
Variable readCoords : list jsnum -> completion (option (list obj)).
Variable readWishList : value -> list jsnum -> completion (list value).
Variable readCompleted : value -> list jsnum -> completion (list value).
(** Which of several rejections [Promise.all] settles with: the first in
    time, which the scheduler decides. *)
Variable firstRejected : list js_error -> js_error.

(** The [map] over [rawTrailIds], lines 30-36. *)
Fixpoint toTrailIds (rawTrailIds : list value) : completion (list jsnum) :=
  match rawTrailIds with
  | [] => Normal []
  | id :: rest =>
      if isNaN (ToNumber id)
      then Throw (BadRequestError "Trail ids must be a number.")
      else bind (toTrailIds rest) (fun ids => Normal (ToNumber id :: ids))
  end.

(** The entries of [coordMap], line 66: [coord.geojson.coordinates] fails on
    a missing [geojson]. *)
Fixpoint coordEntries (coords : list obj) : completion (list (value * value)) :=
  match coords with
  | [] => Normal []
  | coord :: rest =>
      bind (get_prop (obj_get coord "geojson") "coordinates")
        (fun coordinates =>
           bind (coordEntries rest)
             (fun entries => Normal ((obj_get coord "trail_id", coordinates) :: entries)))
  end.

(** [wishListMap] and [completedListMap], lines 69-79; [None] is [null]. *)
Definition listMap (userId : value) (onList : option (list value))
    (trailIds : list jsnum) : option jsmap :=
  match onList with
  | Some l =>
      if truthy userId && Nat.ltb 0 (length l) then
        Some (newMap (map (fun id => (VNum id, VBool (arr_includes l (VNum id))))
                        trailIds))
      else None
  | None => None
  end.

(** One turn of [trails.forEach], lines 81-91. *)
Definition decorate (statsMap featuresMap imagesMap : jsmap)
    (coordMap wishListMap completedListMap : option jsmap) (trail : obj) : obj :=
  let t1 :=
    obj_set "stats"
      (delete_prop "trail_id" (js_or (map_get statsMap (obj_get trail "id")) (VObj [])))
      trail in
  let t2 :=
    obj_set "features"
      (delete_prop "trail_id" (js_or (map_get featuresMap (obj_get t1 "id")) (VArr [])))
      t1 in
  let t3 :=
    obj_set "imagePaths"
      (delete_prop "trail_id" (js_or (map_get imagesMap (obj_get t2 "id")) (VArr [])))
      t2 in
  let t4 :=
    obj_set "coordinates"
      (match coordMap with
       | Some m => map_get m (obj_get t3 "id")
       | None => VArr []
       end) t3 in
  let t5 :=
    obj_set "isWishList"
      (match wishListMap with
       | Some m => map_get m (obj_get t4 "id")
       | None => VBool false
       end) t4 in
  obj_set "isComplete"
    (match completedListMap with
     | Some m => map_get m (obj_get t5 "id")
     | None => VBool false
     end) t5.

(** Lines 62-93: the maps, then the decoration of every trail row. *)
Definition assemble (userId : value) (trailIds : list jsnum) (trails : list obj)
    (stats features images : list obj) (coords : option (list obj))
    (wishList completed : option (list value)) : completion (list obj) :=
  let statsMap := newMap (map (fun stat => (obj_get stat "trail_id", VObj stat)) stats) in
  let featuresMap :=
    newMap (map (fun feature => (obj_get feature "trail_id", obj_get feature "features"))
              features) in
  let imagesMap :=
    newMap (map (fun image => (obj_get image "trail_id", obj_get image "paths")) images) in
  bind (match coords with
        | Some (c :: cs) =>
            bind (coordEntries (c :: cs)) (fun entries => Normal (Some (newMap entries)))
        | _ => Normal None
        end)
    (fun coordMap =>
       let wishListMap := listMap userId wishList trailIds in
       let completedListMap := listMap userId completed trailIds in
       Normal (map (decorate statsMap featuresMap imagesMap coordMap wishListMap
                      completedListMap) trails)).

(** The [try] block of [getFullTrailsByIds], lines 30-96. *)
Definition fullTrailsBody (rawTrailIds : list value) (userId : value)
  : completion value * list io :=
  match toTrailIds rawTrailIds with
  | Throw e => (Throw e, [])
  | Normal trailIds =>
      let q := IoQuery trailsText [idArray trailIds] in
      match db_query trailsText [idArray trailIds] with
      | QFail e => (Throw e, [q])
      | QRows trails =>
          if Nat.ltb 0 (length trails) then
            let stats := readStats trailIds in
            let features := readFeatures trailIds in
            let images := readImages trailIds in
            let coords := readCoords trailIds in
            let wishList :=
              if truthy userId
              then bind (readWishList userId trailIds) (fun l => Normal (Some l))
              else Normal None in
            let completed :=
              if truthy userId
              then bind (readCompleted userId trailIds) (fun l => Normal (Some l))
              else Normal None in
            let calls :=
              [IoCall "getStatsByIds"; IoCall "getTrailFeaturesByIds";
               IoCall "getTrailImagesByIds"; IoCall "getTrailCoordsByIds"] ++
              (if truthy userId
               then [IoCall "isOnWishList"; IoCall "isOnCompletedList"]
               else []) in
            match stats, features, images, coords, wishList, completed with
            | Normal s, Normal f, Normal i, Normal c, Normal w, Normal d =>
                (bind (assemble userId trailIds trails s f i c w d)
                   (fun decorated => Normal (VArr (map VObj decorated))),
                 q :: calls)
            | _, _, _, _, _, _ =>
                (Throw (firstRejected
                          (rejection stats ++ rejection features ++ rejection images
                           ++ rejection coords ++ rejection wishList
                           ++ rejection completed)),
                 q :: calls)
            end
          else
            (Throw (NotFoundError "No trails found for the provided IDs"), [q])
      end
  end.

(** [getFullTrailsByIds], lines 26-108. *)
Definition getFullTrailsByIds (rawTrailIds : list value) (userId : value)
  : completion value * list io :=
  match pool_connect with
  | Throw e => (Throw e, [])
  | Normal _ =>
      match fullTrailsBody rawTrailIds userId with
      | (Normal found, evs) => (Normal found, evs ++ [IoRelease])
      | (Throw e, evs) =>
          (Throw (if instanceOf "NotFoundError" e || instanceOf "BadRequestError" e
                  then e
                  else DatabaseError
                         ("Error retrieving trail by id: "
                          +:+ errorMessage typeErrorText e)),
           evs ++ [IoLog None e; IoRelease])
      end
  end.

End Hydration.

End Trail.

Module User.

Definition wishText : string :=
  nl +:+
  "                    SELECT trail_id" +:+ nl +:+
  "                    FROM wanted_trails WHERE user_id = $1" +:+ nl +:+
  "                    AND trail_id = ANY($2::int[])" +:+ nl +:+
  "                ".

Definition completedText : string :=
  nl +:+
  "                    SELECT trail_id" +:+ nl +:+
  "                    FROM completed_trails WHERE user_id = $1" +:+ nl +:+
  "                    AND trail_id = ANY($2::int[])" +:+ nl +:+
  "                ".

Section Lists.

Variable ToString : value -> string.
Variable pool_connect : completion unit.
Variable db_query : string -> list value -> query_outcome.

(** [isOnWishList], lines 266-284 of [models/User.js]. *)
Definition isOnWishList (userId : value) (trailIds : list jsnum)
  : completion (list value) * list io :=
  match pool_connect with
  | Throw e => (Throw e, [])
  | Normal _ =>
      let q := IoQuery wishText [userId; idArray trailIds] in
      match db_query wishText [userId; idArray trailIds] with
      | QRows rows => (Normal (map (fun row => obj_get row "trail_id") rows), [q; IoRelease])
      | QFail e =>
          (Throw (DatabaseError
                    ("Unable to retrive wishlist for user " +:+ ToString userId)),
           [q; IoLog None e; IoRelease])
      end
  end.

(** [isOnCompletedList], lines 386-405 of [models/User.js]. *)
Definition isOnCompletedList (userId : value) (trailIds : list jsnum)
  : completion (list value) * list io :=
  match pool_connect with
  | Throw e => (Throw e, [])
  | Normal _ =>
      let q := IoQuery completedText [userId; idArray trailIds] in
      match db_query completedText [userId; idArray trailIds] with
      | QRows rows => (Normal (map (fun row => obj_get row "trail_id") rows), [q; IoRelease])
      | QFail e =>
          (Throw (DatabaseError
                    ("Unable to retrive wishlist for user " +:+ ToString userId)),
           [q; IoLog None e; IoRelease])
      end
  end.

End Lists.

End User.

(** The keys [getFullTrailsByIds] sets on every trail row. *)
Definition decorKeys : list string :=
  ["stats"; "features"; "imagePaths"; "coordinates"; "isWishList"; "isComplete"].

(** Concrete collaborators for running the trail model. *)
Definition twoTrailsDb (text : string) (ps : list value) : query_outcome :=
  QRows [[("id", num 4); ("name", VStr "Falls Loop")];
         [("id", num 9); ("name", VStr "Ridge")]].

Definition noRowsDb (text : string) (ps : list value) : query_outcome := QRows [].

Definition sampleStats (ids : list jsnum) : completion (list obj) :=
  Normal [[("trail_id", num 4); ("distance", num 3)]].

Definition sampleFeatures (ids : list jsnum) : completion (list obj) :=
  Normal [[("trail_id", num 9); ("features", VArr [VStr "Cave"])]].

Definition sampleImages (ids : list jsnum) : completion (list obj) := Normal [].

Definition sampleCoords (ids : list jsnum) : completion (option (list obj)) :=
  Normal None.

Definition sampleWishList (userId : value) (ids : list jsnum)
  : completion (list value) := Normal [num 9].

Definition sampleCompleted (userId : value) (ids : list jsnum)
  : completion (list value) := Normal [].

Definition failingStats (ids : list jsnum) : completion (list obj) :=
  Throw (DatabaseError "Error retrieving stats by ids: connection reset").

(** A scheduler under which the earliest call is the first to reject. *)
Definition firstInOrder (rejections : list js_error) : js_error :=
  match rejections with
  | e :: _ => e
  | [] => TypeError
  end.

(** What the concrete collaborators hydrate the ids 4 and 9 to, for user 1
    and for no user. *)
Definition hydratedForUser : value :=
  VArr
    [VObj [("id", num 4); ("name", VStr "Falls Loop");
           ("stats", VObj [("distance", num 3)]);
           ("features", VArr []); ("imagePaths", VArr []);
           ("coordinates", VArr []); ("isWishList", VBool false);
           ("isComplete", VBool false)];
     VObj [("id", num 9); ("name", VStr "Ridge");
           ("stats", VObj []); ("features", VArr [VStr "Cave"]);
           ("imagePaths", VArr []); ("coordinates", VArr []);
           ("isWishList", VBool true); ("isComplete", VBool false)]].

Definition hydratedForNobody : value :=
  VArr
    [VObj [("id", num 4); ("name", VStr "Falls Loop");
           ("stats", VObj [("distance", num 3)]);
           ("features", VArr []); ("imagePaths", VArr []);
           ("coordinates", VArr []); ("isWishList", VBool false);
           ("isComplete", VBool false)];
     VObj [("id", num 9); ("name", VStr "Ridge");
           ("stats", VObj []); ("features", VArr [VStr "Cave"]);
           ("imagePaths", VArr []); ("coordinates", VArr []);
           ("isWishList", VBool false); ("isComplete", VBool false)]].

Definition failingQueries (text : string) (ps : list value) : query_outcome :=
  QFail (External "error" "connection reset").

(** A query engine that finds the two trails and fails on every other text. *)
Definition trailsOnlyDb (text : string) (ps : list value) : query_outcome :=
  if String.eqb text Trail.trailsText then twoTrailsDb text ps
  else failingQueries text ps.

Definition sampleToString (v : value) : string :=
  match v with
  | VStr s => s
  | _ => "1"
  end.

(** ** Facts about strings, objects and the binder *)

Lemma substring_0_0 (s : string) : String.substring 0 0 s = "".
Proof. destruct s; reflexivity. Qed.

Lemma append_cons (c : ascii) (s t : string) :
  String c s +:+ t = String c (s +:+ t).
Proof. reflexivity. Qed.

Lemma append_assoc (a b c : string) : (a +:+ b) +:+ c = a +:+ (b +:+ c).
Proof.
  induction a as [|x a IH]; [reflexivity|].
  rewrite !append_cons, IH. reflexivity.
Qed.

Lemma append_nil_r (a : string) : a +:+ "" = a.
Proof.
  induction a as [|x a IH]; [reflexivity|].
  rewrite append_cons, IH. reflexivity.
Qed.

Lemma all_chars_append (p : ascii -> bool) (s t : string) :
  all_chars p (s +:+ t) = all_chars p s && all_chars p t.
Proof.
  induction s as [|c s IH]; [reflexivity|].
  rewrite append_cons. simpl. rewrite IH, andb_assoc. reflexivity.
Qed.

Lemma obj_get_set_ne (k k' : string) (v : value) (o : obj) :
  k <> k' -> obj_get (obj_set k v o) k' = obj_get o k'.
Proof.
  intros Hne. induction o as [|[k0 v0] o IH]; simpl.
  - destruct (String.eqb_spec k k'); [contradiction | reflexivity].
  - destruct (String.eqb_spec k0 k) as [->|Hk]; simpl.
    + destruct (String.eqb_spec k k'); [contradiction | reflexivity].
    + rewrite IH. reflexivity.
Qed.

Lemma obj_get_delete_ne (k k' : string) (o : obj) :
  k <> k' -> obj_get (obj_delete k o) k' = obj_get o k'.
Proof.
  intros Hne. induction o as [|[k0 v0] o IH]; simpl; [reflexivity|].
  destruct (String.eqb_spec k0 k) as [->|Hk]; simpl.
  - rewrite IH. destruct (String.eqb_spec k k'); [contradiction | reflexivity].
  - rewrite IH. reflexivity.
Qed.

Lemma obj_get_set_eq (k : string) (v : value) (o : obj) :
  obj_get (obj_set k v o) k = v.
Proof.
  induction o as [|[k0 v0] o IH]; simpl.
  - rewrite String.eqb_refl. reflexivity.
  - destruct (String.eqb_spec k0 k) as [->|Hk]; simpl.
    + rewrite String.eqb_refl. reflexivity.
    + destruct (String.eqb_spec k0 k); [contradiction | exact IH].
Qed.

Lemma obj_get_delete_same (k : string) (o : obj) :
  obj_get (obj_delete k o) k = VUndefined.
Proof.
  induction o as [|[k0 v0] o IH]; simpl; [reflexivity|].
  destruct (String.eqb_spec k0 k) as [->|Hk]; simpl; [exact IH|].
  destruct (String.eqb_spec k0 k); [contradiction | exact IH].
Qed.

Lemma obj_has_get (o : obj) (k : string) :
  obj_get o k <> VUndefined -> obj_has o k = true.
Proof.
  unfold obj_has, obj_keys.
  induction o as [|[k0 v0] o IH]; simpl; [congruence|].
  rewrite (String.eqb_sym k k0).
  destruct (String.eqb_spec k0 k); simpl; auto.
Qed.

Lemma truthy_defined (v : value) : truthy v = true -> v <> VUndefined.
Proof. intros H ->. discriminate. Qed.

Lemma num_neq_NaN (n : jsnum) : num_neq n NaN = true.
Proof. destruct n; reflexivity. Qed.

Lemma addParam_token (v : value) (b : binder) :
  addParam v b =
  (S (paramCount b), {| params := params b ++ [v]; paramCount := S (paramCount b) |}).
Proof. reflexivity. Qed.

Lemma aligned_start (o : obj) :
  aligned {| bound := no_params; clause := []; filters := o |}.
Proof. split; reflexivity. Qed.

Lemma aligned_emit1 (sc : scope) (f : fragment) (v : value) (o : obj) :
  aligned sc ->
  tokens f = [S (paramCount (bound sc))] ->
  aligned (emit f {| params := params (bound sc) ++ [v];
                     paramCount := S (paramCount (bound sc)) |} o sc).
Proof.
  intros [Hlen Htok] Hf. split; unfold emit; cbn [clause bound paramCount params].
  - rewrite length_app, <- Hlen. simpl. lia.
  - rewrite seq_S, map_app, concat_app, Htok. cbn [map concat].
    rewrite Hf, app_nil_r. reflexivity.
Qed.

Lemma aligned_emit2 (sc : scope) (f : fragment) (v w : value) (o : obj) :
  aligned sc ->
  tokens f = [S (paramCount (bound sc)); S (S (paramCount (bound sc)))] ->
  aligned (emit f {| params := (params (bound sc) ++ [v]) ++ [w];
                     paramCount := S (S (paramCount (bound sc))) |} o sc).
Proof.
  intros [Hlen Htok] Hf. split; unfold emit; cbn [clause bound paramCount params].
  - rewrite !length_app, <- Hlen. simpl. lia.
  - rewrite !seq_S, map_app, concat_app, Htok. cbn [map concat].
    rewrite Hf, app_nil_r, <- app_assoc. reflexivity.
Qed.

Lemma sqlKey_plain (table : gmap string string) (k col : string) :
  plain_table table -> sqlKey table k = Some col -> no_dollar col = true.
Proof.
  intros Htable. unfold sqlKey.
  destruct (table !! k) as [c|] eqn:Hk; [|discriminate].
  destruct (String.eqb c ""); [discriminate|].
  intros [= <-]. exact (Htable k c Hk).
Qed.

Section Composition.

Variable js_gt : value -> value -> completion bool.
Variable ToNumber : value -> completion jsnum.
Variable jsToSqlFilters : gmap string string.

Lemma searchTermStep_aligned (searchTerm : value) (sc sc' : scope) :
  aligned sc -> searchTermStep searchTerm sc = Normal sc' -> aligned sc'.
Proof.
  intros Hal. unfold searchTermStep.
  destruct (truthy searchTerm); [|intros [= <-]; exact Hal].
  destruct searchTerm; try discriminate.
  rewrite addParam_token. intros [= <-]. apply aligned_emit1; auto.
Qed.

Lemma filterStep_aligned (unit key : string) (sc sc' : scope) :
  aligned sc ->
  filterStep js_gt ToNumber jsToSqlFilters unit key sc = Normal sc' ->
  aligned sc'.
Proof.
  intros Hal. unfold filterStep, addDistanceFilters, addElevationFilters, bind.
  repeat case_match; intros;
    repeat match goal with
           | H : addParam _ _ = _ |- _ => rewrite addParam_token in H
           end;
    simplify_eq; auto;
    first [ apply aligned_emit1; auto; fail | apply aligned_emit2; auto ].
Qed.

Lemma filterLoop_aligned (unit : string) (keys : list string) (sc sc' : scope) :
  aligned sc ->
  filterLoop js_gt ToNumber jsToSqlFilters unit keys sc = Normal sc' ->
  aligned sc'.
Proof.
  revert sc. induction keys as [|key rest IH]; simpl; intros sc Hal.
  - intros [= <-]. exact Hal.
  - destruct (filterStep _ _ _ unit key sc) as [sc1|e] eqn:Hstep; simpl;
      [|discriminate].
    apply IH. eapply filterStep_aligned; eauto.
Qed.

Lemma compose_aligned (searchTerm : value) (fs : option obj) (unit : string)
    (sc : scope) :
  compose js_gt ToNumber jsToSqlFilters searchTerm fs unit = Normal sc ->
  aligned sc.
Proof.
  unfold compose.
  destruct (searchTermStep searchTerm _) as [sc1|e] eqn:Hterm; simpl;
    [|discriminate].
  assert (aligned sc1) as Hal1
    by (eapply searchTermStep_aligned; [apply aligned_start | exact Hterm]).
  destruct fs as [o|].
  - apply filterLoop_aligned; exact Hal1.
  - intros [= <-]. exact Hal1.
Qed.

(** Every fragment the composition appends takes its column from the lookup
    table and its operator from the program text. *)
Lemma filterStep_plain (unit key : string) (sc sc' : scope) :
  plain_table jsToSqlFilters ->
  forallb plain_fragment (clause sc) = true ->
  filterStep js_gt ToNumber jsToSqlFilters unit key sc = Normal sc' ->
  forallb plain_fragment (clause sc') = true.
Proof.
  intros Htable Hplain.
  unfold filterStep, addDistanceFilters, addElevationFilters, bind.
  repeat case_match; intros; simplify_eq; auto;
    unfold emit; cbn [clause]; rewrite forallb_app, Hplain; cbn [forallb plain_fragment];
    repeat match goal with
           | H : sqlKey _ _ = Some ?c |- context [no_dollar ?c] =>
               rewrite (sqlKey_plain _ _ _ Htable H)
           end;
    reflexivity.
Qed.

Lemma filterLoop_plain (unit : string) (keys : list string) (sc sc' : scope) :
  plain_table jsToSqlFilters ->
  forallb plain_fragment (clause sc) = true ->
  filterLoop js_gt ToNumber jsToSqlFilters unit keys sc = Normal sc' ->
  forallb plain_fragment (clause sc') = true.
Proof.
  intros Htable. revert sc. induction keys as [|key rest IH]; simpl; intros sc Hplain.
  - intros [= <-]. exact Hplain.
  - destruct (filterStep _ _ _ unit key sc) as [sc1|e] eqn:Hstep; simpl;
      [|discriminate].
    apply IH. eapply filterStep_plain; eauto.
Qed.

Lemma compose_plain (searchTerm : value) (fs : option obj) (unit : string)
    (sc : scope) :
  plain_table jsToSqlFilters ->
  compose js_gt ToNumber jsToSqlFilters searchTerm fs unit = Normal sc ->
  forallb plain_fragment (clause sc) = true.
Proof.
  intros Htable. unfold compose, searchTermStep.
  destruct (truthy searchTerm); [destruct searchTerm|]; simpl; try discriminate;
    destruct fs as [o|];
    first [ apply filterLoop_plain; [exact Htable | reflexivity]
          | intros [= <-]; reflexivity ].
Qed.

End Composition.

Lemma addParams_from (vs : list value) (b : binder) :
  addParams vs b =
  (seq (S (paramCount b)) (length vs),
   {| params := params b ++ vs; paramCount := paramCount b + length vs |}).
Proof.
  revert b. induction vs as [|v rest IH]; intros b; simpl.
  - rewrite app_nil_r, Nat.add_0_r. destruct b; reflexivity.
  - rewrite IH. simpl. rewrite <- app_assoc. simpl.
    do 3 f_equal. lia.
Qed.

(** ** The tokens of the emitted text *)

Lemma scanTokens_plain (s t : string) :
  no_dollar s = true -> scanTokens (s +:+ t) None = scanTokens t None.
Proof.
  induction s as [|c s IH]; [reflexivity|].
  unfold no_dollar. cbn [all_chars]. intros H. apply andb_true_iff in H as [Hc Hs].
  apply negb_true_iff in Hc. rewrite append_cons. cbn [scanTokens]. rewrite Hc.
  apply IH. exact Hs.
Qed.

Lemma scanTokens_close (t : string) (n : nat) :
  starts_plain t = true -> scanTokens t (Some n) = n :: scanTokens t None.
Proof.
  destruct t as [|c r]; [reflexivity|]. simpl.
  destruct (Ascii.eqb c "$"); [reflexivity|].
  destruct (digit_of c); [discriminate | reflexivity].
Qed.

Lemma scanTokens_digits (d : Decimal.uint) (t : string) (acc : nat) :
  starts_plain t = true ->
  scanTokens (NilEmpty.string_of_uint d +:+ t) (Some acc) =
  Nat.of_uint_acc d acc :: scanTokens t None.
Proof.
  intros Ht. revert acc.
  induction d as [|d IH|d IH|d IH|d IH|d IH|d IH|d IH|d IH|d IH|d IH]; intros acc;
    [apply scanTokens_close; exact Ht|..];
    cbn [NilEmpty.string_of_uint Nat.of_uint_acc]; rewrite append_cons;
    cbn [scanTokens]; change (Ascii.eqb _ "$") with false; cbv iota;
    match goal with
    | |- context [digit_of ?c] =>
        let r := eval vm_compute in (digit_of c) in change (digit_of c) with r
    end;
    cbv iota; rewrite IH, Nat.tail_mul_spec; do 2 f_equal; lia.
Qed.

Lemma scanTokens_decimal (p : nat) (t : string) :
  starts_plain t = true ->
  scanTokens (decimal p +:+ t) (Some 0) = p :: scanTokens t None.
Proof.
  intros Ht.
  assert (forall d, scanTokens (NilZero.string_of_uint d +:+ t) (Some 0) =
                    Nat.of_uint d :: scanTokens t None) as Hd.
  { intros d. destruct d as [|d|d|d|d|d|d|d|d|d|d];
      try apply (scanTokens_digits _ t 0 Ht).
    change (NilZero.string_of_uint Decimal.Nil) with "0".
    rewrite append_cons. cbn. apply scanTokens_close. exact Ht. }
  unfold decimal. rewrite Hd, Unsigned.of_to. reflexivity.
Qed.

Lemma scanTokens_placeholder (p : nat) (t : string) :
  starts_plain t = true ->
  scanTokens (placeholder p +:+ t) None = p :: scanTokens t None.
Proof.
  intros Ht. unfold placeholder. rewrite append_assoc, append_cons.
  cbn [scanTokens]. change (Ascii.eqb "$" "$") with true. cbv iota.
  apply scanTokens_decimal. exact Ht.
Qed.

Lemma no_dollar_decimal (n : nat) : no_dollar (decimal n) = true.
Proof.
  unfold decimal.
  assert (forall d, no_dollar (NilEmpty.string_of_uint d) = true) as Hd
    by (induction d; simpl; auto).
  destruct (Nat.to_uint n); try apply Hd. reflexivity.
Qed.

Lemma starts_plain_cons (c : ascii) (s t : string) :
  digit_of c = None -> starts_plain (String c s +:+ t) = true.
Proof. intros H. rewrite append_cons. simpl. rewrite H. reflexivity. Qed.

Ltac scan_step :=
  first
    [ rewrite scanTokens_plain
        by first [reflexivity | assumption | apply no_dollar_decimal]
    | rewrite scanTokens_placeholder
        by first [assumption | apply starts_plain_cons; reflexivity | reflexivity] ].

(** The tokens read back from the text of a fragment are the tokens it was
    built with. *)
Lemma scanTokens_render (f : fragment) (t : string) :
  plain_fragment f = true ->
  starts_plain t = true ->
  scanTokens (render f +:+ t) None = tokens f ++ scanTokens t None.
Proof.
  intros Hf Ht.
  destruct f as [p|p len|p|p|col lo hi|col op p|col p|col p];
    cbn [plain_fragment] in Hf;
    try (apply andb_true_iff in Hf as [Hf Hop]);
    unfold render, tokens; rewrite ?append_assoc;
    repeat scan_step; reflexivity.
Qed.

Lemma render_starts_plain (f : fragment) (t : string) :
  starts_plain (render f +:+ t) = true.
Proof.
  destruct f; unfold render, nl; rewrite ?append_assoc;
    apply starts_plain_cons; reflexivity.
Qed.

Lemma concat_cons (x : string) (xs : list string) :
  String.concat "" (x :: xs) = x +:+ String.concat "" xs.
Proof. destruct xs; simpl; [rewrite append_nil_r|]; reflexivity. Qed.

Lemma scanTokens_clause (fs : list fragment) (t : string) :
  forallb plain_fragment fs = true ->
  starts_plain t = true ->
  starts_plain (String.concat "" (map render fs) +:+ t) = true /\
  scanTokens (String.concat "" (map render fs) +:+ t) None =
  concat (map tokens fs) ++ scanTokens t None.
Proof.
  intros Hfs Ht. induction fs as [|f fs IH]; [split; [exact Ht | reflexivity]|].
  cbn [forallb] in Hfs. apply andb_true_iff in Hfs as [Hf Hfs].
  destruct (IH Hfs) as [Hstart Hscan].
  cbn [map]. rewrite concat_cons, append_assoc. split.
  - apply render_starts_plain.
  - rewrite scanTokens_render by assumption.
    rewrite Hscan. cbn [concat]. rewrite <- app_assoc. reflexivity.
Qed.

(** The tokens read back from the text of a statement are the tokens of its
    fragments, followed by the two paging tokens of the id fetch. *)
Lemma placeholders_statement (s : statement) :
  no_dollar (head s) = true ->
  forallb plain_fragment (whereClause s) = true ->
  placeholdersOf (sql s) = statement_tokens s.
Proof.
  intros Hhead Hfs. unfold placeholdersOf, sql, statement_tokens, whereText.
  rewrite ?append_assoc. rewrite scanTokens_plain by exact Hhead.
  rewrite scanTokens_plain by reflexivity.
  destruct (paging s) as [[limitParam offsetParam]|].
  - destruct (scanTokens_clause (whereClause s)
                (" LIMIT " +:+ placeholder limitParam +:+ " OFFSET "
                 +:+ placeholder offsetParam) Hfs) as [_ ->];
      [apply starts_plain_cons; reflexivity|].
    f_equal. rewrite <- (append_nil_r (placeholder offsetParam)).
    repeat scan_step. reflexivity.
  - destruct (scanTokens_clause (whereClause s) "" Hfs eq_refl) as [_ ->].
    reflexivity.
Qed.

(** Every statement handed to the engine carries in its text the tokens
    [$1 .. $n] for its [n] parameters, and the two paging tokens point at
    [limit] and at the offset computed from [page] and [limit]. *)
Lemma queries_aligned js_gt ToNumber jsToSqlFilters db_query getFullTrailsByIds
    (searchTerm page limit : value) (fs : option obj) (userId : value)
    (unit : string) (s : statement) (ps : list value) :
  plain_table jsToSqlFilters ->
  In (Query s ps)
     (snd (searchBody js_gt ToNumber jsToSqlFilters db_query getFullTrailsByIds
             searchTerm page limit fs userId unit)) ->
  placeholdersOf (sql s) = seq 1 (length ps) /\
  forall limitParam offsetParam,
    paging s = Some (limitParam, offsetParam) ->
    ps !! (limitParam - 1) = Some limit /\
    exists offset,
      offsetOf ToNumber page limit = Normal offset /\
      ps !! (offsetParam - 1) = Some (VNum offset).
Proof.
  intros Htable. unfold searchBody.
  destruct (offsetOf ToNumber page limit) as [offset|e]; [|intros []].
  destruct (compose _ _ _ searchTerm fs unit) as [sc|e] eqn:Hc; [|intros []].
  destruct (compose_aligned _ _ _ _ _ _ _ Hc) as [Hlen Htok].
  pose proof (compose_plain _ _ _ _ _ _ _ Htable Hc) as Hplain.
  assert (placeholdersOf (sql (countQuery sc)) = seq 1 (length (params (bound sc))))
    as Hcount.
  { rewrite placeholders_statement by (first [reflexivity | exact Hplain]).
    unfold statement_tokens, countQuery. simpl. rewrite app_nil_r, Htok, Hlen.
    reflexivity. }
  assert (forall l o : value,
    placeholdersOf (sql (finalQuery sc (S (paramCount (bound sc)))
                           (S (S (paramCount (bound sc)))))) =
    seq 1 (length ((params (bound sc) ++ [l]) ++ [o]))) as Hfinal.
  { intros l o. rewrite placeholders_statement by (first [reflexivity | exact Hplain]).
    unfold statement_tokens, finalQuery. simpl.
    rewrite Htok, !length_app, Hlen. simpl.
    rewrite <- Nat.add_assoc. simpl. rewrite !seq_app. reflexivity. }
  assert (forall l o : value,
    ((params (bound sc) ++ [l]) ++ [o]) !! (S (paramCount (bound sc)) - 1) = Some l /\
    ((params (bound sc) ++ [l]) ++ [o]) !! (S (S (paramCount (bound sc))) - 1) = Some o)
    as Hvals.
  { intros l o. rewrite Hlen. split.
    - rewrite lookup_app_l by (rewrite length_app; simpl; lia).
      rewrite lookup_app_r by (simpl; lia).
      match goal with |- [l] !! ?k = _ => replace k with 0 by lia end.
      reflexivity.
    - rewrite lookup_app_r by (rewrite length_app; simpl; lia).
      rewrite length_app. simpl.
      match goal with |- [o] !! ?k = _ => replace k with 0 by lia end.
      reflexivity. }
  assert (forall l o, paging (countQuery sc) = Some (l, o) -> False) as Hnone
    by (intros l o; discriminate).
  destruct (db_query (sql (countQuery sc)) _) as [[|first more]|e];
    try (simpl; intros [[= <- <-]|[]]; split; [exact Hcount|];
         intros l o Hp; destruct (Hnone _ _ Hp)).
  rewrite !addParam_token. cbn [params paramCount].
  set (fq := finalQuery sc _ _). set (fps := (params (bound sc) ++ _) ++ _).
  assert (In (Query s ps) [Query (countQuery sc) (params (bound sc)); Query fq fps] ->
          placeholdersOf (sql s) = seq 1 (length ps) /\
          forall l o, paging s = Some (l, o) ->
            ps !! (l - 1) = Some limit /\
            exists off, Normal offset = Normal off /\ ps !! (o - 1) = Some (VNum off))
    as Htwo.
  { simpl. intros [[= <- <-]|[[= <- <-]|[]]].
    - split; [exact Hcount|]. intros l o Hp; destruct (Hnone _ _ Hp).
    - split; [apply Hfinal|]. intros l o [= <- <-].
      split; [apply Hvals|]. exists offset. split; [reflexivity | apply Hvals]. }
  destruct (db_query (sql fq) fps) as [rows|e]; [|exact Htwo].
  destruct (Nat.ltb 0 (length rows)); [|exact Htwo].
  destruct (rowIds ToNumber rows) as [ids|e]; [|exact Htwo].
  destruct (getFullTrailsByIds _ userId); simpl;
    intros [H|[H|[H|[]]]]; try discriminate; apply Htwo; simpl; auto.
Qed.

(** ** The dispatch of [filterStep], branch by branch *)

Lemma unstructured_tests (key : string) :
  includes structuredKeys key = false ->
  String.eqb key "features" = false /\ String.eqb key "difficulty" = false /\
  String.eqb key "type" = false /\ includes distanceKeys key = false /\
  includes elevationKeys key = false.
Proof.
  unfold structuredKeys, distanceKeys, elevationKeys, includes.
  cbn [app existsb]. intros H.
  repeat (apply orb_false_elim in H as [? H]).
  repeat split; auto;
    repeat match goal with E : String.eqb key _ = false |- _ => rewrite E; clear E end;
    reflexivity.
Qed.

Section Dispatch.

Variable js_gt : value -> value -> completion bool.
Variable ToNumber : value -> completion jsnum.
Variable jsToSqlFilters : gmap string string.

(** A key outside the structured ones takes the last branch, whose test
    [Number(v) != NaN] holds of every number [Number] can answer. *)
Lemma filterStep_generic (unit key : string) (sc : scope) :
  includes structuredKeys key = false ->
  filterStep js_gt ToNumber jsToSqlFilters unit key sc =
  match sqlKey jsToSqlFilters key with
  | Some col =>
      bind (ToNumber (obj_get (filters sc) key))
        (fun _ =>
           Normal (emit (Equals col (S (paramCount (bound sc))))
                     {| params := params (bound sc) ++ [obj_get (filters sc) key];
                        paramCount := S (paramCount (bound sc)) |}
                     (filters sc) sc))
  | None => Normal sc
  end.
Proof.
  intros H. apply unstructured_tests in H as (Hf & Hd & Ht & Hdist & Helev).
  unfold filterStep. rewrite Hf, Hd, Ht, Hdist, Helev.
  destruct (sqlKey jsToSqlFilters key) as [col|]; [|reflexivity].
  rewrite addParam_token.
  destruct (ToNumber _) as [n|e]; simpl; [rewrite num_neq_NaN|]; reflexivity.
Qed.

(** No turn of the loop appends the lower-casing equality. *)
Lemma filterStep_no_lower (unit key : string) (sc sc' : scope) :
  forallb (fun f => negb (is_lower f)) (clause sc) = true ->
  filterStep js_gt ToNumber jsToSqlFilters unit key sc = Normal sc' ->
  forallb (fun f => negb (is_lower f)) (clause sc') = true.
Proof.
  intros Hno. unfold filterStep, addDistanceFilters, addElevationFilters, bind.
  repeat case_match; intros; simplify_eq; auto;
    try match goal with
        | H : num_neq _ NaN = false |- _ => rewrite num_neq_NaN in H; discriminate
        end;
    unfold emit; cbn [clause]; rewrite forallb_app, Hno; reflexivity.
Qed.

Lemma filterLoop_no_lower (unit : string) (keys : list string) (sc sc' : scope) :
  forallb (fun f => negb (is_lower f)) (clause sc) = true ->
  filterLoop js_gt ToNumber jsToSqlFilters unit keys sc = Normal sc' ->
  forallb (fun f => negb (is_lower f)) (clause sc') = true.
Proof.
  revert sc. induction keys as [|key rest IH]; simpl; intros sc Hno.
  - intros [= <-]. exact Hno.
  - destruct (filterStep _ _ _ unit key sc) as [sc1|e] eqn:Hstep; simpl;
      [|discriminate].
    apply IH. eapply filterStep_no_lower; eauto.
Qed.

Lemma compose_no_lower (searchTerm : value) (fs : option obj) (unit : string)
    (sc : scope) :
  compose js_gt ToNumber jsToSqlFilters searchTerm fs unit = Normal sc ->
  forallb (fun f => negb (is_lower f)) (clause sc) = true.
Proof.
  unfold compose, searchTermStep.
  destruct (truthy searchTerm); [destruct searchTerm|]; simpl; try discriminate;
    destruct fs as [o|];
    first [ apply filterLoop_no_lower; reflexivity | intros [= <-]; reflexivity ].
Qed.

End Dispatch.

(** ** The [try]/[catch]/[finally] frame *)

(** A statement handed to the engine carries the clause of a composition
    that succeeded, and its parameters first. *)
Lemma query_clause js_gt ToNumber jsToSqlFilters pool_connect db_query
    getFullTrailsByIds (searchTerm page limit : value) (fs : option obj)
    (userId : value) (unit : option string) (s : statement) (ps : list value) :
  In (Query s ps)
     (snd (searchTrails js_gt ToNumber jsToSqlFilters pool_connect db_query
             getFullTrailsByIds searchTerm page limit fs userId unit)) ->
  exists sc,
    compose js_gt ToNumber jsToSqlFilters searchTerm fs (default "Imperial" unit) =
      Normal sc /\
    whereClause s = clause sc /\
    exists paging, ps = params (bound sc) ++ paging.
Proof.
  unfold searchTrails, searchBody.
  destruct pool_connect as [[]|e0]; [|intros []].
  destruct (offsetOf ToNumber _ _) as [offset|e]; [|simpl; intuition discriminate].
  destruct (compose _ _ _ searchTerm fs _) as [sc|e]; [|simpl; intuition discriminate].
  intros Hin. exists sc. split; [reflexivity|]. revert Hin.
  assert (forall (l o : nat) (v w : value) (rest : list event),
            Forall (fun ev => is_query ev = false) rest ->
            In (Query s ps)
               (Query (countQuery sc) (params (bound sc)) ::
                Query (finalQuery sc l o) ((params (bound sc) ++ [v]) ++ [w]) :: rest) ->
            whereClause s = clause sc /\
            exists paging, ps = params (bound sc) ++ paging) as Htwo.
  { intros l o v w rest Hrest [[= <- <-]|[[= <- <-]|Hin]].
    - split; [reflexivity|]. exists []. rewrite app_nil_r. reflexivity.
    - split; [reflexivity|]. exists [v; w]. rewrite <- app_assoc. reflexivity.
    - apply (proj1 (List.Forall_forall _ _) Hrest) in Hin. discriminate. }
  assert (forall rest : list event,
            Forall (fun ev => is_query ev = false) rest ->
            In (Query s ps) (Query (countQuery sc) (params (bound sc)) :: rest) ->
            whereClause s = clause sc /\
            exists paging, ps = params (bound sc) ++ paging) as Hone.
  { intros rest Hrest [[= <- <-]|Hin].
    - split; [reflexivity|]. exists []. rewrite app_nil_r. reflexivity.
    - apply (proj1 (List.Forall_forall _ _) Hrest) in Hin. discriminate. }
  destruct (db_query (sql (countQuery sc)) _) as [[|first more]|e];
    try (apply Hone; repeat constructor).
  rewrite !addParam_token.
  destruct (db_query (sql (finalQuery sc _ _)) _) as [rows|e];
    [destruct (Nat.ltb 0 (length rows));
     [destruct (rowIds ToNumber rows) as [ids|e];
      [destruct (getFullTrailsByIds _ userId)|]|]|];
    apply Htwo; repeat constructor.
Qed.

Lemma searchTrails_throw js_gt ToNumber jsToSqlFilters db_query getFullTrailsByIds
    (searchTerm page limit : value) (fs : option obj)
    (userId : value) (unit : option string) (err : js_error) :
  fst (searchTrails js_gt ToNumber jsToSqlFilters connected db_query
         getFullTrailsByIds searchTerm page limit fs userId unit) = Throw err ->
  err = searchError /\
  exists e evs,
    snd (searchTrails js_gt ToNumber jsToSqlFilters connected db_query
           getFullTrailsByIds searchTerm page limit fs userId unit) =
    evs ++ [ConsoleError e; Release].
Proof.
  unfold searchTrails, connected.
  destruct (searchBody _ _ _ _ _ searchTerm _ _ fs userId _) as [[found|e] evs];
    simpl; [discriminate|].
  intros [= <-]. split; [reflexivity|]. exists e, evs. reflexivity.
Qed.

(** A composition that throws: the run fails without a query; on an acquired
    connection it throws the generic error, and what it logs is the error of
    the composition unless the offset arithmetic of line 59 threw first. *)
Lemma compose_throw_run js_gt ToNumber jsToSqlFilters pool_connect db_query
    getFullTrailsByIds (searchTerm page limit : value)
    (fs : option obj) (userId : value) (unit : option string) (e : js_error) :
  compose js_gt ToNumber jsToSqlFilters searchTerm fs (default "Imperial" unit) =
    Throw e ->
  exists err,
    fst (searchTrails js_gt ToNumber jsToSqlFilters pool_connect db_query
           getFullTrailsByIds searchTerm page limit fs userId unit) = Throw err /\
    existsb is_query
      (snd (searchTrails js_gt ToNumber jsToSqlFilters pool_connect db_query
              getFullTrailsByIds searchTerm page limit fs userId unit)) = false /\
    (pool_connect = connected ->
     exists logged,
       searchTrails js_gt ToNumber jsToSqlFilters pool_connect db_query
         getFullTrailsByIds searchTerm page limit fs userId unit =
       (Throw searchError, [ConsoleError logged; Release]) /\
       (completes (offsetOf ToNumber (orDefault (num 1) page)
                     (orDefault (num 10) limit)) = true ->
        logged = e)).
Proof.
  intros Hc. unfold searchTrails, searchBody. rewrite Hc.
  destruct pool_connect as [[]|e0]; simpl.
  - destruct (offsetOf ToNumber _ _) as [offset|e1]; simpl.
    + exists searchError. repeat split. intros _. exists e. auto.
    + exists searchError. repeat split. intros _. exists e1.
      split; [reflexivity | discriminate].
  - exists e0. repeat split. discriminate.
Qed.

(** Once the offset is computed and the composition has succeeded, the count
    query is the first thing an acquired connection is asked. *)
Lemma first_event js_gt ToNumber jsToSqlFilters db_query getFullTrailsByIds
    (searchTerm page limit : value) (fs : option obj) (userId : value)
    (unit : option string) (sc : scope) :
  completes (offsetOf ToNumber (orDefault (num 1) page) (orDefault (num 10) limit)) =
    true ->
  compose js_gt ToNumber jsToSqlFilters searchTerm fs (default "Imperial" unit) =
    Normal sc ->
  hd_error (snd (searchTrails js_gt ToNumber jsToSqlFilters connected db_query
                   getFullTrailsByIds searchTerm page limit fs userId unit)) =
    Some (Query (countQuery sc) (params (bound sc))).
Proof.
  intros Hoff Hc. unfold searchTrails, connected, searchBody.
  destruct (offsetOf ToNumber _ _) as [offset|e]; [|discriminate].
  rewrite Hc.
  destruct (db_query (sql (countQuery sc)) _) as [[|first more]|e];
    try reflexivity.
  rewrite !addParam_token.
  destruct (db_query (sql (finalQuery sc _ _)) _) as [rows|e]; [|reflexivity].
  destruct (Nat.ltb 0 (length rows)); [|reflexivity].
  destruct (rowIds ToNumber rows) as [ids|e]; [|reflexivity].
  destruct (getFullTrailsByIds _ userId); reflexivity.
Qed.

Lemma sampleFilters_plain : plain_table sampleFilters.
Proof.
  intros k col H. apply elem_of_list_to_map_2 in H.
  repeat (apply elem_of_cons in H as [H|H]; [injection H as -> ->; reflexivity|]).
  inversion H.
Qed.

(** ** The claims *)

(** C8. Parameter binder. A call of [addParam] on a binder whose count is the
    length of its list appends the value as the last element and returns the
    1-based token [$N] for the new length [N], a text from which [N] is read
    back; a sequence of calls from the empty binder returns the tokens
    [$1 .. $n] and leaves the values in call order; and, the column texts of
    the lookup table holding no [$], the text of every statement
    [searchTrails] hands to the query engine carries exactly the tokens
    [$1 .. $n], in this order, for its [n] parameters, the text of the id
    fetch ending in the two paging tokens, which point at [limit] and at the
    offset computed from [page] and [limit]. *)
Theorem addParam_tokens_match_params
    js_gt ToNumber jsToSqlFilters pool_connect db_query getFullTrailsByIds
    (searchTerm page limit : value) (fs : option obj)
    (userId : value) (unit : option string) :
  (forall (b : binder) (v : value),
      paramCount b = length (params b) ->
      let '(p, b') := addParam v b in
      params b' = params b ++ [v] /\
      p = length (params b') /\
      paramCount b' = length (params b') /\
      params b' !! (p - 1) = Some v /\
      placeholder p = "$" +:+ decimal (length (params b')) /\
      placeholdersOf (placeholder p) = [length (params b')]) /\
  (forall vs : list value,
      let '(ps, b) := addParams vs no_params in
      ps = seq 1 (length vs) /\ params b = vs /\ paramCount b = length vs) /\
  (plain_table jsToSqlFilters ->
   forall (s : statement) (ps : list value),
      In (Query s ps)
         (snd (searchTrails js_gt ToNumber jsToSqlFilters pool_connect db_query
                 getFullTrailsByIds searchTerm page limit fs userId unit)) ->
      placeholdersOf (sql s) = seq 1 (length ps) /\
      forall limitParam offsetParam,
        paging s = Some (limitParam, offsetParam) ->
        sql s =
          (head s +:+ whereText (whereClause s)) +:+
          " LIMIT " +:+ placeholder limitParam +:+
          " OFFSET " +:+ placeholder offsetParam /\
        ps !! (limitParam - 1) = Some (orDefault (num 10) limit) /\
        exists offset,
          offsetOf ToNumber (orDefault (num 1) page) (orDefault (num 10) limit) =
            Normal offset /\
          ps !! (offsetParam - 1) = Some (VNum offset)).
Proof.
  split; [|split].
  - intros b v Hlen. rewrite addParam_token. cbn [params paramCount].
    rewrite length_app, <- Hlen. simpl.
    replace (paramCount b + 1) with (S (paramCount b)) by lia.
    repeat split; try lia.
    + rewrite Nat.sub_0_r, lookup_app_r by lia.
      rewrite Hlen, Nat.sub_diag. reflexivity.
    + unfold placeholdersOf.
      rewrite <- (append_nil_r (placeholder (S (paramCount b)))).
      apply scanTokens_placeholder. reflexivity.
  - intros vs. rewrite addParams_from. simpl. auto.
  - intros Htable s ps. unfold searchTrails.
    destruct pool_connect as [[]|e]; [|intros []].
    destruct (searchBody _ _ _ _ _ searchTerm _ _ fs userId _) as [[found|e] evs]
      eqn:Hbody; simpl; rewrite in_app_iff; simpl;
      (intros [Hin|Hin]; [|intuition discriminate]);
      (destruct (queries_aligned js_gt ToNumber jsToSqlFilters db_query
                   getFullTrailsByIds searchTerm (orDefault (num 1) page)
                   (orDefault (num 10) limit) fs userId (default "Imperial" unit)
                   s ps Htable) as [Htokens Hpaging];
       [rewrite Hbody; exact Hin|]);
      (split; [exact Htokens|]);
      intros limitParam offsetParam Hp;
      (split; [unfold sql; rewrite Hp, append_assoc; reflexivity|]);
      exact (Hpaging limitParam offsetParam Hp).
Qed.

Section Branches.

Variable js_gt : value -> value -> completion bool.
Variable ToNumber : value -> completion jsnum.
Variable jsToSqlFilters : gmap string string.

Lemma filterStep_elevation (unit key col : string) (sc : scope) :
  In key elevationKeys ->
  truthy (obj_get (filters sc) key) = true ->
  sqlKey jsToSqlFilters (key +:+ unit) = Some col ->
  filterStep js_gt ToNumber jsToSqlFilters unit key sc =
  Normal (emit (Compare col (inclusive key) (S (paramCount (bound sc))))
            {| params := params (bound sc) ++ [obj_get (filters sc) key];
               paramCount := S (paramCount (bound sc)) |}
            (filters sc) sc).
Proof.
  unfold elevationKeys. intros Hin Htruthy Hcol.
  repeat (destruct Hin as [<-|Hin]); try contradiction;
    unfold filterStep, addElevationFilters; simpl in *;
    rewrite Htruthy, Hcol; reflexivity.
Qed.

(** The single-sided branch of the distance builder. Both comparisons are
    on the column of the [min] key. *)
Lemma filterStep_distance_single (unit key cmin cmax : string) (sc : scope) :
  In key distanceKeys ->
  truthy (obj_get (filters sc) key) = true ->
  truthy (obj_get (filters sc) (pairedKey key unit)) = false ->
  sqlKey jsToSqlFilters ("minDistance" +:+ unit) = Some cmin ->
  sqlKey jsToSqlFilters ("maxDistance" +:+ unit) = Some cmax ->
  filterStep js_gt ToNumber jsToSqlFilters unit key sc =
  Normal (emit (Compare cmin (inclusive key) (S (paramCount (bound sc))))
            {| params := params (bound sc) ++ [obj_get (filters sc) key];
               paramCount := S (paramCount (bound sc)) |}
            (obj_delete key (filters sc)) sc).
Proof.
  unfold distanceKeys, pairedKey. intros Hin Hkey Hpair Hcmin Hcmax.
  repeat (destruct Hin as [<-|Hin]); try contradiction;
    unfold filterStep, addDistanceFilters;
    cbv [String.append] in *; simpl in *;
    rewrite Hkey, Hcmin, Hcmax; simpl;
    rewrite Hpair, !substring_0_0; reflexivity.
Qed.

(** The paired branch of the distance builder, where [>] answers. *)
Lemma filterStep_distance_pair (unit key cmin cmax : string) (sc : scope)
    (greater : bool) :
  In key distanceKeys ->
  truthy (obj_get (filters sc) key) = true ->
  truthy (obj_get (filters sc) (pairedKey key unit)) = true ->
  sqlKey jsToSqlFilters ("minDistance" +:+ unit) = Some cmin ->
  sqlKey jsToSqlFilters ("maxDistance" +:+ unit) = Some cmax ->
  js_gt (obj_get (filters sc) key) (obj_get (filters sc) (oppositeKey key)) =
    Normal greater ->
  let o1 := if greater then swapped key (filters sc) else filters sc in
  filterStep js_gt ToNumber jsToSqlFilters unit key sc =
  Normal (emit (Between (if String.prefix "min" key then cmin else cmax)
                  (S (paramCount (bound sc))) (S (S (paramCount (bound sc)))))
            {| params := (params (bound sc) ++ [obj_get o1 key])
                         ++ [obj_get o1 (oppositeKey key)];
               paramCount := S (S (paramCount (bound sc))) |}
            (obj_delete (oppositeKey key) (obj_delete key o1)) sc).
Proof.
  unfold distanceKeys, pairedKey, swapped, oppositeKey.
  intros Hin Hkey Hpair Hcmin Hcmax Hgt.
  repeat (destruct Hin as [<-|Hin]); try contradiction;
    unfold filterStep, addDistanceFilters;
    cbv [String.append] in *; simpl in *;
    rewrite Hkey, Hcmin, Hcmax; simpl;
    rewrite Hpair, !substring_0_0, Hgt; reflexivity.
Qed.

(** The paired branch of the distance builder, where [>] throws. *)
Lemma filterStep_distance_pair_throws (unit key cmin cmax : string) (sc : scope)
    (e : js_error) :
  In key distanceKeys ->
  truthy (obj_get (filters sc) key) = true ->
  truthy (obj_get (filters sc) (pairedKey key unit)) = true ->
  sqlKey jsToSqlFilters ("minDistance" +:+ unit) = Some cmin ->
  sqlKey jsToSqlFilters ("maxDistance" +:+ unit) = Some cmax ->
  js_gt (obj_get (filters sc) key) (obj_get (filters sc) (oppositeKey key)) =
    Throw e ->
  filterStep js_gt ToNumber jsToSqlFilters unit key sc = Throw e.
Proof.
  unfold distanceKeys, pairedKey, oppositeKey.
  intros Hin Hkey Hpair Hcmin Hcmax Hgt.
  repeat (destruct Hin as [<-|Hin]); try contradiction;
    unfold filterStep, addDistanceFilters;
    cbv [String.append] in *; simpl in *;
    rewrite Hkey, Hcmin, Hcmax; simpl;
    rewrite Hpair, !substring_0_0, Hgt; reflexivity.
Qed.

(** The filter loop never appends the text predicate. *)
Lemma filterStep_no_text (unit key : string) (sc sc' : scope) :
  forallb (fun f => negb (is_text f)) (clause sc) = true ->
  filterStep js_gt ToNumber jsToSqlFilters unit key sc = Normal sc' ->
  forallb (fun f => negb (is_text f)) (clause sc') = true.
Proof.
  intros Hno. unfold filterStep, addDistanceFilters, addElevationFilters, bind.
  repeat case_match; intros; simplify_eq; auto;
    unfold emit; cbn [clause]; rewrite forallb_app, Hno; reflexivity.
Qed.

Lemma filterLoop_no_text (unit : string) (keys : list string) (sc sc' : scope) :
  forallb (fun f => negb (is_text f)) (clause sc) = true ->
  filterLoop js_gt ToNumber jsToSqlFilters unit keys sc = Normal sc' ->
  forallb (fun f => negb (is_text f)) (clause sc') = true.
Proof.
  revert sc. induction keys as [|key rest IH]; simpl; intros sc Hno.
  - intros [= <-]. exact Hno.
  - destruct (filterStep _ _ _ unit key sc) as [sc1|e] eqn:Hstep; simpl;
      [|discriminate].
    apply IH. eapply filterStep_no_text; eauto.
Qed.

End Branches.

(** C3. Search term sanitizer on ["Cave & Falls!"]. The program splits on the
    space, drops the words that are empty after trimming, and only then
    strips the symbols: the word ["&"] passes the filter and is stripped to
    the empty word afterwards, so the joined expression is
    ["Cave &  & Falls"], with an empty token between the two connectives,
    and the bound parameter is ["%Cave &  & Falls%"]. *)
Theorem sanitizer_cave_falls :
  split " " "Cave & Falls!" = ["Cave"; "&"; "Falls!"] /\
  map strip_symbols
    (List.filter (fun word => negb (String.eqb (trim word) ""))
       (split " " "Cave & Falls!")) = ["Cave"; ""; "Falls"] /\
  sanitizedSearchTerm "Cave & Falls!" = "Cave &  & Falls" /\
  sanitizedSearchTerm "Cave & Falls!" <> "Cave & Falls" /\
  searchTermStep (VStr "Cave & Falls!") (start []) =
    Normal {| bound := {| params := [VStr "%Cave &  & Falls%"]; paramCount := 1 |};
              clause := [TextSearch 1];
              filters := [] |}.
Proof. repeat split; try reflexivity. vm_compute. discriminate. Qed.

(** C2, as the program has it. For each of the six elevation keys with a
    truthy value and a truthy lookup entry for the unit-qualified key,
    [filterStep] appends exactly one single-sided comparison, binding the raw
    value once: the operator is the inclusive [>=] for a [min] key and the
    inclusive [<=] for a [max] key, since the builder writes its [>] or [<]
    followed by [=]. *)
Theorem elevation_filter_is_inclusive
    js_gt ToNumber jsToSqlFilters (unit key col : string) (sc : scope) :
  In key elevationKeys ->
  truthy (obj_get (filters sc) key) = true ->
  sqlKey jsToSqlFilters (key +:+ unit) = Some col ->
  exists sc',
    filterStep js_gt ToNumber jsToSqlFilters unit key sc = Normal sc' /\
    clause sc' =
      clause sc ++
      [Compare col (if String.prefix "min" key then ">=" else "<=")
         (S (paramCount (bound sc)))] /\
    params (bound sc') = params (bound sc) ++ [obj_get (filters sc) key] /\
    paramCount (bound sc') = S (paramCount (bound sc)) /\
    filters sc' = filters sc.
Proof.
  intros Hin Htruthy Hcol. eexists. split.
  - apply filterStep_elevation; eassumption.
  - repeat split.
Qed.

Lemma elevation_filter_is_inclusive_witness :
  exists sc',
    filterStep sampleGt sampleNumber sampleFilters "Imperial" "maxElevationGain"
      (start [("maxElevationGain", num 500)]) = Normal sc' /\
    clause sc' = [Compare "ts.elevation_gain_imperial" "<=" 1] /\
    params (bound sc') = [num 500] /\
    paramCount (bound sc') = 1 /\
    filters sc' = [("maxElevationGain", num 500)].
Proof.
  apply (elevation_filter_is_inclusive sampleGt sampleNumber sampleFilters
           "Imperial" "maxElevationGain" "ts.elevation_gain_imperial"
           (start [("maxElevationGain", num 500)])).
  - simpl. tauto.
  - reflexivity.
  - reflexivity.
Defined.

(** C2 as stated fails: for [minElevation] the appended comparison is [>=],
    not the strict [>]. *)
Lemma elevation_min_not_strict :
  ~ exists col p,
      clauseOf (filterStep sampleGt sampleNumber sampleFilters "Imperial"
                  "minElevation" (start [("minElevation", num 1000)])) =
      [Compare col ">" p].
Proof. intros (col & p & H). vm_compute in H. discriminate. Qed.

(** C7, as the program has it. For every search term that is empty or absent
    (any falsy value: the empty string, null, undefined), the text step
    leaves the scope as it is, so no parameter is bound and no fragment is
    appended; the composition is that of the filter loop alone, and its WHERE
    clause holds no full-text fragment. *)
Theorem falsy_search_term_skips_text
    js_gt ToNumber jsToSqlFilters (searchTerm : value) (fs : option obj)
    (unit : string) (sc : scope) :
  truthy searchTerm = false ->
  searchTermStep searchTerm sc = Normal sc /\
  compose js_gt ToNumber jsToSqlFilters searchTerm fs unit =
    match fs with
    | Some o =>
        filterLoop js_gt ToNumber jsToSqlFilters unit (obj_keys o) (start o)
    | None => Normal (start [])
    end /\
  forall sc',
    compose js_gt ToNumber jsToSqlFilters searchTerm fs unit = Normal sc' ->
    forallb (fun f => negb (is_text f)) (clause sc') = true.
Proof.
  intros Hfalsy.
  assert (forall sc0, searchTermStep searchTerm sc0 = Normal sc0) as Hskip
    by (intros sc0; unfold searchTermStep; rewrite Hfalsy; reflexivity).
  assert (compose js_gt ToNumber jsToSqlFilters searchTerm fs unit =
          match fs with
          | Some o =>
              filterLoop js_gt ToNumber jsToSqlFilters unit (obj_keys o) (start o)
          | None => Normal (start [])
          end) as Hcompose.
  { unfold compose. rewrite Hskip. destruct fs; reflexivity. }
  split; [apply Hskip|]. split; [exact Hcompose|].
  intros sc'. rewrite Hcompose. destruct fs as [o|].
  - apply filterLoop_no_text. reflexivity.
  - intros [= <-]. reflexivity.
Qed.

Lemma falsy_search_term_skips_text_witness :
  searchTermStep (VStr "") (start []) = Normal (start []) /\
  compose sampleGt sampleNumber sampleFilters (VStr "") None "Imperial" =
    Normal (start []) /\
  forall sc',
    compose sampleGt sampleNumber sampleFilters (VStr "") None "Imperial" =
      Normal sc' ->
    forallb (fun f => negb (is_text f)) (clause sc') = true.
Proof.
  exact (falsy_search_term_skips_text sampleGt sampleNumber sampleFilters
           (VStr "") None "Imperial" (start []) eq_refl).
Defined.

(** C7 as stated fails: the term ["   "] is a non-empty string, hence truthy;
    the text step binds ["%%"] and appends the full-text fragment. *)
Lemma whitespace_search_term_binds :
  searchTermStep (VStr "   ") (start []) =
    Normal {| bound := {| params := [VStr "%%"]; paramCount := 1 |};
              clause := [TextSearch 1];
              filters := [] |} /\
  ~ (clauseOf (searchTermStep (VStr "   ") (start [])) = [] /\
     paramsOf (searchTermStep (VStr "   ") (start [])) = []).
Proof. split; [reflexivity|]. vm_compute. intros [H _]. discriminate. Qed.

(** C1, on the program. With the bounds under the keys [minDistance] and
    [maxDistance] the loop dispatches on, both truthy and both unit-qualified
    lookup entries present, the builder looks for the paired bound under the
    unit-qualified key, finds none, and takes its single-sided branch twice:
    the values are bound in the caller's order, unswapped, under one [>=] and
    one [<=] comparison, no BETWEEN is appended, and each turn deletes its
    own key. *)
Theorem unitless_distance_pair_not_swapped
    js_gt ToNumber jsToSqlFilters (unit cmin cmax : string) (vmin vmax : value) :
  unit <> "" ->
  truthy vmin = true ->
  truthy vmax = true ->
  sqlKey jsToSqlFilters ("minDistance" +:+ unit) = Some cmin ->
  sqlKey jsToSqlFilters ("maxDistance" +:+ unit) = Some cmax ->
  compose js_gt ToNumber jsToSqlFilters VNull
    (Some [("minDistance", vmin); ("maxDistance", vmax)]) unit =
  Normal {| bound := {| params := [vmin; vmax]; paramCount := 2 |};
            clause := [Compare cmin ">=" 1; Compare cmin "<=" 2];
            filters := [] |}.
Proof.
  intros Hunit Hmin Hmax Hcmin Hcmax.
  unfold compose. cbn [searchTermStep truthy bind default obj_keys map fst filterLoop].
  rewrite (filterStep_distance_single _ _ _ unit "minDistance" cmin cmax);
    [ | left; reflexivity | exact Hmin
      | destruct unit; [congruence|reflexivity] | exact Hcmin | exact Hcmax ].
  cbn [bind].
  rewrite (filterStep_distance_single _ _ _ unit "maxDistance" cmin cmax);
    [ reflexivity | right; left; reflexivity | exact Hmax | reflexivity
      | exact Hcmin | exact Hcmax ].
Qed.

Lemma unitless_distance_pair_not_swapped_witness :
  compose sampleGt sampleNumber sampleFilters VNull
    (Some [("minDistance", num 10); ("maxDistance", num 2)]) "Imperial" =
  Normal {| bound := {| params := [num 10; num 2]; paramCount := 2 |};
            clause := [Compare "ts.distance_imperial" ">=" 1;
                       Compare "ts.distance_imperial" "<=" 2];
            filters := [] |}.
Proof.
  apply (unitless_distance_pair_not_swapped sampleGt sampleNumber sampleFilters
           "Imperial" "ts.distance_imperial" "ts.distance_imperial"
           (num 10) (num 2)).
  - discriminate.
  - reflexivity.
  - reflexivity.
  - reflexivity.
  - reflexivity.
Defined.

(** ** What the loop keeps of the filter object *)

Section Features.

Variable js_gt : value -> value -> completion bool.
Variable ToNumber : value -> completion jsnum.
Variable jsToSqlFilters : gmap string string.

(** The distance builder touches the two bare distance keys only. *)
Lemma addDistanceFilters_keeps (key unit k : string) (o o1 : obj) (b b1 : binder)
    (f : fragment) :
  addDistanceFilters js_gt jsToSqlFilters key o b unit = Normal (f, o1, b1) ->
  k <> "minDistance" -> k <> "maxDistance" ->
  obj_get o1 k = obj_get o k.
Proof.
  unfold addDistanceFilters, bind.
  destruct (String.prefix "min" key); cbv [String.append]; simpl;
    rewrite ?substring_0_0;
    repeat case_match; intros; simplify_eq;
    rewrite !obj_get_delete_ne, ?obj_get_set_ne by congruence; reflexivity.
Qed.

(** The loop touches the two bare distance keys of the filter object only. *)
Lemma filterStep_keeps (unit key k : string) (sc sc' : scope) :
  filterStep js_gt ToNumber jsToSqlFilters unit key sc = Normal sc' ->
  k <> "minDistance" -> k <> "maxDistance" ->
  obj_get (filters sc') k = obj_get (filters sc) k.
Proof.
  unfold filterStep, addElevationFilters.
  destruct (includes distanceKeys key) eqn:Hd.
  - repeat case_match; intros; simplify_eq; try reflexivity.
    destruct (addDistanceFilters _ _ _ _ _ _) as [[[f o1] b1]|e] eqn:Hdist;
      simpl in *; simplify_eq.
    unfold emit. cbn [filters]. eapply addDistanceFilters_keeps; eassumption.
  - unfold bind. repeat case_match; intros; simplify_eq; reflexivity.
Qed.

Lemma filterStep_features_kept (unit key : string) (sc sc' : scope) :
  filterStep js_gt ToNumber jsToSqlFilters unit key sc = Normal sc' ->
  obj_get (filters sc') "features" = obj_get (filters sc) "features".
Proof.
  intros Hstep. eapply filterStep_keeps; [exact Hstep | discriminate | discriminate].
Qed.

Lemma filterLoop_features_throw (unit : string) (keys : list string) (sc : scope) :
  In "features" keys ->
  isArray (obj_get (filters sc) "features") = false ->
  exists e, filterLoop js_gt ToNumber jsToSqlFilters unit keys sc = Throw e.
Proof.
  revert sc. induction keys as [|key rest IH]; intros sc Hin Harr; [destruct Hin|].
  simpl.
  destruct (filterStep _ _ _ unit key sc) as [sc1|e] eqn:Hstep; simpl;
    [|exists e; reflexivity].
  destruct Hin as [->|Hin].
  - exfalso. revert Hstep. unfold filterStep. simpl.
    destruct (obj_get (filters sc) "features"); discriminate.
  - apply IH; [exact Hin|].
    rewrite (filterStep_features_kept _ _ _ _ Hstep). exact Harr.
Qed.

Lemma compose_features_throw (searchTerm : value) (o : obj) (unit : string) :
  In "features" (obj_keys o) ->
  isArray (obj_get o "features") = false ->
  exists e, compose js_gt ToNumber jsToSqlFilters searchTerm (Some o) unit = Throw e.
Proof.
  intros Hin Harr. unfold compose, searchTermStep.
  destruct (truthy searchTerm); [destruct searchTerm|]; simpl;
    try (eexists; reflexivity);
    apply filterLoop_features_throw; assumption.
Qed.

End Features.

Lemma qualified_key_unstructured (bare suffix : string) :
  In bare distanceKeys -> suffix <> "" ->
  includes structuredKeys (bare +:+ suffix) = false.
Proof.
  unfold distanceKeys. intros Hin Hsuffix.
  destruct suffix as [|c u]; [congruence|].
  repeat (destruct Hin as [<-|Hin]); try contradiction; reflexivity.
Qed.

Lemma includes_distanceKeys (key : string) :
  includes distanceKeys key = true -> In key distanceKeys.
Proof.
  unfold includes, distanceKeys. cbn [existsb]. intros H.
  apply orb_true_iff in H as [H|H]; [left|right; left].
  - apply String.eqb_eq in H. congruence.
  - rewrite orb_false_r in H. apply String.eqb_eq in H. congruence.
Qed.

Lemma clause_not_extended (sc : scope) (f : fragment) :
  clause sc <> clause sc ++ [f].
Proof.
  intros H. apply (f_equal length) in H. rewrite length_app in H. simpl in H. lia.
Qed.

Lemma thinned_refl (o : obj) : thinned o o.
Proof. intros k. left. reflexivity. Qed.

Lemma thinned_trans (o f g : obj) : thinned o f -> thinned f g -> thinned o g.
Proof.
  intros Hof Hfg k. destruct (Hfg k) as [H|H]; [|right; exact H].
  rewrite H. apply Hof.
Qed.

Lemma thinned_truthy (o f : obj) (k : string) :
  thinned o f -> truthy (obj_get f k) = true -> obj_get f k = obj_get o k.
Proof.
  intros Hof Ht. destruct (Hof k) as [H|H]; [exact H|].
  rewrite H in Ht. discriminate.
Qed.

Section Between.

Variable js_gt : value -> value -> completion bool.
Variable ToNumber : value -> completion jsnum.
Variable jsToSqlFilters : gmap string string.

Ltac not_between H :=
  first [ apply clause_not_extended in H; contradiction
        | unfold emit in H; cbn [clause] in H; apply app_inv_head in H;
          discriminate ].

Lemma between_is_distance (unit key col : string) (lo hi : nat) (sc sc' : scope) :
  filterStep js_gt ToNumber jsToSqlFilters unit key sc = Normal sc' ->
  clause sc' = clause sc ++ [Between col lo hi] ->
  includes distanceKeys key = true.
Proof.
  destruct (includes distanceKeys key) eqn:Hd; [reflexivity|].
  unfold filterStep, addElevationFilters, bind. rewrite Hd.
  repeat case_match; intros Hstep Hclause; simplify_eq; not_between Hclause.
Qed.

Lemma between_needs_both (unit key col : string) (lo hi : nat) (sc sc' : scope) :
  In key distanceKeys ->
  filterStep js_gt ToNumber jsToSqlFilters unit key sc = Normal sc' ->
  clause sc' = clause sc ++ [Between col lo hi] ->
  truthy (obj_get (filters sc) key) = true /\
  truthy (obj_get (filters sc) (pairedKey key unit)) = true.
Proof.
  unfold distanceKeys, pairedKey. intros Hin.
  repeat (destruct Hin as [<-|Hin]); try contradiction;
    unfold filterStep, addDistanceFilters, bind;
    cbv [String.append]; simpl;
    repeat case_match; intros Hstep Hclause; simplify_eq;
    try not_between Hclause.
  all: split; try reflexivity; try assumption;
    apply negb_false_iff; assumption.
Qed.

(** The distance builder only deletes: afterwards each field of the filter
    object is what it was or gone. *)
Lemma addDistanceFilters_thinned (key unit : string) (o o1 : obj) (b b1 : binder)
    (f : fragment) :
  addDistanceFilters js_gt jsToSqlFilters key o b unit = Normal (f, o1, b1) ->
  thinned o o1.
Proof.
  unfold addDistanceFilters, bind.
  destruct (String.prefix "min" key); cbv [String.append]; simpl;
    rewrite ?substring_0_0;
    repeat case_match; intros; simplify_eq; intros k;
    destruct (String.eqb_spec k "minDistance") as [Hmin|Hmin];
    destruct (String.eqb_spec k "maxDistance") as [Hmax|Hmax];
    try congruence; subst;
    rewrite ?obj_get_delete_same;
    rewrite ?(obj_get_delete_ne "maxDistance" "minDistance") by discriminate;
    rewrite ?(obj_get_delete_ne "minDistance" "maxDistance") by discriminate;
    rewrite ?obj_get_delete_same;
    rewrite ?obj_get_delete_ne, ?obj_get_set_ne by congruence;
    auto.
Qed.

Lemma filterStep_thinned (unit key : string) (sc sc' : scope) :
  filterStep js_gt ToNumber jsToSqlFilters unit key sc = Normal sc' ->
  thinned (filters sc) (filters sc').
Proof.
  unfold filterStep, addElevationFilters.
  destruct (includes distanceKeys key) eqn:Hd.
  - repeat case_match; intros; simplify_eq; try apply thinned_refl.
    destruct (addDistanceFilters _ _ _ _ _ _) as [[[f o1] b1]|e] eqn:Hdist;
      simpl in *; simplify_eq.
    unfold emit. cbn [filters]. eapply addDistanceFilters_thinned. exact Hdist.
  - unfold bind. repeat case_match; intros; simplify_eq; apply thinned_refl.
Qed.

Lemma filterStep_clause (unit key : string) (sc sc' : scope) :
  filterStep js_gt ToNumber jsToSqlFilters unit key sc = Normal sc' ->
  clause sc' = clause sc \/ exists f, clause sc' = clause sc ++ [f].
Proof.
  unfold filterStep, addDistanceFilters, addElevationFilters, bind.
  repeat case_match; intros; simplify_eq; auto; right; eexists; reflexivity.
Qed.

Lemma filterLoop_between (unit : string) (keys : list string) (o : obj)
    (sc sc' : scope) :
  thinned o (filters sc) ->
  (forall col lo hi, In (Between col lo hi) (clause sc) -> bothBounds o unit) ->
  filterLoop js_gt ToNumber jsToSqlFilters unit keys sc = Normal sc' ->
  forall col lo hi, In (Between col lo hi) (clause sc') -> bothBounds o unit.
Proof.
  revert sc. induction keys as [|key rest IH]; simpl; intros sc Hthin Hold.
  - intros [= <-]. exact Hold.
  - destruct (filterStep _ _ _ unit key sc) as [sc1|e] eqn:Hstep; simpl;
      [|discriminate].
    apply IH.
    + eapply thinned_trans; [exact Hthin|]. eapply filterStep_thinned. exact Hstep.
    + intros col lo hi Hin.
      destruct (filterStep_clause _ _ _ _ Hstep) as [Hsame|[f Hmore]].
      * rewrite Hsame in Hin. eapply Hold. exact Hin.
      * rewrite Hmore in Hin. apply in_app_iff in Hin as [Hin|[->|[]]].
        { eapply Hold. exact Hin. }
        pose proof (includes_distanceKeys _
                      (between_is_distance _ _ _ _ _ _ _ Hstep Hmore)) as Hkey.
        destruct (between_needs_both _ _ _ _ _ _ _ Hkey Hstep Hmore) as [Ht Hp].
        exists key.
        rewrite <- (thinned_truthy _ _ _ Hthin Ht).
        rewrite <- (thinned_truthy _ _ _ Hthin Hp).
        repeat split; auto;
          apply obj_has_get, truthy_defined;
          first [ rewrite <- (thinned_truthy _ _ _ Hthin Ht); exact Ht
                | rewrite <- (thinned_truthy _ _ _ Hthin Hp); exact Hp ].
Qed.

Lemma compose_between (searchTerm : value) (fs : option obj) (unit : string)
    (sc : scope) (col : string) (lo hi : nat) :
  compose js_gt ToNumber jsToSqlFilters searchTerm fs unit = Normal sc ->
  In (Between col lo hi) (clause sc) ->
  exists o, fs = Some o /\ bothBounds o unit.
Proof.
  unfold compose.
  destruct (searchTermStep searchTerm _) as [sc1|e] eqn:Hterm; simpl;
    [|discriminate].
  assert (filters sc1 = default [] fs /\
          forall c l h, ~ In (Between c l h) (clause sc1)) as [Hf Hnone].
  { revert Hterm. unfold searchTermStep.
    destruct (truthy searchTerm); [destruct searchTerm|]; try discriminate;
      intros [= <-]; (split; [reflexivity|]); simpl; intuition discriminate. }
  destruct fs as [o|].
  - intros Hloop Hin. exists o. split; [reflexivity|].
    eapply (filterLoop_between unit (obj_keys o) o sc1); try eassumption.
    + rewrite Hf. apply thinned_refl.
    + intros c l h H. destruct (Hnone c l h H).
  - intros [= <-] Hin. destruct (Hnone _ _ _ Hin).
Qed.

(** A run of keys outside the structured ones, on values [Number] converts:
    one plain equality for each key the table has a column for. *)
Lemma filterLoop_generic (unit : string) (keys : list string) (sc : scope) :
  (forall key, In key keys -> includes structuredKeys key = false) ->
  (forall key, In key keys -> sqlKey jsToSqlFilters key <> None ->
               completes (ToNumber (obj_get (filters sc) key)) = true) ->
  filterLoop js_gt ToNumber jsToSqlFilters unit keys sc =
  Normal (withEqualities sc (columnsOf jsToSqlFilters (filters sc) keys)).
Proof.
  revert sc. induction keys as [|key rest IH]; intros sc Hkeys Hnum.
  - unfold withEqualities. simpl. rewrite app_nil_r, app_nil_r, Nat.add_0_r.
    destruct sc as [[ps n] cl f]. reflexivity.
  - cbn [filterLoop columnsOf].
    rewrite filterStep_generic by (apply Hkeys; left; reflexivity).
    destruct (sqlKey jsToSqlFilters key) as [col|] eqn:Hcol.
    + assert (completes (ToNumber (obj_get (filters sc) key)) = true) as Hconv
        by (apply Hnum; [left; reflexivity | rewrite Hcol; discriminate]).
      destruct (ToNumber (obj_get (filters sc) key)) as [n|e]; [|discriminate].
      cbn [bind]. rewrite IH.
      * unfold withEqualities, emit. cbn [bound clause filters params paramCount
                                          map fst snd length equalities].
        rewrite <- !app_assoc. cbn [app]. do 3 f_equal. lia.
      * intros k Hk. apply Hkeys. right. exact Hk.
      * intros k Hk. apply Hnum. right. exact Hk.
    + cbn [bind]. apply IH.
      * intros k Hk. apply Hkeys. right. exact Hk.
      * intros k Hk. apply Hnum. right. exact Hk.
Qed.

(** A turn only appends: to the clause and to the parameters. *)
Lemma filterStep_extends (unit key : string) (sc sc' : scope) :
  filterStep js_gt ToNumber jsToSqlFilters unit key sc = Normal sc' ->
  (exists fs, clause sc' = clause sc ++ fs) /\
  (exists vs, params (bound sc') = params (bound sc) ++ vs).
Proof.
  unfold filterStep, addDistanceFilters, addElevationFilters, bind.
  repeat case_match; intros;
    repeat match goal with
           | H : addParam _ _ = _ |- _ => rewrite addParam_token in H
           end;
    simplify_eq; split; unfold emit; cbn [clause bound params];
    first [ exists []; rewrite app_nil_r; reflexivity
          | eexists; reflexivity
          | eexists; rewrite <- app_assoc; reflexivity ].
Qed.

Lemma filterLoop_extends (unit : string) (keys : list string) (sc sc' : scope) :
  filterLoop js_gt ToNumber jsToSqlFilters unit keys sc = Normal sc' ->
  (exists fs, clause sc' = clause sc ++ fs) /\
  (exists vs, params (bound sc') = params (bound sc) ++ vs).
Proof.
  revert sc. induction keys as [|key rest IH]; simpl; intros sc.
  - intros [= <-]. split; exists []; rewrite app_nil_r; reflexivity.
  - destruct (filterStep _ _ _ unit key sc) as [sc1|e] eqn:Hstep; simpl;
      [|discriminate].
    intros Hloop.
    destruct (filterStep_extends _ _ _ _ Hstep) as [[fs1 Hf1] [vs1 Hv1]].
    destruct (IH _ Hloop) as [[fs2 Hf2] [vs2 Hv2]].
    split; [exists (fs1 ++ fs2) | exists (vs1 ++ vs2)].
    + rewrite Hf2, Hf1, <- app_assoc. reflexivity.
    + rewrite Hv2, Hv1, <- app_assoc. reflexivity.
Qed.

(** Every key outside the structured ones that has a column leaves its
    plain equality in the clause of a loop that completes, bound to the
    value the filter object holds under the key. *)
Lemma filterLoop_handles (unit : string) (keys : list string) (sc sc' : scope)
    (key col : string) :
  In key keys ->
  includes structuredKeys key = false ->
  sqlKey jsToSqlFilters key = Some col ->
  aligned sc ->
  filterLoop js_gt ToNumber jsToSqlFilters unit keys sc = Normal sc' ->
  exists p,
    In (Equals col p) (clause sc') /\
    params (bound sc') !! (p - 1) = Some (obj_get (filters sc) key).
Proof.
  intros Hin Hkey Hcol. revert sc.
  induction keys as [|key0 rest IH]; [destruct Hin|]. intros sc Hal. simpl.
  destruct (filterStep _ _ _ unit key0 sc) as [sc1|e] eqn:Hstep; simpl;
    [|discriminate].
  intros Hloop.
  destruct (String.eqb_spec key0 key) as [->|Hne].
  - rewrite filterStep_generic, Hcol in Hstep by exact Hkey.
    destruct (ToNumber (obj_get (filters sc) key)) as [n|e]; [|discriminate].
    injection Hstep as <-.
    destruct (filterLoop_extends _ _ _ _ Hloop) as [[fs Hf] [vs Hv]].
    exists (S (paramCount (bound sc))). split.
    + rewrite Hf. unfold emit. cbn [clause].
      apply in_or_app. left. apply in_or_app. right. left. reflexivity.
    + rewrite Hv. unfold emit. cbn [bound params].
      destruct Hal as [Hlen _]. rewrite Hlen. simpl. rewrite Nat.sub_0_r.
      rewrite lookup_app_l by (rewrite length_app; simpl; lia).
      rewrite lookup_app_r by lia. rewrite Nat.sub_diag. reflexivity.
  - destruct Hin as [Heq|Hin]; [contradiction|].
    destruct (IH Hin sc1 (filterStep_aligned _ _ _ _ _ _ _ Hal Hstep) Hloop)
      as (p & Hp & Hv).
    exists p. split; [exact Hp|]. rewrite Hv. f_equal.
    apply unstructured_tests in Hkey as (_ & _ & _ & Hdist & _).
    eapply filterStep_keeps; [exact Hstep | |];
      intros ->; discriminate.
Qed.

Lemma compose_handles (searchTerm : value) (o : obj) (unit : string) (sc : scope)
    (key col : string) :
  In key (obj_keys o) ->
  includes structuredKeys key = false ->
  sqlKey jsToSqlFilters key = Some col ->
  compose js_gt ToNumber jsToSqlFilters searchTerm (Some o) unit = Normal sc ->
  exists p,
    In (Equals col p) (clause sc) /\
    params (bound sc) !! (p - 1) = Some (obj_get o key).
Proof.
  intros Hin Hkey Hcol. unfold compose.
  destruct (searchTermStep searchTerm _) as [sc1|e] eqn:Hterm; simpl;
    [|discriminate].
  assert (filters sc1 = o) as Hf.
  { revert Hterm. unfold searchTermStep.
    destruct (truthy searchTerm); [destruct searchTerm|]; try discriminate;
      intros [= <-]; reflexivity. }
  intros Hloop. rewrite <- Hf.
  eapply filterLoop_handles; try eassumption.
  eapply searchTermStep_aligned; [apply aligned_start | exact Hterm].
Qed.

End Between.

(** Every statement of a run carries the plain equality of each key outside
    the structured ones that has a column, bound to the caller's value. *)
Lemma query_handles js_gt ToNumber jsToSqlFilters pool_connect db_query
    getFullTrailsByIds (searchTerm page limit : value) (o : obj)
    (userId : value) (unit : option string) (s : statement) (ps : list value)
    (key col : string) :
  In (Query s ps)
     (snd (searchTrails js_gt ToNumber jsToSqlFilters pool_connect db_query
             getFullTrailsByIds searchTerm page limit (Some o) userId unit)) ->
  In key (obj_keys o) ->
  includes structuredKeys key = false ->
  sqlKey jsToSqlFilters key = Some col ->
  exists p,
    In (Equals col p) (whereClause s) /\
    ps !! (p - 1) = Some (obj_get o key).
Proof.
  intros Hin Hkey Hun Hcol.
  apply query_clause in Hin as (sc & Hc & -> & paging & ->).
  destruct (compose_handles _ _ _ _ _ _ _ _ _ Hkey Hun Hcol Hc) as (p & Hp & Hv).
  exists p. split; [exact Hp|].
  rewrite lookup_app_l by (eapply lookup_lt_Some; exact Hv). exact Hv.
Qed.

(** C10. Unit-qualified distance keys. A key made of [minDistance] or
    [maxDistance] and a non-empty unit suffix is none of the keys the loop
    dispatches by name: its turn is that of the generic branch, which leaves
    the scope untouched when the lookup table has no truthy entry for the
    key, binds the value under a plain equality when it has one and [Number]
    converts the value, and throws when [Number] throws. For a filter object
    made of such keys only, on values [Number] converts, the whole
    composition appends, after what the search term contributed, exactly
    one plain equality per key that has a column, in key order, and never a
    range predicate; this is the clause of the count query [searchTrails]
    issues first. In every run of [searchTrails], on any filter object, each
    statement handed to the query engine carries, for every such key that
    has a column, its plain equality bound to the caller's value; and a
    statement carries a BETWEEN fragment only if the caller's filter object
    holds, both with truthy values, a bare distance key and the
    unit-qualified opposite key. *)
Theorem unit_qualified_distance_keys_are_generic
    js_gt ToNumber jsToSqlFilters (unit : string) :
  (forall (sc : scope) (key : string),
      qualifiedDistanceKey key ->
      includes distanceKeys key = false /\
      (sqlKey jsToSqlFilters key = None ->
       filterStep js_gt ToNumber jsToSqlFilters unit key sc = Normal sc) /\
      (forall (col : string) (n : jsnum),
          sqlKey jsToSqlFilters key = Some col ->
          ToNumber (obj_get (filters sc) key) = Normal n ->
          filterStep js_gt ToNumber jsToSqlFilters unit key sc =
          Normal (emit (Equals col (S (paramCount (bound sc))))
                    {| params := params (bound sc) ++ [obj_get (filters sc) key];
                       paramCount := S (paramCount (bound sc)) |}
                    (filters sc) sc)) /\
      (forall (col : string) (e : js_error),
          sqlKey jsToSqlFilters key = Some col ->
          ToNumber (obj_get (filters sc) key) = Throw e ->
          filterStep js_gt ToNumber jsToSqlFilters unit key sc = Throw e)) /\
  (forall (searchTerm : value) (o : obj) (sc1 : scope),
      Forall qualifiedDistanceKey (obj_keys o) ->
      (forall key, In key (obj_keys o) -> sqlKey jsToSqlFilters key <> None ->
                   completes (ToNumber (obj_get o key)) = true) ->
      searchTermStep searchTerm (start o) = Normal sc1 ->
      let sc := withEqualities sc1 (columnsOf jsToSqlFilters o (obj_keys o)) in
      compose js_gt ToNumber jsToSqlFilters searchTerm (Some o) unit = Normal sc /\
      forall db_query getFullTrailsByIds (page limit userId : value),
        completes (offsetOf ToNumber (orDefault (num 1) page)
                     (orDefault (num 10) limit)) = true ->
        hd_error
          (snd (searchTrails js_gt ToNumber jsToSqlFilters connected db_query
                  getFullTrailsByIds searchTerm page limit (Some o) userId
                  (Some unit))) =
        Some (Query (countQuery sc) (params (bound sc)))) /\
  (forall pool_connect db_query getFullTrailsByIds
          (searchTerm page limit : value) (o : obj) (userId : value)
          (s : statement) (ps : list value) (key col : string),
      In (Query s ps)
         (snd (searchTrails js_gt ToNumber jsToSqlFilters pool_connect db_query
                 getFullTrailsByIds searchTerm page limit (Some o) userId
                 (Some unit))) ->
      In key (obj_keys o) ->
      qualifiedDistanceKey key ->
      sqlKey jsToSqlFilters key = Some col ->
      exists p,
        In (Equals col p) (whereClause s) /\
        ps !! (p - 1) = Some (obj_get o key)) /\
  (forall pool_connect db_query getFullTrailsByIds
          (searchTerm page limit : value) (fs : option obj) (userId : value)
          (s : statement) (ps : list value) (col : string) (lo hi : nat),
      In (Query s ps)
         (snd (searchTrails js_gt ToNumber jsToSqlFilters pool_connect db_query
                 getFullTrailsByIds searchTerm page limit fs userId (Some unit))) ->
      In (Between col lo hi) (whereClause s) ->
      exists o, fs = Some o /\ bothBounds o unit).
Proof.
  split; [|split; [|split]].
  - intros sc key (bare & suffix & Hbare & Hsuffix & ->).
    pose proof (qualified_key_unstructured bare suffix Hbare Hsuffix) as Hkey.
    split; [apply unstructured_tests in Hkey; tauto|].
    rewrite filterStep_generic by exact Hkey.
    split; [intros ->; reflexivity|].
    split; intros col x -> ->; reflexivity.
  - intros searchTerm o sc1 Hkeys Hnum Hterm.
    assert (filters sc1 = o) as Hfilters.
    { revert Hterm. unfold searchTermStep.
      destruct (truthy searchTerm); [destruct searchTerm|]; try discriminate;
        intros [= <-]; reflexivity. }
    assert (compose js_gt ToNumber jsToSqlFilters searchTerm (Some o) unit =
            Normal (withEqualities sc1 (columnsOf jsToSqlFilters o (obj_keys o))))
      as Hc.
    { unfold start in Hterm. unfold compose.
      change (default [] (Some o)) with o. rewrite Hterm. cbn [bind].
      rewrite filterLoop_generic, Hfilters; [reflexivity | |].
      - intros key Hin.
        apply (proj1 (List.Forall_forall _ _) Hkeys) in Hin
          as (bare & suffix & Hbare & Hsuffix & ->).
        apply qualified_key_unstructured; assumption.
      - rewrite Hfilters. exact Hnum. }
    cbv zeta. split; [exact Hc|].
    intros db_query getFullTrailsByIds page limit userId Hoff.
    apply first_event; assumption.
  - intros pool_connect db_query getFullTrailsByIds searchTerm page limit o
      userId s ps key col Hin Hkey (bare & suffix & Hbare & Hsuffix & ->) Hcol.
    eapply query_handles; try eassumption.
    apply qualified_key_unstructured; assumption.
  - intros pool_connect db_query getFullTrailsByIds searchTerm page limit fs
      userId s ps col lo hi Hin Hbetween.
    apply query_clause in Hin as (sc & Hc & Hclause & _).
    rewrite Hclause in Hbetween.
    eapply compose_between; eassumption.
Qed.

Lemma unit_qualified_distance_keys_are_generic_witness :
  compose sampleGt sampleNumber sampleFilters (VStr "Trail")
    (Some [("minDistanceImperial", num 2); ("maxDistanceImperial", num 10)])
    "Imperial" =
  Normal {| bound := {| params := [VStr "%Trail%"; num 2; num 10]; paramCount := 3 |};
            clause := [TextSearch 1; Equals "ts.distance_imperial" 2;
                       Equals "ts.distance_imperial" 3];
            filters := [("minDistanceImperial", num 2);
                        ("maxDistanceImperial", num 10)] |} /\
  exists o,
    Some [("minDistance", num 10); ("maxDistanceImperial", num 2)] = Some o /\
    bothBounds o "Imperial".
Proof.
  pose proof (unit_qualified_distance_keys_are_generic sampleGt sampleNumber
                sampleFilters "Imperial") as (_ & Hloop & _ & Hbetween).
  split.
  - refine (proj1 (Hloop (VStr "Trail")
                     [("minDistanceImperial", num 2); ("maxDistanceImperial", num 10)]
                     _ _ _ eq_refl)).
    + repeat constructor.
      * exists "minDistance", "Imperial".
        split; [left; reflexivity|]. split; [discriminate | reflexivity].
      * exists "maxDistance", "Imperial".
        split; [right; left; reflexivity|]. split; [discriminate | reflexivity].
    + intros key [<-|[<-|[]]] _; reflexivity.
  - apply (Hbetween connected emptyPageDb sampleHydrate VNull VUndefined VUndefined
             (Some [("minDistance", num 10); ("maxDistanceImperial", num 2)])
             VNull
             (countQuery
                {| bound := {| params := [num 10; VUndefined; num 2];
                               paramCount := 3 |};
                   clause := [Between "ts.distance_imperial" 1 2;
                              Equals "ts.distance_imperial" 3];
                   filters := [("maxDistanceImperial", num 2)] |})
             [num 10; VUndefined; num 2] "ts.distance_imperial" 1 2).
    + apply (nth_error_In _ 0). vm_compute. reflexivity.
    + left. reflexivity.
Defined.

(** C4. Generic equality branch. For a key outside the structured ones whose
    lookup entry is truthy, [filterStep] binds the raw value and, whatever
    number [Number] converts the value to, appends the plain equality
    [AND col = $N]: the test [Number(v) != NaN] holds of every number, so
    the lower-casing alternative [AND LOWER (col) = $N] is never appended,
    not even for a string that is not numeric. When [Number] throws on the
    value, the turn throws that error. In every run of [searchTrails] whose
    filter object has the key, each statement handed to the query engine
    carries that plain equality, bound to the caller's value; and no
    statement, on any input, carries the lower-casing equality. *)
Theorem generic_filter_never_lowercases
    js_gt ToNumber jsToSqlFilters (unit key col : string) (sc : scope) :
  includes structuredKeys key = false ->
  sqlKey jsToSqlFilters key = Some col ->
  (forall n : jsnum,
      ToNumber (obj_get (filters sc) key) = Normal n ->
      filterStep js_gt ToNumber jsToSqlFilters unit key sc =
        Normal (emit (Equals col (S (paramCount (bound sc))))
                  {| params := params (bound sc) ++ [obj_get (filters sc) key];
                     paramCount := S (paramCount (bound sc)) |}
                  (filters sc) sc)) /\
  (forall e : js_error,
      ToNumber (obj_get (filters sc) key) = Throw e ->
      filterStep js_gt ToNumber jsToSqlFilters unit key sc = Throw e) /\
  (forall (p : nat) (b : binder) (o : obj),
      filterStep js_gt ToNumber jsToSqlFilters unit key sc <>
      Normal (emit (EqualsLower col p) b o sc)) /\
  (forall pool_connect db_query getFullTrailsByIds
          (searchTerm page limit : value) (o : obj) (userId : value)
          (u : option string) (s : statement) (ps : list value),
      In (Query s ps)
         (snd (searchTrails js_gt ToNumber jsToSqlFilters pool_connect db_query
                 getFullTrailsByIds searchTerm page limit (Some o) userId u)) ->
      In key (obj_keys o) ->
      exists p,
        In (Equals col p) (whereClause s) /\
        ps !! (p - 1) = Some (obj_get o key)) /\
  (forall pool_connect db_query getFullTrailsByIds
          (searchTerm page limit : value) (fs : option obj) (userId : value)
          (u : option string) (s : statement) (ps : list value),
      In (Query s ps)
         (snd (searchTrails js_gt ToNumber jsToSqlFilters pool_connect db_query
                 getFullTrailsByIds searchTerm page limit fs userId u)) ->
      forallb (fun f => negb (is_lower f)) (whereClause s) = true).
Proof.
  intros Hkey Hcol. rewrite filterStep_generic, Hcol by exact Hkey.
  split; [|split; [|split; [|split]]].
  - intros n ->. reflexivity.
  - intros e ->. reflexivity.
  - intros p b o H.
    destruct (ToNumber (obj_get (filters sc) key)); simpl in H; [|discriminate].
    apply (f_equal clauseOf) in H. simpl in H.
    apply app_inv_head in H. discriminate.
  - intros pool_connect db_query getFullTrailsByIds searchTerm page limit o
      userId u s ps Hin Hown.
    eapply query_handles; eassumption.
  - intros pool_connect db_query getFullTrailsByIds searchTerm page limit fs
      userId u s ps Hin.
    apply query_clause in Hin as (sc0 & Hc & -> & _).
    eapply compose_no_lower. exact Hc.
Qed.

Lemma generic_filter_never_lowercases_witness :
  filterStep sampleGt sampleNumber sampleFilters "Imperial" "city"
    (start [("city", VStr "Huntsville")]) =
  Normal {| bound := {| params := [VStr "Huntsville"]; paramCount := 1 |};
            clause := [Equals "t.city" 1];
            filters := [("city", VStr "Huntsville")] |}.
Proof.
  exact (proj1 (generic_filter_never_lowercases sampleGt sampleNumber
                  sampleFilters "Imperial" "city" "t.city"
                  (start [("city", VStr "Huntsville")])
                  eq_refl eq_refl) NaN eq_refl).
Defined.



(** C5, on the program. With a falsy search term and a filter object whose
    only key is [features] with a value that is not an array, the validation
    error is raised before any query is issued, but inside the [try] block:
    the [catch] logs what it caught (the validation error, when the offset
    arithmetic of line 59 has not thrown before it) and throws the same
    generic error it throws for a failed query. In every run on an acquired
    connection, whatever is thrown to the caller is that one generic error,
    after the original one has been logged and the connection released. *)
Theorem validation_error_is_rewrapped
    js_gt ToNumber jsToSqlFilters db_query getFullTrailsByIds
    (searchTerm page limit : value) (userId : value)
    (unit : option string) (v : value) :
  truthy searchTerm = false ->
  isArray v = false ->
  (exists logged,
      searchTrails js_gt ToNumber jsToSqlFilters connected db_query
        getFullTrailsByIds searchTerm page limit (Some [("features", v)]) userId
        unit =
      (Throw searchError, [ConsoleError logged; Release]) /\
      (completes (offsetOf ToNumber (orDefault (num 1) page)
                    (orDefault (num 10) limit)) = true ->
       logged = featuresError)) /\
  (forall (term : value) (fs : option obj) (sc : scope) (e : js_error),
      completes (offsetOf ToNumber (orDefault (num 1) page)
                   (orDefault (num 10) limit)) = true ->
      compose js_gt ToNumber jsToSqlFilters term fs (default "Imperial" unit) =
        Normal sc ->
      db_query (sql (countQuery sc)) (params (bound sc)) = QFail e ->
      searchTrails js_gt ToNumber jsToSqlFilters connected db_query
        getFullTrailsByIds term page limit fs userId unit =
      (Throw searchError,
       [Query (countQuery sc) (params (bound sc)); ConsoleError e; Release])) /\
  (forall (term : value) (fs : option obj) (err : js_error),
      fst (searchTrails js_gt ToNumber jsToSqlFilters connected db_query
             getFullTrailsByIds term page limit fs userId unit) = Throw err ->
      err = searchError /\
      exists e evs,
        snd (searchTrails js_gt ToNumber jsToSqlFilters connected db_query
               getFullTrailsByIds term page limit fs userId unit) =
        evs ++ [ConsoleError e; Release]).
Proof.
  intros Hfalsy Harray. split; [|split].
  - destruct (compose_throw_run js_gt ToNumber jsToSqlFilters connected db_query
                getFullTrailsByIds searchTerm page limit
                (Some [("features", v)]) userId unit featuresError)
      as (err & _ & _ & Hrun); [|exact (Hrun eq_refl)].
    unfold compose, searchTermStep. rewrite Hfalsy. simpl.
    unfold filterStep. simpl. destruct v; try reflexivity. discriminate.
  - intros term fs sc e Hoff Hc Hq. unfold searchTrails, connected, searchBody.
    destruct (offsetOf ToNumber _ _) as [offset|e0]; [|discriminate].
    rewrite Hc, Hq. reflexivity.
  - intros term fs err. apply searchTrails_throw.
Qed.

Lemma validation_error_is_rewrapped_witness :
  searchTrails sampleGt sampleNumber sampleFilters connected twoRowDb
    sampleHydrate VNull VUndefined VUndefined (Some [("features", VStr "Cave")])
    VNull None =
  (Throw searchError, [ConsoleError featuresError; Release]).
Proof.
  destruct (proj1 (validation_error_is_rewrapped sampleGt sampleNumber
                     sampleFilters twoRowDb sampleHydrate VNull VUndefined
                     VUndefined VNull None (VStr "Cave") eq_refl eq_refl))
    as (logged & Hrun & Hlogged).
  rewrite Hrun, (Hlogged eq_refl). reflexivity.
Defined.

(** ** The features filter *)

Lemma matchingNames_spec (joined : list (Z * string)) (wanted : list string)
    (t : Z) (name : string) :
  In name (matchingNames joined wanted t) <->
  In (t, name) joined /\ In name wanted.
Proof.
  unfold matchingNames. rewrite in_map_iff. split.
  - intros ([t' n'] & <- & Hin). apply filter_In in Hin as [Hin Hcond].
    simpl in *. apply andb_true_iff in Hcond as [Ht Hw].
    apply Z.eqb_eq in Ht as ->. split; [exact Hin|].
    apply existsb_exists in Hw as (w & Hw & Heq).
    apply String.eqb_eq in Heq as ->. exact Hw.
  - intros [Hin Hw]. exists (t, name). split; [reflexivity|].
    apply filter_In. split; [exact Hin|]. simpl.
    rewrite Z.eqb_refl. simpl. apply existsb_exists.
    exists name. split; [exact Hw | apply String.eqb_refl].
Qed.

(** Count-distinct-equals-length: a trail the subquery keeps has every
    wanted name. *)
Lemma featuresSubquery_all (lower : string -> string) (joined : list (Z * string))
    (wanted : list string) (t : Z) :
  featuresSubquery lower joined wanted (length wanted) t = true ->
  forall name, In name wanted -> In (t, name) joined.
Proof.
  unfold featuresSubquery.
  set (names := matchingNames joined wanted t).
  intros Hsat.
  assert (length (nodup String.string_dec (map lower names)) = length wanted) as Hcount.
  { destruct names; [discriminate|]. apply Nat.eqb_eq. exact Hsat. }
  set (distinct := nodup String.string_dec names).
  assert (List.NoDup distinct) as Hnd by apply NoDup_nodup.
  assert (incl distinct wanted) as Hsub.
  { intros x Hx. apply nodup_In in Hx.
    apply (matchingNames_spec joined wanted t x) in Hx. tauto. }
  assert (length wanted <= length distinct) as Hle.
  { rewrite <- Hcount, <- (length_map lower distinct).
    apply NoDup_incl_length; [apply NoDup_nodup|].
    intros y Hy. apply nodup_In, in_map_iff in Hy as (x & <- & Hx).
    apply in_map, nodup_In. exact Hx. }
  intros name Hname.
  apply (NoDup_length_incl Hnd Hle Hsub), nodup_In in Hname.
  apply (matchingNames_spec joined wanted t name) in Hname. tauto.
Qed.

(** C6, on the program. When [features] is an own key of the filter object
    and its value is not an array, [searchTrails] fails without issuing a
    query; on an acquired connection the error it throws is the generic
    search error, not the validation error raised by the composition. When
    the value is an array of [N] names, the
    turn for [features] binds the array and appends the subquery fragment
    with the count [N], and a trail that subquery keeps is associated with
    every one of the [N] names, never with a strict subset only. *)
Theorem features_filter_requires_every_feature
    js_gt ToNumber jsToSqlFilters pool_connect db_query getFullTrailsByIds
    (searchTerm page limit : value) (userId : value)
    (unit : option string) :
  (forall o : obj,
      In "features" (obj_keys o) ->
      isArray (obj_get o "features") = false ->
      exists err,
        fst (searchTrails js_gt ToNumber jsToSqlFilters pool_connect db_query
               getFullTrailsByIds searchTerm page limit (Some o) userId unit) =
          Throw err /\
        existsb is_query
          (snd (searchTrails js_gt ToNumber jsToSqlFilters pool_connect db_query
                  getFullTrailsByIds searchTerm page limit (Some o) userId unit)) =
          false /\
        (pool_connect = connected -> err = searchError /\ err <> featuresError)) /\
  (forall (names : list string) (sc : scope),
      obj_get (filters sc) "features" = VArr (map VStr names) ->
      filterStep js_gt ToNumber jsToSqlFilters (default "Imperial" unit)
        "features" sc =
      Normal (emit (FeaturesAll (S (paramCount (bound sc))) (length names))
                {| params := params (bound sc) ++ [VArr (map VStr names)];
                   paramCount := S (paramCount (bound sc)) |}
                (filters sc) sc) /\
      forall (lower : string -> string) (joined : list (Z * string)) (t : Z),
        featuresSubquery lower joined names (length names) t = true ->
        forall name, In name names -> In (t, name) joined).
Proof.
  split.
  - intros o Hin Harr.
    destruct (compose_features_throw js_gt ToNumber jsToSqlFilters searchTerm o
                (default "Imperial" unit) Hin Harr) as [e He].
    destruct (compose_throw_run js_gt ToNumber jsToSqlFilters pool_connect
                db_query getFullTrailsByIds searchTerm page limit (Some o)
                userId unit e He) as (err & Hfst & Hq & Hrun).
    exists err. split; [exact Hfst|]. split; [exact Hq|].
    intros Hpool. destruct (Hrun Hpool) as (logged & Hrun' & _).
    rewrite Hrun' in Hfst.
    injection Hfst as <-. split; [reflexivity|discriminate].
  - intros names sc Hfeat. split.
    + unfold filterStep. simpl. rewrite Hfeat, length_map. reflexivity.
    + intros lower joined t. apply featuresSubquery_all.
Qed.

Lemma features_filter_requires_every_feature_witness :
  (exists err,
      fst (searchTrails sampleGt sampleNumber sampleFilters connected twoRowDb
             sampleHydrate VNull VUndefined VUndefined
             (Some [("features", VStr "Cave")]) VNull None) = Throw err /\
      existsb is_query
        (snd (searchTrails sampleGt sampleNumber sampleFilters connected twoRowDb
                sampleHydrate VNull VUndefined VUndefined
                (Some [("features", VStr "Cave")]) VNull None)) = false /\
      (connected = connected -> err = searchError /\ err <> featuresError)) /\
  In (1%Z, "Waterfall") [(1%Z, "Cave"); (2%Z, "Cave"); (1%Z, "Waterfall")].
Proof.
  pose proof (features_filter_requires_every_feature sampleGt sampleNumber
                sampleFilters connected twoRowDb sampleHydrate
                VNull VUndefined VUndefined VNull None) as [Hfail Hall].
  split.
  - apply (Hfail [("features", VStr "Cave")]).
    + left; reflexivity.
    + reflexivity.
  - apply (proj2 (Hall ["Cave"; "Waterfall"]
                    (start [("features", VArr [VStr "Cave"; VStr "Waterfall"])])
                    eq_refl)
             lowerText [(1%Z, "Cave"); (2%Z, "Cave"); (1%Z, "Waterfall")] 1%Z).
    + reflexivity.
    + right; left; reflexivity.
Defined.

(** What [searchTrails] throws for a [features] value that is not an array is
    the generic search error, the validation error having been caught and
    logged. *)
Lemma features_error_is_generic :
  fst (searchTrails sampleGt sampleNumber sampleFilters connected twoRowDb
         sampleHydrate VNull VUndefined VUndefined
         (Some [("features", VStr "Cave")]) VNull None) <> Throw featuresError.
Proof. vm_compute. discriminate. Qed.

(** ** Sample runs *)

Example render_between :
  render (Between "ts.distance_imperial" 1 2) =
  " AND ts.distance_imperial BETWEEN $1 AND $2 ".
Proof. reflexivity. Qed.

Example render_elevation :
  render (Compare "ts.elevation_low_imperial" (">" +:+ "=") 3) =
  " AND ts.elevation_low_imperial >= $3 ".
Proof. reflexivity. Qed.

Example render_equals :
  render (Equals "t.city" 12) = "AND t.city = $12".
Proof. reflexivity. Qed.

(** The text of an id fetch, and the tokens read back from it. *)
Example final_query_text :
  sql (finalQuery {| bound := {| params := [VStr "%Cave%"; VStr "Huntsville"];
                                 paramCount := 2 |};
                     clause := [TextSearch 1; Equals "t.city" 2];
                     filters := [] |} 3 4) =
  baseQuery +:+
  " WHERE 1=1  AND to_tsvector('english', t.name || ' ' || t.city || ' ' || t.state) @@ to_tsquery('english', $1) AND t.city = $2 LIMIT $3 OFFSET $4" /\
  placeholdersOf
    (sql (finalQuery {| bound := {| params := [VStr "%Cave%"; VStr "Huntsville"];
                                    paramCount := 2 |};
                        clause := [TextSearch 1; Equals "t.city" 2];
                        filters := [] |} 3 4)) = [1; 2; 3; 4].
Proof. split; reflexivity. Qed.

(** The offset is computed in doubles: the exact product
    [94906267 * 94906267 = 9007199515875289] is not a double, and the engine
    binds its even neighbour. *)
Example offset_is_rounded :
  offsetOf sampleNumber (num 94906268) (num 94906267) =
    Normal (Fin (inject_Z 9007199515875288)) /\
  offsetOf sampleNumber (VStr "3") (VStr "10") = Normal (Fin (inject_Z 20)) /\
  offsetOf sampleNumber (VStr "two") (num 10) = Normal NaN /\
  offsetOf sampleNumber (VObj [("toString", VNull)]) (num 10) = Throw TypeError.
Proof. repeat split; vm_compute; reflexivity. Qed.

(** With the opposite bound under its unit-qualified key, the paired branch
    runs and the swap of the bare bounds takes place. *)
Example paired_branch_swaps :
  compose sampleGt sampleNumber sampleFilters VNull
    (Some [("minDistance", num 10); ("maxDistance", num 2);
           ("maxDistanceImperial", num 7)]) "Imperial" =
  Normal {| bound := {| params := [num 2; num 10; num 7]; paramCount := 3 |};
            clause := [Between "ts.distance_imperial" 1 2;
                       Equals "ts.distance_imperial" 3];
            filters := [("maxDistanceImperial", num 7)] |}.
Proof. reflexivity. Qed.

(** A filter value without a primitive value: [Number] throws in the generic
    branch, [>] in the paired branch of the distance builder, and the caller
    gets the generic error without a query. *)
Example object_value_throws :
  compose sampleGt sampleNumber sampleFilters VNull
    (Some [("city", VObj [("valueOf", num 1); ("toString", num 1)])]) "Imperial" =
    Throw TypeError /\
  compose sampleGt sampleNumber sampleFilters VNull
    (Some [("minDistance", VObj [("valueOf", num 1); ("toString", num 1)]);
           ("maxDistanceImperial", num 5)]) "Imperial" =
    Throw TypeError /\
  searchTrails sampleGt sampleNumber sampleFilters connected twoRowDb sampleHydrate
    VNull VUndefined VUndefined
    (Some [("city", VObj [("valueOf", num 1); ("toString", num 1)])]) VNull None =
    (Throw searchError, [ConsoleError TypeError; Release]).
Proof. repeat split; reflexivity. Qed.

(** The filter object of the route tests: two equalities, no range. *)
Example qualified_pair_is_two_equalities :
  compose sampleGt sampleNumber sampleFilters (VStr "Trail")
    (Some [("minDistanceImperial", num 2); ("maxDistanceImperial", num 10)])
    "Imperial" =
  Normal {| bound := {| params := [VStr "%Trail%"; num 2; num 10]; paramCount := 3 |};
            clause := [TextSearch 1; Equals "ts.distance_imperial" 2;
                       Equals "ts.distance_imperial" 3];
            filters := [("minDistanceImperial", num 2);
                        ("maxDistanceImperial", num 10)] |}.
Proof. reflexivity. Qed.

(** Page 3 of the default size, [page] passed as the route passes it. *)
Example two_rows_are_hydrated :
  searchTrails sampleGt sampleNumber sampleFilters connected twoRowDb
    sampleHydrate VNull (VStr "3") VUndefined None (VNum (Fin 5)) None =
  (Normal {| totalCount := VStr "7";
             trails := VArr [VObj [("id", num 4)]; VObj [("id", num 9)]] |},
   [Query (countQuery (start [])) [];
    Query (finalQuery (start []) 1 2) [num 10; num 20];
    Hydrate [Fin (inject_Z 4); Fin (inject_Z 9)] (VNum (Fin 5));
    Release]).
Proof. reflexivity. Qed.

Lemma addParam_tokens_match_params_witness :
  placeholdersOf
    (sql (finalQuery {| bound := {| params := [VStr "%Cave%"; VStr "Huntsville"];
                                    paramCount := 2 |};
                        clause := [TextSearch 1; Equals "t.city" 2];
                        filters := [("city", VStr "Huntsville")] |} 3 4)) =
    [1; 2; 3; 4] /\
  [VStr "%Cave%"; VStr "Huntsville"; num 10; num 0] !! 2 = Some (num 10) /\
  exists offset,
    offsetOf sampleNumber (num 1) (num 10) = Normal offset /\
    [VStr "%Cave%"; VStr "Huntsville"; num 10; num 0] !! 3 = Some (VNum offset).
Proof.
  destruct (proj2 (proj2 (addParam_tokens_match_params sampleGt sampleNumber
                            sampleFilters connected twoRowDb sampleHydrate
                            (VStr "Cave") VUndefined VUndefined
                            (Some [("city", VStr "Huntsville")]) VNull None))
              sampleFilters_plain
              (finalQuery {| bound := {| params := [VStr "%Cave%"; VStr "Huntsville"];
                                         paramCount := 2 |};
                             clause := [TextSearch 1; Equals "t.city" 2];
                             filters := [("city", VStr "Huntsville")] |} 3 4)
              [VStr "%Cave%"; VStr "Huntsville"; num 10; num 0])
    as [Htokens Hpaging].
  - apply (nth_error_In _ 1). vm_compute. reflexivity.
  - split; [exact Htokens | exact (proj2 (Hpaging 3 4 eq_refl))].
Defined.

(** ** Further properties of the sanitizer *)

Lemma trimStart_spaces (s : string) :
  all_chars is_space s = true -> trimStart s = "".
Proof.
  induction s as [|c s IH]; simpl; [reflexivity|].
  intros H. apply andb_true_iff in H as [Hc Hs]. rewrite Hc. auto.
Qed.

Lemma split_spaces (s : string) :
  all_chars is_space s = true ->
  Forall (fun w => all_chars is_space w = true) (split " " s).
Proof.
  induction s as [|c s IH]; simpl.
  - intros _. repeat constructor.
  - intros H. apply andb_true_iff in H as [Hc Hs]. specialize (IH Hs).
    destruct (Ascii.eqb c " ").
    + constructor; [reflexivity | exact IH].
    + destruct (split " " s) as [|w ws].
      * repeat constructor. simpl. rewrite Hc. reflexivity.
      * apply Forall_cons in IH as [Hw Hws]. constructor; [|exact Hws].
        simpl. rewrite Hc. exact Hw.
Qed.

(** X1. A term made of white space only sanitizes to the empty expression. *)
Theorem sanitizer_blank_term (s : string) :
  all_chars is_space s = true ->
  sanitizedSearchTerm s = "" /\
  (s <> "" ->
   searchTermStep (VStr s) (start []) =
   Normal {| bound := {| params := [VStr "%%"]; paramCount := 1 |};
             clause := [TextSearch 1];
             filters := [] |}).
Proof.
  intros Hs.
  assert (sanitizedSearchTerm s = "") as Hempty.
  { unfold sanitizedSearchTerm.
    assert (List.filter (fun word => negb (String.eqb (trim word) ""))
              (split " " s) = []) as ->; [|reflexivity].
    pose proof (split_spaces s Hs) as Hall.
    induction Hall as [|w ws Hw _ IH]; simpl; [reflexivity|].
    unfold trim. rewrite (trimStart_spaces w Hw). simpl. exact IH. }
  split; [exact Hempty|].
  intros Hne. unfold searchTermStep.
  destruct s as [|c s]; [congruence|].
  cbn [truthy String.eqb negb]. rewrite Hempty. reflexivity.
Qed.

Lemma strip_symbols_chars (w : string) :
  all_chars sanitized_char (strip_symbols w) = true.
Proof.
  induction w as [|c w IH]; simpl; [reflexivity|].
  destruct (is_word c || is_space c) eqn:Hc; [|exact IH].
  simpl. unfold sanitized_char at 1. rewrite Hc, IH. reflexivity.
Qed.

Lemma join_chars (p : ascii -> bool) (sep : string) (words : list string) :
  all_chars p sep = true ->
  Forall (fun w => all_chars p w = true) words ->
  all_chars p (join sep words) = true.
Proof.
  intros Hsep Hall. induction Hall as [|w ws Hw Hws IH]; [reflexivity|].
  destruct ws as [|w' ws]; [exact Hw|].
  change (join sep (w :: w' :: ws)) with (w +:+ sep +:+ join sep (w' :: ws)).
  rewrite !all_chars_append, Hw, Hsep, IH. reflexivity.
Qed.

(** X2. Whatever the term, the sanitized expression is made of word
    characters, white space and the connective's ampersand only. *)
Theorem sanitizer_alphabet (s : string) :
  all_chars sanitized_char (sanitizedSearchTerm s) = true.
Proof.
  unfold sanitizedSearchTerm. apply join_chars; [reflexivity|].
  apply List.Forall_forall. intros w Hw. apply in_map_iff in Hw as (w0 & <- & _).
  apply strip_symbols_chars.
Qed.

Lemma is_word_not_space (c : ascii) : is_word c = true -> is_space c = false.
Proof.
  destruct c as [[] [] [] [] [] [] [] []]; vm_compute; congruence.
Qed.

Lemma strip_symbols_word (w : string) :
  all_chars is_word w = true -> strip_symbols w = w.
Proof.
  induction w as [|c w IH]; simpl; [reflexivity|].
  intros H. apply andb_true_iff in H as [Hc Hw]. rewrite Hc, IH by exact Hw.
  reflexivity.
Qed.

Lemma trimEnd_word (w : string) :
  all_chars is_word w = true -> trimEnd w = w.
Proof.
  induction w as [|c w IH]; simpl; [reflexivity|].
  intros H. apply andb_true_iff in H as [Hc Hw]. rewrite IH by exact Hw.
  rewrite (is_word_not_space c Hc). destruct w; reflexivity.
Qed.

Lemma trim_word (w : string) : all_chars is_word w = true -> trim w = w.
Proof.
  intros Hw. unfold trim.
  assert (trimStart w = w) as ->; [|apply trimEnd_word; exact Hw].
  destruct w as [|c w]; [reflexivity|]. simpl in *.
  apply andb_true_iff in Hw as [Hc _]. rewrite (is_word_not_space c Hc).
  reflexivity.
Qed.

Lemma word_char_not_separator (c : ascii) :
  is_word c = true -> Ascii.eqb c " " = false.
Proof.
  destruct c as [[] [] [] [] [] [] [] []]; vm_compute; congruence.
Qed.

Lemma split_word_then (w rest : string) :
  all_chars is_word w = true ->
  split " " (w +:+ " " +:+ rest) = w :: split " " rest.
Proof.
  induction w as [|c w IH]; intros Hw.
  - reflexivity.
  - simpl in Hw. apply andb_true_iff in Hw as [Hc Hw].
    rewrite append_cons. simpl. rewrite (word_char_not_separator c Hc).
    rewrite IH by exact Hw. reflexivity.
Qed.

Lemma split_word (w : string) :
  all_chars is_word w = true -> split " " w = [w].
Proof.
  induction w as [|c w IH]; intros Hw; [reflexivity|].
  simpl in Hw. apply andb_true_iff in Hw as [Hc Hw].
  simpl. rewrite (word_char_not_separator c Hc), IH by exact Hw. reflexivity.
Qed.

Lemma split_join_words (words : list string) :
  words <> [] ->
  Forall (fun w => all_chars is_word w = true) words ->
  split " " (join " " words) = words.
Proof.
  intros Hne Hall. induction Hall as [|w ws Hw Hws IH]; [congruence|].
  destruct ws as [|w' ws]; [apply split_word; exact Hw|].
  change (join " " (w :: w' :: ws)) with (w +:+ " " +:+ join " " (w' :: ws)).
  rewrite split_word_then by exact Hw. rewrite IH by discriminate. reflexivity.
Qed.

(** X3. Words of word characters, one space apart, come out joined by the
    connective, unchanged and in order. *)
Theorem sanitizer_joins_clean_words (words : list string) :
  Forall (fun w => w <> "" /\ all_chars is_word w = true) words ->
  sanitizedSearchTerm (join " " words) = join " & " words.
Proof.
  intros Hall. unfold sanitizedSearchTerm.
  destruct words as [|w0 ws0]; [reflexivity|].
  rewrite split_join_words;
    [ | discriminate
      | eapply Forall_impl; [exact Hall | intros w [_ Hw]; exact Hw] ].
  f_equal.
  induction Hall as [|w ws [Hne Hw] _ IH]; [reflexivity|].
  simpl. rewrite (trim_word w Hw).
  destruct (String.eqb_spec w ""); [contradiction|]. simpl.
  rewrite (strip_symbols_word w Hw), IH. reflexivity.
Qed.

Lemma sanitizer_joins_clean_words_witness :
  sanitizedSearchTerm "Monte Sano Loop_2" = "Monte & Sano & Loop_2".
Proof.
  apply (sanitizer_joins_clean_words ["Monte"; "Sano"; "Loop_2"]).
  repeat constructor; discriminate.
Defined.

Lemma sanitizer_blank_term_witness :
  sanitizedSearchTerm (String (ascii_of_nat 9) " ") = "" /\
  (String (ascii_of_nat 9) " " <> "" ->
   searchTermStep (VStr (String (ascii_of_nat 9) " ")) (start []) =
   Normal {| bound := {| params := [VStr "%%"]; paramCount := 1 |};
             clause := [TextSearch 1];
             filters := [] |}).
Proof. apply sanitizer_blank_term. reflexivity. Defined.

(** ** Further properties of the composition *)

Section Further.

Variable js_gt : value -> value -> completion bool.
Variable ToNumber : value -> completion jsnum.
Variable jsToSqlFilters : gmap string string.

Lemma filterStep_ignored (unit key : string) (sc : scope) :
  ignoredKey jsToSqlFilters (filters sc) key ->
  filterStep js_gt ToNumber jsToSqlFilters unit key sc = Normal sc.
Proof.
  intros [[Hkey Hcol]|[Hin Hfalsy]].
  - rewrite filterStep_generic, Hcol by exact Hkey. reflexivity.
  - unfold distanceKeys, elevationKeys in Hin.
    destruct Hin as [Hin|Hin];
      repeat (destruct Hin as [<-|Hin]); try contradiction;
      unfold filterStep; simpl; rewrite Hfalsy; reflexivity.
Qed.

Lemma filterLoop_ignored (unit : string) (keys : list string) (sc : scope) :
  (forall key, In key keys -> ignoredKey jsToSqlFilters (filters sc) key) ->
  filterLoop js_gt ToNumber jsToSqlFilters unit keys sc = Normal sc.
Proof.
  induction keys as [|key rest IH]; intros Hall; [reflexivity|].
  simpl. rewrite filterStep_ignored by (apply Hall; left; reflexivity).
  simpl. apply IH. intros k Hk. apply Hall. right. exact Hk.
Qed.

End Further.

(** X4. A filter object made only of ignored keys (unknown keys without a
    lookup entry, range keys with a falsy value such as 0) composes, under a
    falsy search term, to the bare always-true clause with no parameter. *)
Theorem ignored_filters_leave_clause
    js_gt ToNumber jsToSqlFilters (searchTerm : value) (o : obj) (unit : string) :
  truthy searchTerm = false ->
  (forall key, In key (obj_keys o) -> ignoredKey jsToSqlFilters o key) ->
  compose js_gt ToNumber jsToSqlFilters searchTerm (Some o) unit = Normal (start o) /\
  sql (countQuery (start o)) = countHead +:+ " WHERE 1=1 " /\
  params (bound (start o)) = [].
Proof.
  intros Hfalsy Hall. split; [|split; reflexivity].
  unfold compose, searchTermStep. rewrite Hfalsy. simpl.
  apply filterLoop_ignored. exact Hall.
Qed.

Lemma ignored_filters_leave_clause_witness :
  compose sampleGt sampleNumber sampleFilters VNull
    (Some [("minDistance", num 0); ("colour", VStr "red"); ("maxElevation", VStr "")])
    "Imperial" =
  Normal (start [("minDistance", num 0); ("colour", VStr "red");
                 ("maxElevation", VStr "")]).
Proof.
  refine (proj1 (ignored_filters_leave_clause sampleGt sampleNumber sampleFilters
                   VNull _ "Imperial" eq_refl _)).
  intros key [<-|[<-|[<-|[]]]].
  - right. split; [left; left; reflexivity | reflexivity].
  - left. split; reflexivity.
  - right. split; [right; right; left; reflexivity | reflexivity].
Defined.

Section RangeErrors.

Variable js_gt : value -> value -> completion bool.
Variable ToNumber : value -> completion jsnum.
Variable jsToSqlFilters : gmap string string.

Lemma elevation_step_throws (unit key : string) (sc : scope) :
  In key elevationKeys ->
  truthy (obj_get (filters sc) key) = true ->
  sqlKey jsToSqlFilters (key +:+ unit) = None ->
  filterStep js_gt ToNumber jsToSqlFilters unit key sc = Throw (filterKeyError key).
Proof.
  unfold elevationKeys. intros Hin Htruthy Hcol.
  repeat (destruct Hin as [<-|Hin]); try contradiction;
    unfold filterStep, addElevationFilters; simpl in *;
    rewrite Htruthy, Hcol; reflexivity.
Qed.

Lemma distance_step_throws (unit key : string) (sc : scope) :
  In key distanceKeys ->
  truthy (obj_get (filters sc) key) = true ->
  sqlKey jsToSqlFilters ("minDistance" +:+ unit) = None \/
  sqlKey jsToSqlFilters ("maxDistance" +:+ unit) = None ->
  filterStep js_gt ToNumber jsToSqlFilters unit key sc = Throw (filterKeyError key).
Proof.
  unfold distanceKeys. intros Hin Htruthy Hcol.
  repeat (destruct Hin as [<-|Hin]); try contradiction;
    unfold filterStep, addDistanceFilters;
    cbv [String.append] in *; simpl in *; rewrite Htruthy; simpl;
    destruct Hcol as [Hcol|Hcol]; rewrite Hcol;
    repeat case_match; reflexivity.
Qed.

(** Without both distance columns no turn of the loop changes the filters. *)
Lemma filterStep_filters_fixed (unit key : string) (sc sc' : scope) :
  sqlKey jsToSqlFilters ("minDistance" +:+ unit) = None \/
  sqlKey jsToSqlFilters ("maxDistance" +:+ unit) = None ->
  filterStep js_gt ToNumber jsToSqlFilters unit key sc = Normal sc' ->
  filters sc' = filters sc.
Proof.
  intros Hcol.
  destruct (includes distanceKeys key) eqn:Hd.
  - apply includes_distanceKeys in Hd.
    destruct (truthy (obj_get (filters sc) key)) eqn:Htruthy.
    + rewrite distance_step_throws by assumption. discriminate.
    + rewrite filterStep_ignored; [intros [= <-]; reflexivity|].
      right. split; [left; exact Hd | exact Htruthy].
  - unfold filterStep, addElevationFilters, bind. rewrite Hd.
    repeat case_match; intros; simplify_eq; reflexivity.
Qed.

Lemma filterLoop_range_throws (unit key : string) (keys : list string) (sc : scope) :
  In key keys ->
  truthy (obj_get (filters sc) key) = true ->
  (In key elevationKeys /\ sqlKey jsToSqlFilters (key +:+ unit) = None) \/
  (In key distanceKeys /\
   (sqlKey jsToSqlFilters ("minDistance" +:+ unit) = None \/
    sqlKey jsToSqlFilters ("maxDistance" +:+ unit) = None)) ->
  exists e, filterLoop js_gt ToNumber jsToSqlFilters unit keys sc = Throw e.
Proof.
  revert sc. induction keys as [|k rest IH]; intros sc Hin Htruthy Hcase;
    [destruct Hin|].
  simpl.
  destruct (filterStep _ _ _ unit k sc) as [sc1|e] eqn:Hstep; simpl;
    [|exists e; reflexivity].
  destruct Hin as [->|Hin].
  - exfalso. destruct Hcase as [[Hk Hcol]|[Hk Hcol]].
    + rewrite elevation_step_throws in Hstep by assumption. discriminate.
    + rewrite distance_step_throws in Hstep by assumption. discriminate.
  - apply IH; [exact Hin | | exact Hcase].
    destruct Hcase as [[Hk Hcol]|[Hk Hcol]].
    + rewrite (filterStep_keeps _ _ _ _ _ key _ _ Hstep); [exact Htruthy| |];
        unfold elevationKeys in Hk;
        repeat (destruct Hk as [<-|Hk]); try contradiction; discriminate.
    + rewrite (filterStep_filters_fixed _ _ _ _ Hcol Hstep). exact Htruthy.
Qed.

End RangeErrors.

(** X5. Range key without a column. When the filter object holds an elevation
    key with a truthy value whose unit-qualified lookup entry is missing, or
    a bare distance key with a truthy value while either of the two
    unit-qualified distance entries is missing, the composition throws, and
    [searchTrails] fails without issuing a query. *)
Theorem range_key_without_column_fails
    js_gt ToNumber jsToSqlFilters pool_connect db_query getFullTrailsByIds
    (searchTerm : value) (page limit : value) (o : obj) (userId : value)
    (unit : option string) (key : string) :
  In key (obj_keys o) ->
  truthy (obj_get o key) = true ->
  (In key elevationKeys /\
   sqlKey jsToSqlFilters (key +:+ default "Imperial" unit) = None) \/
  (In key distanceKeys /\
   (sqlKey jsToSqlFilters ("minDistance" +:+ default "Imperial" unit) = None \/
    sqlKey jsToSqlFilters ("maxDistance" +:+ default "Imperial" unit) = None)) ->
  exists err,
    fst (searchTrails js_gt ToNumber jsToSqlFilters pool_connect db_query
           getFullTrailsByIds searchTerm page limit (Some o) userId unit) =
      Throw err /\
    existsb is_query
      (snd (searchTrails js_gt ToNumber jsToSqlFilters pool_connect db_query
              getFullTrailsByIds searchTerm page limit (Some o) userId unit)) =
      false.
Proof.
  intros Hin Htruthy Hcase.
  assert (exists e, compose js_gt ToNumber jsToSqlFilters searchTerm (Some o)
                      (default "Imperial" unit) = Throw e) as [e He].
  { unfold compose, searchTermStep.
    destruct (truthy searchTerm); [destruct searchTerm|]; simpl;
      try (eexists; reflexivity);
      apply (filterLoop_range_throws js_gt ToNumber jsToSqlFilters _ key);
      assumption. }
  destruct (compose_throw_run js_gt ToNumber jsToSqlFilters pool_connect
              db_query getFullTrailsByIds searchTerm page limit (Some o)
              userId unit e He) as (err & Hfst & Hq & _).
  exists err. auto.
Qed.

Lemma range_key_without_column_fails_witness :
  exists err,
    fst (searchTrails sampleGt sampleNumber sampleFilters connected twoRowDb
           sampleHydrate VNull VUndefined VUndefined
           (Some [("city", VStr "Huntsville"); ("maxDistance", num 5)])
           VNull (Some "imperial")) = Throw err /\
    existsb is_query
      (snd (searchTrails sampleGt sampleNumber sampleFilters connected twoRowDb
              sampleHydrate VNull VUndefined VUndefined
              (Some [("city", VStr "Huntsville"); ("maxDistance", num 5)])
              VNull (Some "imperial"))) = false.
Proof.
  apply (range_key_without_column_fails sampleGt sampleNumber sampleFilters
           connected twoRowDb sampleHydrate VNull VUndefined VUndefined
           [("city", VStr "Huntsville"); ("maxDistance", num 5)]
           VNull (Some "imperial") "maxDistance").
  - right; left; reflexivity.
  - reflexivity.
  - right. split; [right; left; reflexivity | left; reflexivity].
Defined.

(** X6. Paired distance bounds. When the paired branch of the distance
    builder runs on two finite numbers and [>] orders numbers as usual, the
    two values are bound smaller first, whichever key the loop met, under one
    BETWEEN on the column of the met key, and both bare keys are gone from
    the filter object afterwards. *)
Theorem paired_distance_bounds_ordered
    js_gt ToNumber jsToSqlFilters (unit key cmin cmax : string) (sc : scope)
    (a b : Q) :
  (forall x y : Q,
      js_gt (VNum (Fin x)) (VNum (Fin y)) = Normal (negb (Qle_bool x y))) ->
  In key distanceKeys ->
  obj_get (filters sc) key = VNum (Fin a) ->
  Qeq_bool a 0 = false ->
  obj_get (filters sc) (oppositeKey key) = VNum (Fin b) ->
  truthy (obj_get (filters sc) (pairedKey key unit)) = true ->
  sqlKey jsToSqlFilters ("minDistance" +:+ unit) = Some cmin ->
  sqlKey jsToSqlFilters ("maxDistance" +:+ unit) = Some cmax ->
  exists (sc' : scope) (lo hi : Q),
    filterStep js_gt ToNumber jsToSqlFilters unit key sc = Normal sc' /\
    clause sc' =
      clause sc ++
      [Between (if String.prefix "min" key then cmin else cmax)
         (S (paramCount (bound sc))) (S (S (paramCount (bound sc))))] /\
    params (bound sc') = params (bound sc) ++ [VNum (Fin lo); VNum (Fin hi)] /\
    Qle lo hi /\
    ((lo = a /\ hi = b) \/ (lo = b /\ hi = a)) /\
    obj_get (filters sc') "minDistance" = VUndefined /\
    obj_get (filters sc') "maxDistance" = VUndefined.
Proof.
  intros Hgt Hin Ha Hnz Hb Hpair Hcmin Hcmax.
  assert (truthy (obj_get (filters sc) key) = true) as Hkey
    by (rewrite Ha; simpl; rewrite Hnz; reflexivity).
  assert (js_gt (obj_get (filters sc) key) (obj_get (filters sc) (oppositeKey key)) =
          Normal (negb (Qle_bool a b))) as Hcmp
    by (rewrite Ha, Hb; apply Hgt).
  pose proof (filterStep_distance_pair js_gt ToNumber jsToSqlFilters unit key
                cmin cmax sc _ Hin Hkey Hpair Hcmin Hcmax Hcmp) as Hstep.
  cbv zeta in Hstep.
  assert (key <> oppositeKey key) as Hne.
  { unfold distanceKeys in Hin.
    repeat (destruct Hin as [<-|Hin]); try contradiction; discriminate. }
  assert (forall o,
            obj_get (obj_delete (oppositeKey key) (obj_delete key o))
              "minDistance" = VUndefined /\
            obj_get (obj_delete (oppositeKey key) (obj_delete key o))
              "maxDistance" = VUndefined) as Hgone.
  { intros o. unfold distanceKeys in Hin.
    repeat (destruct Hin as [<-|Hin]); try contradiction;
      unfold oppositeKey; simpl; split;
      first [ apply obj_get_delete_same
            | rewrite obj_get_delete_ne by discriminate;
              apply obj_get_delete_same ]. }
  destruct (Qle_bool a b) eqn:Hle; cbn [negb] in Hstep.
  - eexists _, a, b. split; [exact Hstep|]. split; [reflexivity|].
    split; [cbn [emit bound params]; rewrite Ha, Hb, <- app_assoc; reflexivity|].
    split; [apply Qle_bool_iff; exact Hle|].
    split; [left; split; reflexivity|]. apply Hgone.
  - eexists _, b, a. split; [exact Hstep|]. split; [reflexivity|].
    split.
    { cbn [emit bound params]. unfold swapped.
      rewrite obj_get_set_ne by (intros H; apply Hne; symmetry; exact H).
      rewrite !obj_get_set_eq, Ha, Hb, <- app_assoc. reflexivity. }
    split.
    { apply Qlt_le_weak, Qnot_le_lt. intros H.
      apply Qle_bool_iff in H. congruence. }
    split; [right; split; reflexivity|]. apply Hgone.
Qed.

Lemma paired_distance_bounds_ordered_witness :
  exists (sc' : scope) (lo hi : Q),
    filterStep sampleGt sampleNumber sampleFilters "Imperial" "maxDistance"
      (start [("maxDistance", num 10); ("minDistance", num 2);
              ("minDistanceImperial", num 1)]) = Normal sc' /\
    clause sc' = [Between "ts.distance_imperial" 1 2] /\
    params (bound sc') = [VNum (Fin lo); VNum (Fin hi)] /\
    Qle lo hi /\
    ((lo = inject_Z 10 /\ hi = inject_Z 2) \/ (lo = inject_Z 2 /\ hi = inject_Z 10)) /\
    obj_get (filters sc') "minDistance" = VUndefined /\
    obj_get (filters sc') "maxDistance" = VUndefined.
Proof.
  apply (paired_distance_bounds_ordered sampleGt sampleNumber sampleFilters
           "Imperial" "maxDistance" "ts.distance_imperial" "ts.distance_imperial"
           (start [("maxDistance", num 10); ("minDistance", num 2);
                   ("minDistanceImperial", num 1)])
           (inject_Z 10) (inject_Z 2)).
  - reflexivity.
  - right; left; reflexivity.
  - reflexivity.
  - reflexivity.
  - reflexivity.
  - reflexivity.
  - reflexivity.
  - reflexivity.
Defined.

Lemma includes_elevationKeys (key : string) :
  includes elevationKeys key = true -> In key elevationKeys.
Proof.
  unfold includes, elevationKeys. cbn [existsb]. intros H.
  repeat (apply orb_true_iff in H as [H|H];
          [apply String.eqb_eq in H; subst; simpl; tauto|]).
  discriminate.
Qed.

Lemma thinned_primitive (o f : obj) (k : string) :
  thinned o f -> isPrimitive (obj_get o k) = true -> isPrimitive (obj_get f k) = true.
Proof.
  intros Hof Hk. destruct (Hof k) as [H|H]; rewrite H; [exact Hk | reflexivity].
Qed.

Lemma primitive_fields (o : obj) (k : string) :
  Forall (fun kv => In (fst kv) ["features"; "difficulty"; "type"] \/
                    isPrimitive (snd kv) = true) o ->
  ~ In k ["features"; "difficulty"; "type"] ->
  isPrimitive (obj_get o k) = true.
Proof.
  intros Hall Hk. induction Hall as [|[k0 v0] rest Hkv _ IH]; [reflexivity|].
  simpl. destruct (String.eqb_spec k0 k) as [->|_]; [|exact IH].
  destruct Hkv as [Hin|Hprim]; [contradiction | exact Hprim].
Qed.

Section Success.

Variable js_gt : value -> value -> completion bool.
Variable ToNumber : value -> completion jsnum.
Variable jsToSqlFilters : gmap string string.

(** The engine converts and compares primitives without throwing. *)
Hypothesis ToNumber_primitive :
  forall v, isPrimitive v = true -> completes (ToNumber v) = true.
Hypothesis js_gt_primitive :
  forall v w, isPrimitive v = true -> isPrimitive w = true ->
              completes (js_gt v w) = true.

Lemma filterStep_succeeds (unit key : string) (sc : scope) :
  rangeColumns jsToSqlFilters unit ->
  (key = "features" -> isArray (obj_get (filters sc) "features") = true) ->
  (forall k, ~ In k ["features"; "difficulty"; "type"] ->
             isPrimitive (obj_get (filters sc) k) = true) ->
  exists sc', filterStep js_gt ToNumber jsToSqlFilters unit key sc = Normal sc'.
Proof.
  intros (Hmin & Hmax & Helev) Hfeat Hprim. unfold filterStep.
  destruct (String.eqb_spec key "features") as [->|Hk1].
  { specialize (Hfeat eq_refl).
    destruct (obj_get (filters sc) "features"); try discriminate.
    eexists; reflexivity. }
  destruct (String.eqb_spec key "difficulty") as [->|Hk2]; [eexists; reflexivity|].
  destruct (String.eqb_spec key "type") as [->|Hk3]; [eexists; reflexivity|].
  destruct (includes distanceKeys key) eqn:Hd.
  { destruct (negb _); [eexists; reflexivity|].
    unfold addDistanceFilters.
    destruct (String.prefix "min" key); cbv [String.append] in *; simpl;
      destruct (sqlKey jsToSqlFilters _) as [c1|]; try congruence;
      destruct (sqlKey jsToSqlFilters _) as [c2|]; try congruence;
      destruct (truthy _); simpl; try (eexists; reflexivity);
      rewrite !substring_0_0;
      match goal with
      | |- context [js_gt ?v ?w] =>
          pose proof (js_gt_primitive v w) as Hc;
          destruct (js_gt v w) as [g|e];
          [simpl; eexists; reflexivity
          | exfalso;
            assert (completes (@Throw bool e) = true) as Hbad
              by (apply Hc; apply Hprim; simpl; intuition discriminate);
            discriminate Hbad]
      end. }
  destruct (includes elevationKeys key) eqn:He.
  { destruct (negb _); [eexists; reflexivity|].
    apply includes_elevationKeys in He. specialize (Helev key He).
    unfold addElevationFilters.
    destruct (sqlKey jsToSqlFilters (key +:+ unit)); [|congruence].
    simpl. eexists; reflexivity. }
  destruct (sqlKey jsToSqlFilters key); [|eexists; reflexivity].
  rewrite addParam_token.
  assert (completes (ToNumber (obj_get (filters sc) key)) = true) as Hc
    by (apply ToNumber_primitive, Hprim; simpl; intuition congruence).
  destruct (ToNumber (obj_get (filters sc) key)) as [n|e]; [|discriminate].
  simpl. rewrite num_neq_NaN. eexists; reflexivity.
Qed.

Lemma filterLoop_succeeds (unit : string) (keys : list string) (sc : scope) :
  rangeColumns jsToSqlFilters unit ->
  (In "features" keys -> isArray (obj_get (filters sc) "features") = true) ->
  (forall k, ~ In k ["features"; "difficulty"; "type"] ->
             isPrimitive (obj_get (filters sc) k) = true) ->
  exists sc', filterLoop js_gt ToNumber jsToSqlFilters unit keys sc = Normal sc'.
Proof.
  intros Hcols. revert sc.
  induction keys as [|key rest IH]; intros sc Hfeat Hprim; [eexists; reflexivity|].
  simpl.
  destruct (filterStep_succeeds unit key sc Hcols) as [sc1 Hstep];
    [intros ->; apply Hfeat; left; reflexivity | exact Hprim |].
  rewrite Hstep. simpl. apply IH.
  - intros Hin. rewrite (filterStep_features_kept _ _ _ _ _ _ _ Hstep).
    apply Hfeat. right; exact Hin.
  - intros k Hk. eapply thinned_primitive; [|apply Hprim; exact Hk].
    eapply filterStep_thinned. exact Hstep.
Qed.

End Success.

(** X7. The only ways a composition fails. On an engine that converts and
    compares primitives without throwing, when the lookup table resolves
    every range key of the unit, the search term is a string or falsy,
    [features], if it is a key of the filter object, holds an array, and
    every field of the filter object other than [features], [difficulty] and
    [type] holds a primitive, the composition succeeds; with a primitive
    [page] and [limit], on an acquired connection, the count query is then
    issued first, with the composed clause and parameters. *)
Theorem composition_succeeds
    js_gt ToNumber jsToSqlFilters db_query getFullTrailsByIds
    (searchTerm page limit : value) (fs : option obj)
    (userId : value) (unit : option string) :
  (forall v, isPrimitive v = true -> completes (ToNumber v) = true) ->
  (forall v w, isPrimitive v = true -> isPrimitive w = true ->
               completes (js_gt v w) = true) ->
  rangeColumns jsToSqlFilters (default "Imperial" unit) ->
  (truthy searchTerm = true -> exists s, searchTerm = VStr s) ->
  (forall o, fs = Some o -> In "features" (obj_keys o) ->
             isArray (obj_get o "features") = true) ->
  (forall o, fs = Some o ->
             Forall (fun kv => In (fst kv) ["features"; "difficulty"; "type"] \/
                               isPrimitive (snd kv) = true) o) ->
  exists sc,
    compose js_gt ToNumber jsToSqlFilters searchTerm fs (default "Imperial" unit) =
      Normal sc /\
    (isPrimitive page = true ->
     isPrimitive limit = true ->
     hd_error (snd (searchTrails js_gt ToNumber jsToSqlFilters connected db_query
                      getFullTrailsByIds searchTerm page limit fs userId unit)) =
       Some (Query (countQuery sc) (params (bound sc)))).
Proof.
  intros Hnum Hgt Hcols Hterm Hfeat Hprim.
  assert (exists sc, compose js_gt ToNumber jsToSqlFilters searchTerm fs
                       (default "Imperial" unit) = Normal sc) as [sc Hc].
  { unfold compose, searchTermStep.
    destruct (truthy searchTerm) eqn:Ht.
    - destruct (Hterm eq_refl) as [s ->]. simpl.
      destruct fs as [o|]; [|eexists; reflexivity].
      apply filterLoop_succeeds; try assumption.
      + simpl. apply Hfeat. reflexivity.
      + intros k Hk. simpl. apply primitive_fields; [apply Hprim; reflexivity | exact Hk].
    - simpl. destruct fs as [o|]; [|eexists; reflexivity].
      apply filterLoop_succeeds; try assumption.
      + simpl. apply Hfeat. reflexivity.
      + intros k Hk. simpl. apply primitive_fields; [apply Hprim; reflexivity | exact Hk]. }
  exists sc. split; [exact Hc|].
  intros Hpage Hlimit. apply first_event; [|exact Hc].
  assert (isPrimitive (orDefault (num 1) page) = true) as Hp
    by (destruct page; try discriminate; reflexivity).
  assert (isPrimitive (orDefault (num 10) limit) = true) as Hl
    by (destruct limit; try discriminate; reflexivity).
  unfold offsetOf.
  pose proof (Hnum _ Hp) as H1. pose proof (Hnum _ Hl) as H2.
  destruct (ToNumber (orDefault (num 1) page)); [|discriminate].
  destruct (ToNumber (orDefault (num 10) limit)); [|discriminate].
  reflexivity.
Qed.

Lemma sampleFilters_rangeColumns : rangeColumns sampleFilters "Imperial".
Proof.
  split; [vm_compute; discriminate|]. split; [vm_compute; discriminate|].
  unfold elevationKeys. intros key Hin.
  repeat (destruct Hin as [<-|Hin]); try contradiction; vm_compute; discriminate.
Qed.

Lemma sample_engine_primitives :
  (forall v, isPrimitive v = true -> completes (sampleNumber v) = true) /\
  (forall v w, isPrimitive v = true -> isPrimitive w = true ->
               completes (sampleGt v w) = true).
Proof.
  split.
  - intros v Hv. destruct v; try discriminate; reflexivity.
  - intros v w Hv Hw. destruct v; try discriminate; destruct w; try discriminate;
      reflexivity.
Qed.

Lemma composition_succeeds_witness :
  exists sc,
    compose sampleGt sampleNumber sampleFilters (VStr "Falls")
      (Some [("difficulty", VStr "Easy"); ("type", num 5);
             ("features", VArr []); ("minElevation", num 100)]) "Imperial" =
      Normal sc /\
    (isPrimitive (VStr "2") = true ->
     isPrimitive VUndefined = true ->
     hd_error (snd (searchTrails sampleGt sampleNumber sampleFilters connected
                      emptyPageDb sampleHydrate (VStr "Falls") (VStr "2") VUndefined
                      (Some [("difficulty", VStr "Easy"); ("type", num 5);
                             ("features", VArr []); ("minElevation", num 100)])
                      VNull None)) =
       Some (Query (countQuery sc) (params (bound sc)))).
Proof.
  apply (composition_succeeds sampleGt sampleNumber sampleFilters emptyPageDb
           sampleHydrate (VStr "Falls") (VStr "2") VUndefined
           (Some [("difficulty", VStr "Easy"); ("type", num 5);
                  ("features", VArr []); ("minElevation", num 100)])
           VNull None).
  - exact (proj1 sample_engine_primitives).
  - exact (proj2 sample_engine_primitives).
  - exact sampleFilters_rangeColumns.
  - intros _. exists "Falls". reflexivity.
  - intros o [= <-] _. reflexivity.
  - intros o [= <-]. repeat constructor; simpl; tauto.
Defined.

(** X8. Connection discipline. On an acquired connection every run of
    [searchTrails] releases it exactly once, as its last event, whether the
    run returns or throws; when [connect] rejects, the rejection reaches the
    caller as it is and nothing else happens. *)
Theorem connection_released_last
    js_gt ToNumber jsToSqlFilters pool_connect db_query getFullTrailsByIds
    (searchTerm : value) (page limit : value) (fs : option obj)
    (userId : value) (unit : option string) :
  (pool_connect = connected ->
   exists evs,
     snd (searchTrails js_gt ToNumber jsToSqlFilters pool_connect db_query
            getFullTrailsByIds searchTerm page limit fs userId unit) =
       evs ++ [Release] /\
     existsb is_release evs = false) /\
  (forall e,
     pool_connect = Throw e ->
     searchTrails js_gt ToNumber jsToSqlFilters pool_connect db_query
       getFullTrailsByIds searchTerm page limit fs userId unit = (Throw e, [])).
Proof.
  split.
  - intros ->. unfold searchTrails, connected.
    assert (existsb is_release
              (snd (searchBody js_gt ToNumber jsToSqlFilters db_query
                      getFullTrailsByIds searchTerm (orDefault (num 1) page)
                      (orDefault (num 10) limit) fs userId
                      (default "Imperial" unit))) =
            false) as Hbody.
    { unfold searchBody.
      destruct (offsetOf ToNumber _ _) as [offset|e]; [|reflexivity].
      destruct (compose _ _ _ searchTerm fs _) as [sc|e]; [|reflexivity].
      destruct (db_query (sql (countQuery sc)) _) as [[|first more]|e];
        try reflexivity.
      rewrite !addParam_token.
      destruct (db_query (sql (finalQuery sc _ _)) _) as [rows|e]; [|reflexivity].
      destruct (Nat.ltb 0 (length rows)); [|reflexivity].
      destruct (rowIds ToNumber rows) as [ids|e]; [|reflexivity].
      destruct (getFullTrailsByIds _ userId); reflexivity. }
    destruct (searchBody _ _ _ _ _ searchTerm _ _ fs userId _) as [[found|e] evs];
      simpl in *.
    + exists evs. split; [reflexivity | exact Hbody].
    + exists (evs ++ [ConsoleError e]). split.
      * rewrite <- app_assoc. reflexivity.
      * rewrite existsb_app, Hbody. reflexivity.
  - intros e ->. reflexivity.
Qed.

Lemma connection_released_last_witness :
  (exists evs,
     snd (searchTrails sampleGt sampleNumber sampleFilters connected failingDb
            sampleHydrate (VStr "Cave") VUndefined VUndefined None VNull None) =
       evs ++ [Release] /\
     existsb is_release evs = false) /\
  searchTrails sampleGt sampleNumber sampleFilters
    (Throw (External "Error" "timeout exceeded when trying to connect"))
    failingDb sampleHydrate (VStr "Cave") VUndefined VUndefined None VNull None =
  (Throw (External "Error" "timeout exceeded when trying to connect"), []).
Proof.
  split.
  - apply (proj1 (connection_released_last sampleGt sampleNumber sampleFilters
                    connected failingDb sampleHydrate (VStr "Cave") VUndefined VUndefined
                    None VNull None)).
    reflexivity.
  - apply (proj2 (connection_released_last sampleGt sampleNumber sampleFilters
                    (Throw (External "Error" "timeout exceeded when trying to connect"))
                    failingDb sampleHydrate (VStr "Cave") VUndefined VUndefined None VNull
                    None)).
    reflexivity.
Defined.

(** X9. Count, then fetch, then hydrate. Once the offset is computed and the
    composition has succeeded on an acquired connection, the run issues the
    count query first, with the composed clause and parameters; the id
    fetch, if it is reached, carries the same clause and the same parameters
    followed by [limit] and the offset; the hydration collaborator is called
    at most once and only after both queries; and nothing else is observable
    but the log entry of a caught error and the release. *)
Theorem count_then_fetch_then_hydrate
    js_gt ToNumber jsToSqlFilters db_query getFullTrailsByIds
    (searchTerm page limit : value) (fs : option obj)
    (userId : value) (unit : option string) (offset : jsnum) (sc : scope) :
  offsetOf ToNumber (orDefault (num 1) page) (orDefault (num 10) limit) =
    Normal offset ->
  compose js_gt ToNumber jsToSqlFilters searchTerm fs (default "Imperial" unit) =
    Normal sc ->
  let q1 := Query (countQuery sc) (params (bound sc)) in
  let q2 :=
    Query (finalQuery sc (S (paramCount (bound sc))) (S (S (paramCount (bound sc)))))
      (params (bound sc) ++ [orDefault (num 10) limit; VNum offset]) in
  let trace :=
    snd (searchTrails js_gt ToNumber jsToSqlFilters connected db_query
           getFullTrailsByIds searchTerm page limit fs userId unit) in
  (exists e, trace = [q1; ConsoleError e; Release]) \/
  (exists e, trace = [q1; q2; ConsoleError e; Release]) \/
  trace = [q1; q2; Release] \/
  (exists ids, trace = [q1; q2; Hydrate ids userId; Release]) \/
  (exists ids e, trace = [q1; q2; Hydrate ids userId; ConsoleError e; Release]).
Proof.
  intros Hoff Hc. cbv zeta. unfold searchTrails, connected, searchBody.
  rewrite Hoff, Hc.
  destruct (db_query (sql (countQuery sc)) _) as [[|first more]|e];
    [left; eexists; reflexivity | | left; eexists; reflexivity].
  rewrite !addParam_token. cbn [params paramCount].
  rewrite <- app_assoc. cbn [app].
  destruct (db_query (sql (finalQuery sc _ _)) _) as [rows|e];
    [|right; left; eexists; reflexivity].
  destruct (Nat.ltb 0 (length rows)); [|right; right; left; reflexivity].
  destruct (rowIds ToNumber rows) as [ids|e]; [|right; left; eexists; reflexivity].
  destruct (getFullTrailsByIds _ userId).
  - right; right; right; left. eexists; reflexivity.
  - right; right; right; right. eexists _, _; reflexivity.
Qed.

Lemma count_then_fetch_then_hydrate_witness :
  (exists e,
     snd (searchTrails sampleGt sampleNumber sampleFilters connected twoRowDb
            sampleHydrate VNull (VStr "2") (VStr "5") None VNull None) =
     [Query (countQuery (start [])) []; ConsoleError e; Release]) \/
  (exists e,
     snd (searchTrails sampleGt sampleNumber sampleFilters connected twoRowDb
            sampleHydrate VNull (VStr "2") (VStr "5") None VNull None) =
     [Query (countQuery (start [])) [];
      Query (finalQuery (start []) 1 2) [VStr "5"; num 5];
      ConsoleError e; Release]) \/
  snd (searchTrails sampleGt sampleNumber sampleFilters connected twoRowDb
         sampleHydrate VNull (VStr "2") (VStr "5") None VNull None) =
    [Query (countQuery (start [])) [];
     Query (finalQuery (start []) 1 2) [VStr "5"; num 5]; Release] \/
  (exists ids,
     snd (searchTrails sampleGt sampleNumber sampleFilters connected twoRowDb
            sampleHydrate VNull (VStr "2") (VStr "5") None VNull None) =
     [Query (countQuery (start [])) [];
      Query (finalQuery (start []) 1 2) [VStr "5"; num 5];
      Hydrate ids VNull; Release]) \/
  (exists ids e,
     snd (searchTrails sampleGt sampleNumber sampleFilters connected twoRowDb
            sampleHydrate VNull (VStr "2") (VStr "5") None VNull None) =
     [Query (countQuery (start [])) [];
      Query (finalQuery (start []) 1 2) [VStr "5"; num 5];
      Hydrate ids VNull; ConsoleError e; Release]).
Proof.
  exact (count_then_fetch_then_hydrate sampleGt sampleNumber sampleFilters
           twoRowDb sampleHydrate VNull (VStr "2") (VStr "5") None VNull None
           (Fin (inject_Z 5)) (start []) eq_refl eq_refl).
Defined.

(** ** Maps keyed by SameValueZero *)

Lemma sameValueZero_sym (v w : value) : sameValueZero v w = sameValueZero w v.
Proof.
  destruct v as [| |a|[ | | |x]|s| |], w as [| |b|[ | | |y]|t| |];
    try reflexivity; simpl.
  - destruct a, b; reflexivity.
  - destruct (Qeq_bool x y) eqn:H1, (Qeq_bool y x) eqn:H2; try reflexivity.
    + apply Qeq_bool_iff in H1. symmetry in H1. apply Qeq_bool_iff in H1. congruence.
    + apply Qeq_bool_iff in H2. symmetry in H2. apply Qeq_bool_iff in H2. congruence.
  - apply String.eqb_sym.
Qed.

Lemma sameValueZero_trans (u v w : value) :
  sameValueZero u v = true -> sameValueZero v w = true -> sameValueZero u w = true.
Proof.
  destruct u as [| |a|[ | | |x]|s| |], v as [| |b|[ | | |y]|t| |];
    try discriminate;
    destruct w as [| |c|[ | | |z]|r| |]; try discriminate; simpl; auto.
  - destruct a, b, c; auto.
  - intros H1 H2. apply Qeq_bool_iff in H1, H2. apply Qeq_bool_iff.
    rewrite H1. exact H2.
  - intros H1 H2. apply String.eqb_eq in H1, H2. subst. apply String.eqb_refl.
Qed.

Lemma sameValueZero_congr (u v w : value) :
  sameValueZero u v = true -> sameValueZero u w = sameValueZero v w.
Proof.
  intros Huv.
  destruct (sameValueZero u w) eqn:Huw, (sameValueZero v w) eqn:Hvw; try reflexivity.
  - rewrite sameValueZero_sym in Huv.
    rewrite (sameValueZero_trans v u w Huv Huw) in Hvw. discriminate.
  - rewrite (sameValueZero_trans u v w Huv Hvw) in Huw. discriminate.
Qed.

Lemma map_get_set (k v : value) (m : jsmap) (k0 : value) :
  map_get (map_set k v m) k0 = if sameValueZero k k0 then v else map_get m k0.
Proof.
  induction m as [|[k' v'] m IH]; simpl; [reflexivity|].
  destruct (sameValueZero k' k) eqn:Hk; simpl.
  - rewrite (sameValueZero_congr k' k k0 Hk).
    destruct (sameValueZero k k0); reflexivity.
  - rewrite IH.
    destruct (sameValueZero k' k0) eqn:Hk0, (sameValueZero k k0) eqn:Hkk0;
      try reflexivity.
    rewrite sameValueZero_sym in Hkk0.
    rewrite (sameValueZero_trans k' k0 k Hk0 Hkk0) in Hk. discriminate.
Qed.

Lemma find_over_app {A : Type} (p : A -> bool) (l1 l2 : list A) :
  find p (l1 ++ l2) = match find p l1 with Some x => Some x | None => find p l2 end.
Proof.
  induction l1 as [|x l1 IH]; simpl; [reflexivity|].
  destruct (p x); [reflexivity | exact IH].
Qed.

(** A map built from entries answers with the last entry of the key. *)
Lemma map_get_fold (entries : list (value * value)) (m : jsmap) (k : value) :
  map_get (fold_left (fun m kv => map_set (fst kv) (snd kv) m) entries m) k =
  match find (fun kv => sameValueZero (fst kv) k) (rev entries) with
  | Some kv => snd kv
  | None => map_get m k
  end.
Proof.
  revert m. induction entries as [|[k1 v1] entries IH]; intros m; [reflexivity|].
  simpl. rewrite IH, find_over_app.
  destruct (find _ (rev entries)); [reflexivity|].
  simpl. rewrite map_get_set. destruct (sameValueZero k1 k); reflexivity.
Qed.

Lemma map_get_newMap (entries : list (value * value)) (k : value) :
  map_get (newMap entries) k =
  match find (fun kv => sameValueZero (fst kv) k) (rev entries) with
  | Some kv => snd kv
  | None => VUndefined
  end.
Proof. unfold newMap. rewrite map_get_fold. reflexivity. Qed.

Lemma arr_includes_congr (l : list value) (v w : value) :
  sameValueZero v w = true -> arr_includes l v = arr_includes l w.
Proof.
  intros H. unfold arr_includes. induction l as [|x l IH]; simpl; [reflexivity|].
  rewrite IH. f_equal.
  rewrite (sameValueZero_sym x v), (sameValueZero_sym x w).
  apply sameValueZero_congr. exact H.
Qed.

(** ** Hydration: [Trail.getFullTrailsByIds] *)

Lemma obj_has_set (k k' : string) (v : value) (o : obj) :
  obj_has (obj_set k v o) k' = String.eqb k' k || obj_has o k'.
Proof.
  unfold obj_has, obj_keys.
  induction o as [|[k0 v0] o IH]; simpl.
  - reflexivity.
  - destruct (String.eqb_spec k0 k) as [->|Hk]; simpl.
    + destruct (String.eqb k' k); reflexivity.
    + rewrite IH. destruct (String.eqb k' k), (String.eqb k' k0); reflexivity.
Qed.

Section HydrationFacts.

Variable ToNumber : value -> jsnum.
Variable typeErrorText : string.
Variable db_query : string -> list value -> query_outcome.
Variable readStats readFeatures readImages : list jsnum -> completion (list obj).
Variable readCoords : list jsnum -> completion (option (list obj)).
Variable readWishList readCompleted : value -> list jsnum -> completion (list value).
Variable firstRejected : list js_error -> js_error.

Lemma toTrailIds_numeric (rawTrailIds : list value) :
  forallb (fun id => negb (isNaN (ToNumber id))) rawTrailIds = true ->
  Trail.toTrailIds ToNumber rawTrailIds = Normal (map ToNumber rawTrailIds).
Proof.
  induction rawTrailIds as [|id rest IH]; simpl; [reflexivity|].
  intros H. apply andb_true_iff in H as [Hid Hrest].
  apply negb_true_iff in Hid. rewrite Hid, IH by exact Hrest. reflexivity.
Qed.

Lemma toTrailIds_nan (rawTrailIds : list value) :
  existsb (fun id => isNaN (ToNumber id)) rawTrailIds = true ->
  Trail.toTrailIds ToNumber rawTrailIds =
  Throw (BadRequestError "Trail ids must be a number.").
Proof.
  induction rawTrailIds as [|id rest IH]; simpl; [discriminate|].
  destruct (isNaN (ToNumber id)); [reflexivity|]. simpl.
  intros H. rewrite IH by exact H. reflexivity.
Qed.

Lemma toTrailIds_result (rawTrailIds : list value) (trailIds : list jsnum) :
  Trail.toTrailIds ToNumber rawTrailIds = Normal trailIds ->
  trailIds = map ToNumber rawTrailIds.
Proof.
  revert trailIds. induction rawTrailIds as [|id rest IH]; simpl; intros trailIds.
  - intros [= <-]. reflexivity.
  - destruct (isNaN (ToNumber id)); [discriminate|].
    destruct (Trail.toTrailIds ToNumber rest) as [ids|e]; simpl; [|discriminate].
    intros [= <-]. rewrite (IH ids eq_refl). reflexivity.
Qed.

(** What a successful body went through. *)
Lemma body_success (rawTrailIds : list value) (userId found : value) (evs : list io) :
  Trail.fullTrailsBody ToNumber db_query readStats readFeatures readImages
    readCoords readWishList readCompleted firstRejected rawTrailIds userId =
    (Normal found, evs) ->
  exists trailIds trails stats features images coords wishList completed decorated,
    Trail.toTrailIds ToNumber rawTrailIds = Normal trailIds /\
    db_query Trail.trailsText [idArray trailIds] = QRows trails /\
    trails <> [] /\
    readStats trailIds = Normal stats /\
    readFeatures trailIds = Normal features /\
    readImages trailIds = Normal images /\
    readCoords trailIds = Normal coords /\
    (if truthy userId
     then bind (readWishList userId trailIds) (fun l => Normal (Some l))
     else Normal None) = Normal wishList /\
    (if truthy userId
     then bind (readCompleted userId trailIds) (fun l => Normal (Some l))
     else Normal None) = Normal completed /\
    Trail.assemble userId trailIds trails stats features images coords wishList
      completed = Normal decorated /\
    found = VArr (map VObj decorated).
Proof.
  unfold Trail.fullTrailsBody.
  destruct (Trail.toTrailIds ToNumber rawTrailIds) as [trailIds|e] eqn:Hids;
    [|discriminate].
  destruct (db_query Trail.trailsText _) as [trails|e] eqn:Hq; [|discriminate].
  destruct trails as [|t ts]; [discriminate|]. cbn [length Nat.ltb Nat.leb].
  destruct (readStats trailIds) as [s|] eqn:Hs; [|discriminate].
  destruct (readFeatures trailIds) as [f|] eqn:Hf; [|discriminate].
  destruct (readImages trailIds) as [i|] eqn:Hi; [|discriminate].
  destruct (readCoords trailIds) as [c|] eqn:Hcs; [|discriminate].
  destruct (if truthy userId
            then bind (readWishList userId trailIds) (fun l => Normal (Some l))
            else Normal None) as [w|] eqn:Hw; [|discriminate].
  destruct (if truthy userId
            then bind (readCompleted userId trailIds) (fun l => Normal (Some l))
            else Normal None) as [d|] eqn:Hd; [|discriminate].
  destruct (Trail.assemble userId trailIds (t :: ts) s f i c w d) as [decorated|]
    eqn:Ha; simpl; [|discriminate].
  intros H. injection H as Hfound _. subst found.
  exists trailIds, (t :: ts), s, f, i, c, w, d, decorated.
  split; [reflexivity|]. split; [exact Hq|]. split; [discriminate|].
  repeat (split; [first [reflexivity | assumption]|]). reflexivity.
Qed.

Lemma assemble_result (userId : value) (trailIds : list jsnum) (trails : list obj)
    (stats features images : list obj) (coords : option (list obj))
    (wishList completed : option (list value)) (decorated : list obj) :
  Trail.assemble userId trailIds trails stats features images coords wishList
    completed = Normal decorated ->
  exists coordMap,
    decorated =
    map (Trail.decorate
           (newMap (map (fun stat => (obj_get stat "trail_id", VObj stat)) stats))
           (newMap (map (fun feature =>
                           (obj_get feature "trail_id", obj_get feature "features"))
                      features))
           (newMap (map (fun image => (obj_get image "trail_id", obj_get image "paths"))
                      images))
           coordMap
           (Trail.listMap userId wishList trailIds)
           (Trail.listMap userId completed trailIds))
      trails.
Proof.
  unfold Trail.assemble.
  destruct (match coords with Some (c :: cs) => _ | _ => _ end) as [coordMap|];
    simpl; [|discriminate].
  intros [= <-]. exists coordMap. reflexivity.
Qed.

End HydrationFacts.

Section Decoration.

Variable statsMap featuresMap imagesMap : jsmap.
Variable coordMap wishListMap completedListMap : option jsmap.
Variable trail : obj.

Lemma decorate_keeps (k : string) :
  ~ In k decorKeys ->
  obj_get (Trail.decorate statsMap featuresMap imagesMap coordMap wishListMap
             completedListMap trail) k = obj_get trail k.
Proof.
  unfold decorKeys. simpl. intros Hk. unfold Trail.decorate. cbv zeta.
  rewrite !obj_get_set_ne by (intros H; apply Hk; subst k; tauto). reflexivity.
Qed.

Lemma decorate_has (k : string) :
  In k decorKeys ->
  obj_has (Trail.decorate statsMap featuresMap imagesMap coordMap wishListMap
             completedListMap trail) k = true.
Proof.
  unfold decorKeys. intros Hk. unfold Trail.decorate. cbv zeta.
  rewrite !obj_has_set.
  repeat (destruct Hk as [<-|Hk]); try contradiction; simpl;
    rewrite ?orb_true_r; reflexivity.
Qed.

Lemma decorate_stats :
  obj_get (Trail.decorate statsMap featuresMap imagesMap coordMap wishListMap
             completedListMap trail) "stats" =
  delete_prop "trail_id" (js_or (map_get statsMap (obj_get trail "id")) (VObj [])).
Proof.
  unfold Trail.decorate. cbv zeta.
  rewrite !obj_get_set_ne by discriminate. apply obj_get_set_eq.
Qed.

Lemma decorate_features :
  obj_get (Trail.decorate statsMap featuresMap imagesMap coordMap wishListMap
             completedListMap trail) "features" =
  delete_prop "trail_id" (js_or (map_get featuresMap (obj_get trail "id")) (VArr [])).
Proof.
  unfold Trail.decorate. cbv zeta.
  rewrite 4!(obj_get_set_ne _ "features") by discriminate.
  rewrite obj_get_set_eq, obj_get_set_ne by discriminate. reflexivity.
Qed.

Lemma decorate_isWishList :
  obj_get (Trail.decorate statsMap featuresMap imagesMap coordMap wishListMap
             completedListMap trail) "isWishList" =
  match wishListMap with
  | Some m => map_get m (obj_get trail "id")
  | None => VBool false
  end.
Proof.
  unfold Trail.decorate. cbv zeta.
  rewrite (obj_get_set_ne "isComplete" "isWishList") by discriminate.
  rewrite obj_get_set_eq, !obj_get_set_ne by discriminate. reflexivity.
Qed.

Lemma decorate_isComplete :
  obj_get (Trail.decorate statsMap featuresMap imagesMap coordMap wishListMap
             completedListMap trail) "isComplete" =
  match completedListMap with
  | Some m => map_get m (obj_get trail "id")
  | None => VBool false
  end.
Proof.
  unfold Trail.decorate. cbv zeta.
  rewrite obj_get_set_eq, !obj_get_set_ne by discriminate. reflexivity.
Qed.

End Decoration.

Lemma Forall2_map_self {A B : Type} (P : A -> B -> Prop) (f : A -> B) (l : list A) :
  (forall x, In x l -> P x (f x)) -> Forall2 P l (map f l).
Proof.
  induction l as [|x l IH]; intros H; simpl; constructor.
  - apply H. left; reflexivity.
  - apply IH. intros y Hy. apply H. right; exact Hy.
Qed.

Lemma find_map {A B : Type} (p : B -> bool) (f : A -> B) (l : list A) :
  find p (map f l) = option_map f (find (fun x => p (f x)) l).
Proof.
  induction l as [|x l IH]; simpl; [reflexivity|].
  destruct (p (f x)); [reflexivity | exact IH].
Qed.

Lemma flag_lookup (onList : list value) (ids : list jsnum) (n : jsnum) :
  arr_includes (map VNum ids) (VNum n) = true ->
  map_get (newMap (map (fun id => (VNum id, VBool (arr_includes onList (VNum id)))) ids))
    (VNum n) =
  VBool (arr_includes onList (VNum n)).
Proof.
  intros Hin. rewrite map_get_newMap, <- map_rev, find_map.
  destruct (find _ (rev ids)) as [id|] eqn:Hfind; simpl.
  - apply find_some in Hfind as [_ Hsame]. cbn [fst] in Hsame.
    rewrite (arr_includes_congr onList (VNum id) (VNum n) Hsame). reflexivity.
  - exfalso. unfold arr_includes in Hin.
    apply existsb_exists in Hin as (w & Hw & Hsame).
    apply in_map_iff in Hw as (id & <- & Hid).
    pose proof (find_none _ _ Hfind id) as Hnone. cbn [fst] in Hnone.
    rewrite Hnone in Hsame; [discriminate|]. apply in_rev in Hid. exact Hid.
Qed.

Lemma listMap_flag (userId : value) (onList : list value) (ids : list jsnum)
    (n : jsnum) :
  truthy userId = true ->
  arr_includes (map VNum ids) (VNum n) = true ->
  match Trail.listMap userId (Some onList) ids with
  | Some m => map_get m (VNum n)
  | None => VBool false
  end = VBool (arr_includes onList (VNum n)).
Proof.
  intros Huser Hin. unfold Trail.listMap. rewrite Huser.
  destruct onList as [|w ws]; [reflexivity|].
  cbn [length Nat.ltb Nat.leb andb]. apply flag_lookup. exact Hin.
Qed.

Section HydrationContract.

Variable ToNumber : value -> jsnum.
Variable typeErrorText : string.
Variable db_query : string -> list value -> query_outcome.
Variable readStats readFeatures readImages : list jsnum -> completion (list obj).
Variable readCoords : list jsnum -> completion (option (list obj)).
Variable readWishList readCompleted : value -> list jsnum -> completion (list value).
Variable firstRejected : list js_error -> js_error.

(** X10. A raw id that [Number] sends to [NaN] makes [getFullTrailsByIds]
    throw the bad-request error as it is, logged, with the connection
    released and no query issued. *)
Theorem hydration_rejects_non_numeric_id (rawTrailIds : list value) (userId : value) :
  existsb (fun id => isNaN (ToNumber id)) rawTrailIds = true ->
  Trail.getFullTrailsByIds ToNumber typeErrorText connected db_query readStats
    readFeatures readImages readCoords readWishList readCompleted firstRejected
    rawTrailIds userId =
  (Throw (BadRequestError "Trail ids must be a number."),
   [IoLog None (BadRequestError "Trail ids must be a number."); IoRelease]).
Proof.
  intros Hnan. unfold Trail.getFullTrailsByIds, connected, Trail.fullTrailsBody.
  rewrite (toTrailIds_nan ToNumber rawTrailIds Hnan). reflexivity.
Qed.

(** X11. When every raw id is a number and the trail query finds no row
    (as for an empty id list on an engine that answers it with no row),
    [getFullTrailsByIds] throws the not-found error as it is, after the one
    query, without calling any attribute reader. *)
Theorem hydration_no_rows_not_found (rawTrailIds : list value) (userId : value) :
  forallb (fun id => negb (isNaN (ToNumber id))) rawTrailIds = true ->
  db_query Trail.trailsText [idArray (map ToNumber rawTrailIds)] = QRows [] ->
  Trail.getFullTrailsByIds ToNumber typeErrorText connected db_query readStats
    readFeatures readImages readCoords readWishList readCompleted firstRejected
    rawTrailIds userId =
  (Throw (NotFoundError "No trails found for the provided IDs"),
   [IoQuery Trail.trailsText [idArray (map ToNumber rawTrailIds)];
    IoLog None (NotFoundError "No trails found for the provided IDs");
    IoRelease]).
Proof.
  intros Hnum Hq. unfold Trail.getFullTrailsByIds, connected, Trail.fullTrailsBody.
  rewrite (toTrailIds_numeric ToNumber rawTrailIds Hnum), Hq. reflexivity.
Qed.

(** X12. Whatever [getFullTrailsByIds] throws on an acquired connection is a
    not-found error, a bad-request error, or a database error whose message
    is the fixed prefix followed by the message of the caught error; the
    caught error is logged and the connection released. *)
Theorem hydration_error_classes (rawTrailIds : list value) (userId : value)
    (err : js_error) :
  fst (Trail.getFullTrailsByIds ToNumber typeErrorText connected db_query readStats
         readFeatures readImages readCoords readWishList readCompleted
         firstRejected rawTrailIds userId) = Throw err ->
  exists (e : js_error) (evs : list io),
    snd (Trail.getFullTrailsByIds ToNumber typeErrorText connected db_query
           readStats readFeatures readImages readCoords readWishList
           readCompleted firstRejected rawTrailIds userId) =
      evs ++ [IoLog None e; IoRelease] /\
    ((instanceOf "NotFoundError" e || instanceOf "BadRequestError" e = true /\
      err = e) \/
     (instanceOf "NotFoundError" e || instanceOf "BadRequestError" e = false /\
      err = DatabaseError
              ("Error retrieving trail by id: " +:+
               Trail.errorMessage typeErrorText e))).
Proof.
  unfold Trail.getFullTrailsByIds, connected.
  destruct (Trail.fullTrailsBody _ _ _ _ _ _ _ _ _ rawTrailIds userId)
    as [[found|e] evs]; simpl; [discriminate|].
  intros [= <-]. exists e, evs. split; [reflexivity|].
  destruct (instanceOf "NotFoundError" e || instanceOf "BadRequestError" e);
    [left | right]; split; reflexivity.
Qed.

(** X13. On success [getFullTrailsByIds] returns one record per row of the
    trail query, in the order of the rows; each record keeps every field of
    its row outside the six decorations and carries all six of them. *)
Theorem hydration_keeps_rows (rawTrailIds : list value) (userId found : value) :
  fst (Trail.getFullTrailsByIds ToNumber typeErrorText connected db_query readStats
         readFeatures readImages readCoords readWishList readCompleted
         firstRejected rawTrailIds userId) = Normal found ->
  exists (rows decorated : list obj),
    db_query Trail.trailsText [idArray (map ToNumber rawTrailIds)] = QRows rows /\
    rows <> [] /\
    found = VArr (map VObj decorated) /\
    Forall2
      (fun row t =>
         (forall k, ~ In k decorKeys -> obj_get t k = obj_get row k) /\
         (forall k, In k decorKeys -> obj_has t k = true))
      rows decorated.
Proof.
  unfold Trail.getFullTrailsByIds, connected.
  destruct (Trail.fullTrailsBody _ _ _ _ _ _ _ _ _ rawTrailIds userId)
    as [[v|e] evs] eqn:Hbody; simpl; [|discriminate].
  intros [= ->].
  apply body_success in Hbody
    as (ids & rows & s & f & i & c & w & d & decorated & Hids & Hq & Hne & _ & _
        & _ & _ & _ & _ & Ha & ->).
  apply toTrailIds_result in Hids as ->.
  apply assemble_result in Ha as [coordMap ->].
  eexists rows, _.
  split; [exact Hq|]. split; [exact Hne|]. split; [reflexivity|].
  apply Forall2_map_self. intros row _. split.
  - intros k Hk. apply decorate_keeps. exact Hk.
  - intros k Hk. apply decorate_has. exact Hk.
Qed.

(** X14. With a truthy [userId], every returned record whose row id is one
    of the requested numbers has [isWishList] and [isComplete] set to
    whether that id is on the list its reader returned. *)
Theorem hydration_flags_follow_lists (rawTrailIds : list value)
    (userId found : value) :
  truthy userId = true ->
  fst (Trail.getFullTrailsByIds ToNumber typeErrorText connected db_query readStats
         readFeatures readImages readCoords readWishList readCompleted
         firstRejected rawTrailIds userId) = Normal found ->
  exists (rows decorated : list obj) (wishList completed : list value),
    db_query Trail.trailsText [idArray (map ToNumber rawTrailIds)] = QRows rows /\
    readWishList userId (map ToNumber rawTrailIds) = Normal wishList /\
    readCompleted userId (map ToNumber rawTrailIds) = Normal completed /\
    found = VArr (map VObj decorated) /\
    Forall2
      (fun row t =>
         forall n,
           obj_get row "id" = VNum n ->
           arr_includes (map VNum (map ToNumber rawTrailIds)) (VNum n) = true ->
           obj_get t "isWishList" = VBool (arr_includes wishList (VNum n)) /\
           obj_get t "isComplete" = VBool (arr_includes completed (VNum n)))
      rows decorated.
Proof.
  intros Huser. unfold Trail.getFullTrailsByIds, connected.
  destruct (Trail.fullTrailsBody _ _ _ _ _ _ _ _ _ rawTrailIds userId)
    as [[v|e] evs] eqn:Hbody; simpl; [|discriminate].
  intros [= ->].
  apply body_success in Hbody
    as (ids & rows & s & f & i & c & w & d & decorated & Hids & Hq & Hne & _ & _
        & _ & _ & Hw & Hd & Ha & ->).
  apply toTrailIds_result in Hids as ->.
  rewrite Huser in Hw, Hd.
  destruct (readWishList userId _) as [wl|] eqn:Hwl; simpl in Hw; [|discriminate].
  destruct (readCompleted userId _) as [cl|] eqn:Hcl; simpl in Hd; [|discriminate].
  injection Hw as <-. injection Hd as <-.
  apply assemble_result in Ha as [coordMap ->].
  eexists rows, _, wl, cl.
  repeat (split; [first [assumption | reflexivity]|]).
  apply Forall2_map_self. intros row _ n Hid Hin.
  rewrite decorate_isWishList, decorate_isComplete, Hid.
  split; apply listMap_flag; assumption.
Qed.

(** X15. On success the [stats] of every returned record is the last stats
    row whose [trail_id] is the same value as the row's id, without its
    [trail_id] field, and the empty object when there is none. *)
Theorem hydration_attaches_stats (rawTrailIds : list value) (userId found : value) :
  fst (Trail.getFullTrailsByIds ToNumber typeErrorText connected db_query readStats
         readFeatures readImages readCoords readWishList readCompleted
         firstRejected rawTrailIds userId) = Normal found ->
  exists (rows decorated stats : list obj),
    db_query Trail.trailsText [idArray (map ToNumber rawTrailIds)] = QRows rows /\
    readStats (map ToNumber rawTrailIds) = Normal stats /\
    found = VArr (map VObj decorated) /\
    Forall2
      (fun row t =>
         exists o,
           obj_get t "stats" = VObj o /\
           obj_get o "trail_id" = VUndefined /\
           o = match find (fun stat => sameValueZero (obj_get stat "trail_id")
                                         (obj_get row "id")) (rev stats) with
               | Some stat => obj_delete "trail_id" stat
               | None => []
               end)
      rows decorated.
Proof.
  unfold Trail.getFullTrailsByIds, connected.
  destruct (Trail.fullTrailsBody _ _ _ _ _ _ _ _ _ rawTrailIds userId)
    as [[v|e] evs] eqn:Hbody; simpl; [|discriminate].
  intros [= ->].
  apply body_success in Hbody
    as (ids & rows & s & f & i & c & w & d & decorated & Hids & Hq & Hne & Hs & _
        & _ & _ & _ & _ & Ha & ->).
  apply toTrailIds_result in Hids as ->.
  apply assemble_result in Ha as [coordMap ->].
  eexists rows, _, s.
  repeat (split; [first [assumption | reflexivity]|]).
  apply Forall2_map_self. intros row _.
  rewrite decorate_stats, map_get_newMap, <- map_rev, find_map.
  destruct (find _ (rev s)) as [stat|]; simpl.
  - exists (obj_delete "trail_id" stat).
    split; [reflexivity|]. split; [apply obj_get_delete_same | reflexivity].
  - exists []. repeat split.
Qed.

End HydrationContract.

(** X16. With a falsy [userId] the two list readers play no part: they are
    not called, the run is the same whatever they would answer, and every
    returned record has [isWishList] and [isComplete] false. *)
Theorem hydration_without_user
    ToNumber typeErrorText db_query readStats readFeatures readImages readCoords
    (readWishList readCompleted readWishList' readCompleted' :
       value -> list jsnum -> completion (list value))
    firstRejected (rawTrailIds : list value) (userId : value) :
  truthy userId = false ->
  let run :=
    Trail.getFullTrailsByIds ToNumber typeErrorText connected db_query readStats
      readFeatures readImages readCoords readWishList readCompleted firstRejected
      rawTrailIds userId in
  run =
    Trail.getFullTrailsByIds ToNumber typeErrorText connected db_query readStats
      readFeatures readImages readCoords readWishList' readCompleted'
      firstRejected rawTrailIds userId /\
  ~ In (IoCall "isOnWishList") (snd run) /\
  ~ In (IoCall "isOnCompletedList") (snd run) /\
  forall found,
    fst run = Normal found ->
    exists decorated,
      found = VArr (map VObj decorated) /\
      Forall (fun t => obj_get t "isWishList" = VBool false /\
                       obj_get t "isComplete" = VBool false) decorated.
Proof.
  intros Hfalsy. cbv zeta. split; [|split; [|split]].
  - unfold Trail.getFullTrailsByIds, Trail.fullTrailsBody. rewrite Hfalsy.
    reflexivity.
  - unfold Trail.getFullTrailsByIds, connected, Trail.fullTrailsBody.
    rewrite Hfalsy.
    destruct (Trail.toTrailIds ToNumber rawTrailIds) as [ids|e]; simpl;
      [|intuition discriminate].
    destruct (db_query Trail.trailsText _) as [[|t ts]|e]; simpl;
      try (intuition discriminate).
    destruct (readStats ids), (readFeatures ids), (readImages ids), (readCoords ids);
      simpl;
      try (destruct (Trail.assemble _ _ _ _ _ _ _ _ _); simpl);
      intuition discriminate.
  - unfold Trail.getFullTrailsByIds, connected, Trail.fullTrailsBody.
    rewrite Hfalsy.
    destruct (Trail.toTrailIds ToNumber rawTrailIds) as [ids|e]; simpl;
      [|intuition discriminate].
    destruct (db_query Trail.trailsText _) as [[|t ts]|e]; simpl;
      try (intuition discriminate).
    destruct (readStats ids), (readFeatures ids), (readImages ids), (readCoords ids);
      simpl;
      try (destruct (Trail.assemble _ _ _ _ _ _ _ _ _); simpl);
      intuition discriminate.
  - intros found. unfold Trail.getFullTrailsByIds, connected.
    destruct (Trail.fullTrailsBody _ _ _ _ _ _ _ _ _ rawTrailIds userId)
      as [[v|e] evs] eqn:Hbody; simpl; [|discriminate].
    intros [= ->].
    apply body_success in Hbody
      as (ids & rows & s & f & i & c & w & d & decorated & _ & _ & _ & _ & _
          & _ & _ & Hw & Hd & Ha & ->).
    rewrite Hfalsy in Hw, Hd. injection Hw as <-. injection Hd as <-.
    apply assemble_result in Ha as [coordMap ->].
    eexists. split; [reflexivity|].
    apply List.Forall_forall. intros t Ht.
    apply in_map_iff in Ht as (row & <- & _).
    rewrite decorate_isWishList, decorate_isComplete. split; reflexivity.
Qed.

(** ** The single-query functions of the trail model *)

(** X17. On an acquired connection [verifyTrailExists] never throws: it
    returns true when the query finds a row and undefined otherwise, the
    not-found error and a query failure alike being logged and dropped; the
    connection is released last. *)
Theorem verifyTrailExists_never_throws
    ToString db_query (trailId : value) :
  let run := Trail.verifyTrailExists ToString connected db_query trailId in
  (fst run = Normal (VBool true) /\
   exists row rows, db_query Trail.existsText [trailId] = QRows (row :: rows)) \/
  (fst run = Normal VUndefined /\
   (db_query Trail.existsText [trailId] = QRows [] /\
    snd run =
      [IoQuery Trail.existsText [trailId];
       IoLog None (NotFoundError ("Trail id " +:+ ToString trailId +:+ " not found"));
       IoRelease] \/
    exists e,
      db_query Trail.existsText [trailId] = QFail e /\
      snd run = [IoQuery Trail.existsText [trailId]; IoLog None e; IoRelease])).
Proof.
  cbv zeta. unfold Trail.verifyTrailExists, connected.
  destruct (db_query Trail.existsText [trailId]) as [[|row rows]|e]; simpl.
  - right. split; [reflexivity|]. left. split; reflexivity.
  - left. split; [reflexivity|]. exists row, rows. reflexivity.
  - right. split; [reflexivity|]. right. exists e. split; reflexivity.
Qed.

(** X18. [linestringToGeoJSON] answers with one entry per row, in order, each
    carrying the row's [trail_id] and the decoded geometry of its
    [polyline]; it fails exactly with the failure of the first row that does
    not decode. *)
Theorem linestring_keeps_rows
    (wkbToGeoJSON : value -> completion value) (dataArr : list obj) :
  match Trail.linestringToGeoJSON wkbToGeoJSON dataArr with
  | Normal coordArray =>
      map (fun coord => obj_get coord "trail_id") coordArray =
        map (fun dataObj => obj_get dataObj "trail_id") dataArr /\
      map (fun coord => Normal (obj_get coord "geojson")) coordArray =
        map (fun dataObj => wkbToGeoJSON (obj_get dataObj "polyline")) dataArr
  | Throw e =>
      exists before dataObj after,
        dataArr = before ++ dataObj :: after /\
        wkbToGeoJSON (obj_get dataObj "polyline") = Throw e /\
        Forall (fun d => completes (wkbToGeoJSON (obj_get d "polyline")) = true)
          before
  end.
Proof.
  induction dataArr as [|dataObj rest IH]; simpl; [split; reflexivity|].
  destruct (wkbToGeoJSON (obj_get dataObj "polyline")) as [geojson|e] eqn:Hg; simpl.
  - destruct (Trail.linestringToGeoJSON wkbToGeoJSON rest) as [cs|e]; simpl.
    + destruct IH as [Hids Hgeo]. simpl. rewrite Hids, Hgeo. split; reflexivity.
    + destruct IH as (before & d & after & -> & Hthrow & Hbefore).
      exists (dataObj :: before), d, after.
      split; [reflexivity|]. split; [exact Hthrow|].
      constructor; [rewrite Hg; reflexivity | exact Hbefore].
  - exists [], dataObj, rest. split; [reflexivity|]. split; [exact Hg|].
    constructor.
Qed.

(** X19. On an acquired connection [getTrailCoordsByIds] answers undefined
    when the query finds no row and when the query fails, the failure being
    logged and dropped; but when rows are found and one does not decode, the
    failure of [linestringToGeoJSON] reaches the caller, unlogged, after
    the connection is released. *)
Theorem coords_swallow_query_failure_only
    db_query wkbToGeoJSON (trailIds : list jsnum) :
  let run :=
    Trail.getTrailCoordsByIds connected db_query wkbToGeoJSON trailIds in
  let q := IoQuery Trail.coordsText [idArray trailIds] in
  (db_query Trail.coordsText [idArray trailIds] = QRows [] ->
   run = (Normal None, [q; IoRelease])) /\
  (forall e,
     db_query Trail.coordsText [idArray trailIds] = QFail e ->
     run = (Normal None, [q; IoLog None e; IoRelease])) /\
  (forall row rows,
     db_query Trail.coordsText [idArray trailIds] = QRows (row :: rows) ->
     (forall coordArray,
        Trail.linestringToGeoJSON wkbToGeoJSON (row :: rows) = Normal coordArray ->
        run = (Normal (Some coordArray), [q; IoRelease])) /\
     (forall e,
        Trail.linestringToGeoJSON wkbToGeoJSON (row :: rows) = Throw e ->
        run = (Throw e, [q; IoRelease]))).
Proof.
  cbv zeta. unfold Trail.getTrailCoordsByIds, connected. split; [|split].
  - intros ->. reflexivity.
  - intros e ->. reflexivity.
  - intros row rows ->. cbn [length Nat.ltb Nat.leb].
    split; [intros coordArray -> | intros e ->]; reflexivity.
Qed.

(** X20. On an acquired connection [getFeatureByName] returns the [id] of
    the first row found; what it throws is a not-found error (its own, when
    no row is found, or one the query raised) or else a database error
    whose message is the fixed prefix followed by the message of the query
    failure. *)
Theorem getFeatureByName_errors
    ToString typeErrorText db_query (feature : value) :
  let run :=
    Trail.getFeatureByName ToString typeErrorText connected db_query feature in
  (forall first rest,
     db_query Trail.featureIdText [feature] = QRows (first :: rest) ->
     fst run = Normal (obj_get first "id")) /\
  (db_query Trail.featureIdText [feature] = QRows [] ->
   fst run =
     Throw (NotFoundError ("Feature " +:+ ToString feature +:+ " not found."))) /\
  (forall err,
     fst run = Throw err ->
     instanceOf "NotFoundError" err = true \/
     exists e,
       db_query Trail.featureIdText [feature] = QFail e /\
       instanceOf "NotFoundError" e = false /\
       err = DatabaseError
               ("Error fetching feature by name: " +:+
                Trail.errorMessage typeErrorText e)).
Proof.
  cbv zeta. unfold Trail.getFeatureByName, connected. split; [|split].
  - intros first rest ->. reflexivity.
  - intros ->. reflexivity.
  - intros err.
    destruct (db_query Trail.featureIdText [feature]) as [[|first rest]|e]; simpl.
    + intros [= <-]. left. reflexivity.
    + discriminate.
    + destruct (instanceOf "NotFoundError" e) eqn:Hcls; intros [= <-].
      * left. exact Hcls.
      * right. exists e. repeat split. exact Hcls.
Qed.

(** X21. A failure of the completed-list reader cannot be told from a
    failure of the wish-list reader: for the same user both throw the same
    database error, whose message names the wish list and the user but not
    the failure of the query. *)
Theorem list_readers_fail_alike
    ToString (db_query db_query' : string -> list value -> query_outcome)
    (userId : value) (trailIds : list jsnum) (e e' : js_error) :
  db_query User.wishText [userId; idArray trailIds] = QFail e ->
  db_query' User.completedText [userId; idArray trailIds] = QFail e' ->
  fst (User.isOnWishList ToString connected db_query userId trailIds) =
    Throw (DatabaseError ("Unable to retrive wishlist for user " +:+ ToString userId)) /\
  fst (User.isOnCompletedList ToString connected db_query' userId trailIds) =
    fst (User.isOnWishList ToString connected db_query userId trailIds).
Proof.
  intros Hw Hc. unfold User.isOnWishList, User.isOnCompletedList, connected.
  rewrite Hw, Hc. split; reflexivity.
Qed.

(** X22. Reader failure, as the caller of [getFullTrailsByIds] sees it. When
    the trail query finds rows and the statistics reader is the one call
    under [Promise.all] that rejects, its database error is caught and
    wrapped once more: the message carries the prefix of
    [getFullTrailsByIds], then the prefix of [getStatsByIds], then the
    message of the failed query. *)
Theorem stats_failure_is_wrapped_twice
    ToNumber typeErrorText db_query readFeatures readImages readCoords
    readWishList readCompleted firstRejected
    (rawTrailIds : list value) (userId : value) (row : obj) (rows : list obj)
    (e : js_error) :
  (forall x, firstRejected [x] = x) ->
  forallb (fun id => negb (isNaN (ToNumber id))) rawTrailIds = true ->
  db_query Trail.trailsText [idArray (map ToNumber rawTrailIds)] =
    QRows (row :: rows) ->
  db_query (Trail.statsText "imperial") [idArray (map ToNumber rawTrailIds)] =
    QFail e ->
  completes (readFeatures (map ToNumber rawTrailIds)) = true ->
  completes (readImages (map ToNumber rawTrailIds)) = true ->
  completes (readCoords (map ToNumber rawTrailIds)) = true ->
  (truthy userId = true ->
   completes (readWishList userId (map ToNumber rawTrailIds)) = true /\
   completes (readCompleted userId (map ToNumber rawTrailIds)) = true) ->
  fst (Trail.getFullTrailsByIds ToNumber typeErrorText connected db_query
         (fun ids => fst (Trail.getStatsByIds typeErrorText connected db_query ids None))
         readFeatures readImages readCoords readWishList readCompleted
         firstRejected rawTrailIds userId) =
  Throw (DatabaseError
           ("Error retrieving trail by id: " +:+
            ("Error retrieving stats by ids: " +:+
             Trail.errorMessage typeErrorText e))).
Proof.
  intros Hone Hnum Hrows Hstats Hf Hi Hc Hu.
  unfold Trail.getFullTrailsByIds, connected, Trail.fullTrailsBody.
  rewrite (toTrailIds_numeric ToNumber rawTrailIds Hnum), Hrows.
  cbn [length Nat.ltb Nat.leb].
  unfold Trail.getStatsByIds, connected. cbn [default]. rewrite Hstats.
  cbn [fst].
  destruct (readFeatures _); [|discriminate].
  destruct (readImages _); [|discriminate].
  destruct (readCoords _); [|discriminate].
  destruct (truthy userId).
  - destruct (Hu eq_refl) as [Hw Hd].
    destruct (readWishList userId _); [|discriminate].
    destruct (readCompleted userId _); [|discriminate].
    simpl. rewrite Hone. reflexivity.
  - simpl. rewrite Hone. reflexivity.
Qed.

(** ** Runs of the trail model on concrete collaborators *)

Lemma hydration_rejects_non_numeric_id_witness :
  Trail.getFullTrailsByIds sampleToNumber "" connected twoTrailsDb sampleStats
    sampleFeatures sampleImages sampleCoords sampleWishList sampleCompleted
    firstInOrder [num 4; VStr "nine"] (num 1) =
  (Throw (BadRequestError "Trail ids must be a number."),
   [IoLog None (BadRequestError "Trail ids must be a number."); IoRelease]).
Proof.
  apply (hydration_rejects_non_numeric_id sampleToNumber "" twoTrailsDb).
  reflexivity.
Defined.

Lemma hydration_no_rows_not_found_witness :
  Trail.getFullTrailsByIds sampleToNumber "" connected noRowsDb sampleStats
    sampleFeatures sampleImages sampleCoords sampleWishList sampleCompleted
    firstInOrder [] VNull =
  (Throw (NotFoundError "No trails found for the provided IDs"),
   [IoQuery Trail.trailsText [idArray []];
    IoLog None (NotFoundError "No trails found for the provided IDs");
    IoRelease]).
Proof.
  apply (hydration_no_rows_not_found sampleToNumber "" noRowsDb sampleStats
           sampleFeatures sampleImages sampleCoords sampleWishList sampleCompleted
           firstInOrder [] VNull); reflexivity.
Defined.

Lemma hydration_error_classes_witness :
  exists (e : js_error) (evs : list io),
    snd (Trail.getFullTrailsByIds sampleToNumber "" connected twoTrailsDb
           failingStats sampleFeatures sampleImages sampleCoords sampleWishList
           sampleCompleted firstInOrder [num 4] VNull) =
      evs ++ [IoLog None e; IoRelease] /\
    ((instanceOf "NotFoundError" e || instanceOf "BadRequestError" e = true /\
      DatabaseError
        "Error retrieving trail by id: Error retrieving stats by ids: connection reset"
      = e) \/
     (instanceOf "NotFoundError" e || instanceOf "BadRequestError" e = false /\
      DatabaseError
        "Error retrieving trail by id: Error retrieving stats by ids: connection reset"
      = DatabaseError ("Error retrieving trail by id: " +:+ Trail.errorMessage "" e))).
Proof.
  apply (hydration_error_classes sampleToNumber "" twoTrailsDb failingStats
           sampleFeatures sampleImages sampleCoords sampleWishList sampleCompleted
           firstInOrder [num 4] VNull).
  reflexivity.
Defined.

Lemma hydration_keeps_rows_witness :
  exists (rows decorated : list obj),
    twoTrailsDb Trail.trailsText [idArray (map sampleToNumber [num 4; num 9])] =
      QRows rows /\
    rows <> [] /\
    hydratedForNobody = VArr (map VObj decorated) /\
    Forall2
      (fun row t =>
         (forall k, ~ In k decorKeys -> obj_get t k = obj_get row k) /\
         (forall k, In k decorKeys -> obj_has t k = true))
      rows decorated.
Proof.
  apply (hydration_keeps_rows sampleToNumber "" twoTrailsDb sampleStats
           sampleFeatures sampleImages sampleCoords sampleWishList sampleCompleted
           firstInOrder [num 4; num 9] VNull hydratedForNobody).
  reflexivity.
Defined.

Lemma hydration_flags_follow_lists_witness :
  exists (rows decorated : list obj) (wishList completed : list value),
    twoTrailsDb Trail.trailsText [idArray (map sampleToNumber [num 4; num 9])] =
      QRows rows /\
    sampleWishList (num 1) (map sampleToNumber [num 4; num 9]) = Normal wishList /\
    sampleCompleted (num 1) (map sampleToNumber [num 4; num 9]) = Normal completed /\
    hydratedForUser = VArr (map VObj decorated) /\
    Forall2
      (fun row t =>
         forall n,
           obj_get row "id" = VNum n ->
           arr_includes (map VNum (map sampleToNumber [num 4; num 9])) (VNum n) = true ->
           obj_get t "isWishList" = VBool (arr_includes wishList (VNum n)) /\
           obj_get t "isComplete" = VBool (arr_includes completed (VNum n)))
      rows decorated.
Proof.
  apply (hydration_flags_follow_lists sampleToNumber "" twoTrailsDb sampleStats
           sampleFeatures sampleImages sampleCoords sampleWishList sampleCompleted
           firstInOrder [num 4; num 9] (num 1) hydratedForUser); reflexivity.
Defined.

Lemma hydration_attaches_stats_witness :
  exists (rows decorated stats : list obj),
    twoTrailsDb Trail.trailsText [idArray (map sampleToNumber [num 4; num 9])] =
      QRows rows /\
    sampleStats (map sampleToNumber [num 4; num 9]) = Normal stats /\
    hydratedForUser = VArr (map VObj decorated) /\
    Forall2
      (fun row t =>
         exists o,
           obj_get t "stats" = VObj o /\
           obj_get o "trail_id" = VUndefined /\
           o = match find (fun stat => sameValueZero (obj_get stat "trail_id")
                                         (obj_get row "id")) (rev stats) with
               | Some stat => obj_delete "trail_id" stat
               | None => []
               end)
      rows decorated.
Proof.
  apply (hydration_attaches_stats sampleToNumber "" twoTrailsDb sampleStats
           sampleFeatures sampleImages sampleCoords sampleWishList sampleCompleted
           firstInOrder [num 4; num 9] (num 1) hydratedForUser); reflexivity.
Defined.

Lemma hydration_without_user_witness :
  Trail.getFullTrailsByIds sampleToNumber "" connected twoTrailsDb sampleStats
    sampleFeatures sampleImages sampleCoords sampleWishList sampleCompleted
    firstInOrder [num 4; num 9] VNull =
  Trail.getFullTrailsByIds sampleToNumber "" connected twoTrailsDb sampleStats
    sampleFeatures sampleImages sampleCoords
    (fun _ _ => Throw TypeError) (fun _ _ => Throw TypeError)
    firstInOrder [num 4; num 9] VNull.
Proof.
  apply (hydration_without_user sampleToNumber "" twoTrailsDb sampleStats
           sampleFeatures sampleImages sampleCoords sampleWishList sampleCompleted
           (fun _ _ => Throw TypeError) (fun _ _ => Throw TypeError)
           firstInOrder [num 4; num 9] VNull).
  reflexivity.
Defined.

Lemma list_readers_fail_alike_witness :
  fst (User.isOnWishList sampleToString connected failingQueries (num 1)
         [Fin (inject_Z 4)]) =
    Throw (DatabaseError "Unable to retrive wishlist for user 1") /\
  fst (User.isOnCompletedList sampleToString connected failingQueries (num 1)
         [Fin (inject_Z 4)]) =
    fst (User.isOnWishList sampleToString connected failingQueries (num 1)
           [Fin (inject_Z 4)]).
Proof.
  apply (list_readers_fail_alike sampleToString failingQueries failingQueries
           (num 1) [Fin (inject_Z 4)]
           (External "error" "connection reset")
           (External "error" "connection reset")); reflexivity.
Defined.

Lemma stats_failure_is_wrapped_twice_witness :
  fst (Trail.getFullTrailsByIds sampleToNumber "" connected trailsOnlyDb
         (fun ids => fst (Trail.getStatsByIds "" connected trailsOnlyDb ids None))
         sampleFeatures sampleImages sampleCoords sampleWishList sampleCompleted
         firstInOrder [num 4; num 9] (num 1)) =
  Throw (DatabaseError
           "Error retrieving trail by id: Error retrieving stats by ids: connection reset").
Proof.
  apply (stats_failure_is_wrapped_twice sampleToNumber "" trailsOnlyDb
           sampleFeatures sampleImages sampleCoords sampleWishList sampleCompleted
           firstInOrder [num 4; num 9] (num 1)
           [("id", num 4); ("name", VStr "Falls Loop")]
           [[("id", num 9); ("name", VStr "Ridge")]]
           (External "error" "connection reset")).
  - reflexivity.
  - reflexivity.
  - reflexivity.
  - reflexivity.
  - reflexivity.
  - reflexivity.
  - reflexivity.
  - intros _. split; reflexivity.
Defined.

Lemma coords_swallow_query_failure_only_witness :
  Trail.getTrailCoordsByIds connected failingQueries
    (fun _ => Throw TypeError) [Fin (inject_Z 4)] =
  (Normal None,
   [IoQuery Trail.coordsText [idArray [Fin (inject_Z 4)]];
    IoLog None (External "error" "connection reset"); IoRelease]).
Proof.
  apply (coords_swallow_query_failure_only failingQueries
           (fun _ => Throw TypeError) [Fin (inject_Z 4)]).
  reflexivity.
Defined.

Lemma getFeatureByName_errors_witness :
  fst (Trail.getFeatureByName sampleToString "" connected noRowsDb (VStr "Cave")) =
  Throw (NotFoundError "Feature Cave not found.").
Proof.
  apply (getFeatureByName_errors sampleToString "" noRowsDb (VStr "Cave")).
  reflexivity.
Defined.

(** ** [searchTrails] with [Trail.getFullTrailsByIds] as its hydration *)

Lemma toTrailIds_of_numbers (ToNumber : value -> jsnum) (ids : list jsnum) :
  (forall n, ToNumber (VNum n) = n) ->
  existsb isNaN ids = true ->
  Trail.toTrailIds ToNumber (map VNum ids) =
  Throw (BadRequestError "Trail ids must be a number.").
Proof.
  intros Hnum. induction ids as [|n ids IH]; simpl; [discriminate|].
  rewrite Hnum. destruct (isNaN n); [reflexivity|]. simpl.
  intros H. rewrite IH by exact H. reflexivity.
Qed.

(** X23. A row of the id fetch whose [id] converts to [NaN] does not get
    skipped: hydration rejects the whole id list with its bad-request error,
    and [searchTrails] turns that into the generic search error after both
    queries. *)
Theorem search_fails_on_non_numeric_row_id
    js_gt ToNumber jsToSqlFilters db_query
    (trailNumber : value -> jsnum) typeErrorText trails_query
    readStats readFeatures readImages readCoords readWishList readCompleted
    firstRejected
    (searchTerm page limit : value) (fs : option obj)
    (userId : value) (unit : option string)
    (offset : jsnum) (sc : scope) (first : obj) (more rows : list obj)
    (ids : list jsnum) :
  (forall n, trailNumber (VNum n) = n) ->
  offsetOf ToNumber (orDefault (num 1) page) (orDefault (num 10) limit) =
    Normal offset ->
  compose js_gt ToNumber jsToSqlFilters searchTerm fs (default "Imperial" unit) =
    Normal sc ->
  db_query (sql (countQuery sc)) (params (bound sc)) = QRows (first :: more) ->
  db_query
    (sql (finalQuery sc (S (paramCount (bound sc))) (S (S (paramCount (bound sc))))))
    ((params (bound sc) ++ [orDefault (num 10) limit]) ++ [VNum offset]) =
    QRows rows ->
  rowIds ToNumber rows = Normal ids ->
  existsb isNaN ids = true ->
  searchTrails js_gt ToNumber jsToSqlFilters connected db_query
    (fun ids uid =>
       fst (Trail.getFullTrailsByIds trailNumber typeErrorText connected
              trails_query readStats readFeatures readImages readCoords
              readWishList readCompleted firstRejected (map VNum ids) uid))
    searchTerm page limit fs userId unit =
  (Throw searchError,
   [Query (countQuery sc) (params (bound sc));
    Query (finalQuery sc (S (paramCount (bound sc))) (S (S (paramCount (bound sc)))))
      ((params (bound sc) ++ [orDefault (num 10) limit]) ++ [VNum offset]);
    Hydrate ids userId;
    ConsoleError (BadRequestError "Trail ids must be a number.");
    Release]).
Proof.
  intros Hnum Hoff Hc Hcount Hfetch Hids Hnan.
  unfold searchTrails, connected, searchBody.
  rewrite Hoff, Hc, Hcount, !addParam_token. cbn [params paramCount]. rewrite Hfetch.
  destruct rows as [|row rows]; [injection Hids as <-; discriminate|].
  cbn [length Nat.ltb Nat.leb]. rewrite Hids.
  unfold Trail.getFullTrailsByIds, connected, Trail.fullTrailsBody.
  rewrite (toTrailIds_of_numbers trailNumber _ Hnum Hnan). reflexivity.
Qed.

Lemma search_fails_on_non_numeric_row_id_witness :
  searchTrails sampleGt sampleNumber sampleFilters connected
    (fun text ps =>
       if String.prefix "SELECT COUNT" text
       then QRows [[("total_count", VStr "2")]]
       else QRows [[("id", num 4)]; [("name", VStr "Ridge")]])
    (fun ids uid =>
       fst (Trail.getFullTrailsByIds sampleToNumber "" connected twoTrailsDb
              sampleStats sampleFeatures sampleImages sampleCoords sampleWishList
              sampleCompleted firstInOrder (map VNum ids) uid))
    VNull VUndefined VUndefined None VNull None =
  (Throw searchError,
   [Query (countQuery (start [])) [];
    Query (finalQuery (start []) 1 2) [num 10; num 0];
    Hydrate [Fin (inject_Z 4); NaN] VNull;
    ConsoleError (BadRequestError "Trail ids must be a number.");
    Release]).
Proof.
  apply (search_fails_on_non_numeric_row_id sampleGt sampleNumber sampleFilters
           (fun text ps =>
              if String.prefix "SELECT COUNT" text
              then QRows [[("total_count", VStr "2")]]
              else QRows [[("id", num 4)]; [("name", VStr "Ridge")]])
           sampleToNumber "" twoTrailsDb sampleStats sampleFeatures sampleImages
           sampleCoords sampleWishList sampleCompleted firstInOrder
           VNull VUndefined VUndefined None VNull None (Fin 0) (start [])
           [("total_count", VStr "2")] []
           [[("id", num 4)]; [("name", VStr "Ridge")]]
           [Fin (inject_Z 4); NaN]).
  - reflexivity.
  - reflexivity.
  - reflexivity.
  - reflexivity.
  - reflexivity.
  - reflexivity.
  - reflexivity.
Defined.
